(** * Virtual-group message server (x/virtualgroup/keeper/msg_server.go)

    A shallow embedding of the request handlers of the virtual-group
    module, with the chain state they read and write made explicit, and
    the properties of the handlers proved over it. *)

From stdpp Require Import gmap strings list fin_maps.
From Stdlib Require Import ZArith Lia.

Open Scope Z_scope.

(** ** Machine integers and big integers *)

(** Conversion to [uint32]: the value modulo 2^32. *)
Definition uint32 (z : Z) : Z := z mod 2 ^ 32.

(** [math.Int] is a big integer of at most 256 bits; an arithmetic result
    outside that range makes the operation panic. *)
Definition MaxBitLen : Z := 256.

Definition fitsInt (z : Z) : bool := Z.abs z <? 2 ^ MaxBitLen.

(** ** Data model *)

(** Addresses are kept in parsed form: [sdk.MustAccAddressFromHex], which
    panics on a malformed string, is the identity on them. *)
Definition AccAddress := string.

(** Named protocol upgrades queried through [ctx.IsUpgraded]. *)
Inductive Upgrade := Nagqu | Pampas | Manchurian | Hulunbeier.

(** Registered errors; the text added by [Wrapf] is not kept.
    [ErrInsufficientFunds] is the bank's, [ErrFamilyNotOwned] stands for the
    refusal of a family of another primary provider, and [ErrCollaborator]
    for any error a collaborator returns. *)
Inductive Error :=
  | ErrInvalidSigner
  | ErrInvalidParameter
  | ErrInvalidSecondarySPCount
  | ErrDuplicateSecondarySP
  | ErrStorageProviderNotFound
  | ErrStorageProviderNotInService
  | ErrStorageProviderExitFailed
  | ErrGVGFamilyNotExist
  | ErrGVGNotExist
  | ErrDuplicateGVG
  | ErrLimitationExceed
  | ErrInvalidDenom
  | ErrWithdrawFailed
  | ErrWithdrawAmountTooLarge
  | ErrSettleFailed
  | ErrSPCanNotExit
  | ErrInsufficientFunds
  | ErrFamilyNotOwned
  | ErrCollaborator (code : string).

(** Modelled from the spec: [sptypes.Status] (section 3: in-service,
    in-maintenance, graceful-exiting, forced-exiting, exited). *)
Inductive Status :=
  | STATUS_IN_SERVICE
  | STATUS_IN_MAINTENANCE
  | STATUS_GRACEFUL_EXITING
  | STATUS_FORCED_EXITING
  | STATUS_EXITED.

Global Instance Status_eq_dec : EqDecision Status.
Proof. solve_decision. Defined.

(** [sdk.Coin]: a denomination and an amount. *)
Module Coin.
Record t := mk { Denom : string; Amount : Z }.
End Coin.

(** Modelled from the spec: [sptypes.StorageProvider], with the fields the
    handlers read. *)
Module StorageProvider.
Record t := mk {
  Id : Z;
  OperatorAddress : AccAddress;
  FundingAddress : AccAddress;
  ApprovalAddress : AccAddress;
  Status : Status;
  TotalDeposit : Z
}.

(** Modelled from the spec: [IsInService] of the provider record, the test
    of its status. *)
Definition IsInService (sp : t) : bool :=
  bool_decide (Status sp = STATUS_IN_SERVICE).

(** Modelled from the spec: [IsInMaintenance] of the provider record. *)
Definition IsInMaintenance (sp : t) : bool :=
  bool_decide (Status sp = STATUS_IN_MAINTENANCE).
End StorageProvider.

(** The assignment [sp.Status = st] on a loaded provider record. *)
Definition withStatus (st : Status) (sp : StorageProvider.t) : StorageProvider.t :=
  StorageProvider.mk
    (StorageProvider.Id sp) (StorageProvider.OperatorAddress sp)
    (StorageProvider.FundingAddress sp) (StorageProvider.ApprovalAddress sp)
    st (StorageProvider.TotalDeposit sp).

(** Modelled from the spec: [types.GlobalVirtualGroup] (section 3:
    identity, owning family id, one primary SP id, an ordered list of
    secondary SP ids, stored size, a virtual payment account, and total
    deposit). *)
Module GlobalVirtualGroup.
Record t := mk {
  Id : Z;
  FamilyId : Z;
  PrimarySpId : Z;
  SecondarySpIds : list Z;
  StoredSize : Z;
  VirtualPaymentAddress : string;
  TotalDeposit : Z
}.

(** The assignment [gvg.TotalDeposit = d] on a loaded group record. *)
Definition withTotalDeposit (d : Z) (g : t) : t :=
  mk (Id g) (FamilyId g) (PrimarySpId g) (SecondarySpIds g) (StoredSize g)
     (VirtualPaymentAddress g) d.
End GlobalVirtualGroup.

(** Modelled from the spec: [types.GlobalVirtualGroupFamily] (section 3: a
    container owned by one primary SP, holding an ordered set of group ids
    and its own virtual payment account). *)
Module GlobalVirtualGroupFamily.
Record t := mk {
  Id : Z;
  PrimarySpId : Z;
  GlobalVirtualGroupIds : list Z;
  VirtualPaymentAddress : string
}.

(** Modelled from the spec: [AppendGVG] (section 2, Family Manager: appends
    new groups), the new group id goes to the end of the family's list. *)
Definition AppendGVG (f : t) (gvgID : Z) : t :=
  mk (Id f) (PrimarySpId f) (GlobalVirtualGroupIds f ++ [gvgID])
     (VirtualPaymentAddress f).
End GlobalVirtualGroupFamily.

(** Modelled from the spec: [types.GVGStatisticsWithinSP] (section 3:
    per-SP counters of the groups it is primary of, secondary of, and of
    those that break the redundancy requirement). *)
Module GVGStatisticsWithinSP.
Record t := mk {
  StorageProviderId : Z;
  PrimaryCount : Z;
  SecondaryCount : Z;
  BreakRedundancyReqmtGvgCount : Z
}.

(** [stat.PrimaryCount++] and [stat.SecondaryCount++], on [uint32]. *)
Definition incPrimaryCount (st : t) : t :=
  mk (StorageProviderId st) (uint32 (PrimaryCount st + 1)) (SecondaryCount st)
     (BreakRedundancyReqmtGvgCount st).

Definition incSecondaryCount (st : t) : t :=
  mk (StorageProviderId st) (PrimaryCount st) (uint32 (SecondaryCount st + 1))
     (BreakRedundancyReqmtGvgCount st).
End GVGStatisticsWithinSP.

(** Modelled from the spec: [types.Params], with the parameters the
    handlers read. *)
Module Params.
Record t := mk {
  DepositDenom : string;
  MaxGlobalVirtualGroupNumPerFamily : Z;
  SwapInValidityPeriod : Z;
  SpConcurrentExitNum : Z
}.
End Params.

(** Modelled from the spec: the typed events (section 6), one constructor
    per event message, with the fields the handlers fill in. *)
Inductive Event :=
  | EventParams (params : Params.t)
  | EventCreateGlobalVirtualGroup
      (Id FamilyId PrimarySpId : Z) (SecondarySpIds : list Z) (StoredSize : Z)
      (VirtualPaymentAddress : string) (TotalDeposit : Z)
  | EventCreateGlobalVirtualGroupFamily
      (Id PrimarySpId : Z) (VirtualPaymentAddress : string)
  | EventUpdateGlobalVirtualGroup
      (Id PrimarySpId StoreSize TotalDeposit : Z) (SecondarySpIds : list Z)
  | EventStorageProviderExit (StorageProviderId : Z) (OperatorAddress : string)
  | EventCompleteStorageProviderExit
      (StorageProviderId : Z) (OperatorAddress StorageProviderAddress : string)
      (TotalDeposit : Z) (ForcedExit : bool)
  | EventStorageProviderForcedExit (StorageProviderId : Z).

(** ** Request messages

    Modelled from the spec: the request messages (section 6), with the fields
    the handlers read. *)

Module MsgUpdateParams.
Record t := mk { Authority : string; Params : Params.t }.
End MsgUpdateParams.

Module MsgCreateGlobalVirtualGroup.
Record t := mk {
  StorageProvider : AccAddress;
  FamilyId : Z;
  SecondarySpIds : list Z;
  Deposit : Coin.t
}.
End MsgCreateGlobalVirtualGroup.

Module MsgDeposit.
Record t := mk {
  StorageProvider : AccAddress;
  GlobalVirtualGroupId : Z;
  Deposit : Coin.t
}.
End MsgDeposit.

Module MsgWithdraw.
Record t := mk {
  StorageProvider : AccAddress;
  GlobalVirtualGroupId : Z;
  Withdraw : Coin.t
}.
End MsgWithdraw.

Module MsgSettle.
Record t := mk {
  StorageProvider : AccAddress;
  GlobalVirtualGroupFamilyId : Z;
  GlobalVirtualGroupIds : list Z
}.
End MsgSettle.

Module MsgStorageProviderExit.
Record t := mk { StorageProvider : AccAddress }.
End MsgStorageProviderExit.

Module MsgCompleteStorageProviderExit.
Record t := mk { StorageProvider : AccAddress; Operator : AccAddress }.
End MsgCompleteStorageProviderExit.

Module MsgStorageProviderForcedExit.
Record t := mk { Authority : string; StorageProvider : AccAddress }.
End MsgStorageProviderForcedExit.

(** ** Bank accounts *)

Inductive Account :=
  | ModuleAccount (name : string)
  | UserAccount (addr : AccAddress).

Global Instance Account_eq_dec : EqDecision Account.
Proof. solve_decision. Defined.

Global Instance Account_countable : Countable Account.
Proof.
  refine (inj_countable'
    (fun a => match a with ModuleAccount n => inl n | UserAccount x => inr x end)
    (fun c => match c with inl n => ModuleAccount n | inr x => UserAccount x end) _).
  intros []; reflexivity.
Defined.

(** Modelled from the spec: [types.ModuleName] and [sptypes.ModuleName],
    the names of the two module accounts that hold escrowed deposits. *)
Definition ModuleName : string := "virtualgroup".
Definition SpModuleName : string := "sp".

(** Modelled from the spec: [paymenttypes.GovernanceAddress], the
    protocol-governance-controlled account (section 4.4). *)
Definition GovernanceAddress : AccAddress := "governance".

(** Modelled from the spec: [types.NoSpecifiedFamilyId], the sentinel for
    an unspecified family id. *)
Definition NoSpecifiedFamilyId : Z := 0.

(** Modelled from the spec: [types.GVGVirtualPaymentAccountName] and
    [types.GVGFamilyName], the names the virtual payment accounts are
    derived from. *)
Definition GVGVirtualPaymentAccountName : string := "gvg".
Definition GVGFamilyName : string := "gvg_family".

(** ** Chain state *)

Record State := mkState {
  upgraded : Upgrade -> bool;
  blockTime : Z;
  authority : string;
  params : Params.t;
  gvgs : gmap Z GlobalVirtualGroup.t;
  families : gmap Z GlobalVirtualGroupFamily.t;
  stats : gmap Z GVGStatisticsWithinSP.t;
  gvgSequence : Z;
  familySequence : Z;
  sps : gmap Z StorageProvider.t;
  spDepositDenom : string;
  balances : gmap (Account * string) Z;
  events : list Event
}.

Definition set_upgraded (u : Upgrade -> bool) (s : State) : State :=
  mkState u (blockTime s) (authority s) (params s) (gvgs s) (families s)
          (stats s) (gvgSequence s) (familySequence s) (sps s)
          (spDepositDenom s) (balances s) (events s).

Definition set_params (p : Params.t) (s : State) : State :=
  mkState (upgraded s) (blockTime s) (authority s) p (gvgs s) (families s)
          (stats s) (gvgSequence s) (familySequence s) (sps s)
          (spDepositDenom s) (balances s) (events s).

Definition set_gvgs (m : gmap Z GlobalVirtualGroup.t) (s : State) : State :=
  mkState (upgraded s) (blockTime s) (authority s) (params s) m (families s)
          (stats s) (gvgSequence s) (familySequence s) (sps s)
          (spDepositDenom s) (balances s) (events s).

Definition set_families (m : gmap Z GlobalVirtualGroupFamily.t) (s : State) : State :=
  mkState (upgraded s) (blockTime s) (authority s) (params s) (gvgs s) m
          (stats s) (gvgSequence s) (familySequence s) (sps s)
          (spDepositDenom s) (balances s) (events s).

Definition set_stats (m : gmap Z GVGStatisticsWithinSP.t) (s : State) : State :=
  mkState (upgraded s) (blockTime s) (authority s) (params s) (gvgs s)
          (families s) m (gvgSequence s) (familySequence s) (sps s)
          (spDepositDenom s) (balances s) (events s).

Definition set_gvgSequence (n : Z) (s : State) : State :=
  mkState (upgraded s) (blockTime s) (authority s) (params s) (gvgs s)
          (families s) (stats s) n (familySequence s) (sps s)
          (spDepositDenom s) (balances s) (events s).

Definition set_familySequence (n : Z) (s : State) : State :=
  mkState (upgraded s) (blockTime s) (authority s) (params s) (gvgs s)
          (families s) (stats s) (gvgSequence s) n (sps s)
          (spDepositDenom s) (balances s) (events s).

Definition set_sps (m : gmap Z StorageProvider.t) (s : State) : State :=
  mkState (upgraded s) (blockTime s) (authority s) (params s) (gvgs s)
          (families s) (stats s) (gvgSequence s) (familySequence s) m
          (spDepositDenom s) (balances s) (events s).

Definition set_balances (b : gmap (Account * string) Z) (s : State) : State :=
  mkState (upgraded s) (blockTime s) (authority s) (params s) (gvgs s)
          (families s) (stats s) (gvgSequence s) (familySequence s) (sps s)
          (spDepositDenom s) b (events s).

Definition set_events (l : list Event) (s : State) : State :=
  mkState (upgraded s) (blockTime s) (authority s) (params s) (gvgs s)
          (families s) (stats s) (gvgSequence s) (familySequence s) (sps s)
          (spDepositDenom s) (balances s) l.

(** ** The handler monad

    A handler runs on the state of the context.  It returns a value, a
    recoverable error ([return nil, err]) or aborts with a panic; whatever
    it wrote to the context before that point stays written. *)

Inductive Outcome (A : Type) :=
  | Ok (a : A)
  | Err (e : Error)
  | Panic (msg : string).

Arguments Ok {A} a.
Arguments Err {A} e.
Arguments Panic {A} msg.

Definition M (A : Type) : Type := State -> Outcome A * State.

Definition ret {A} (a : A) : M A := fun s => (Ok a, s).

Definition bind {A B} (c : M A) (k : A -> M B) : M B :=
  fun s =>
    match c s with
    | (Ok a, s1) => k a s1
    | (Err e, s1) => (Err e, s1)
    | (Panic msg, s1) => (Panic msg, s1)
    end.

Definition fail {A} (e : Error) : M A := fun s => (Err e, s).

Definition panic {A} (msg : string) : M A := fun s => (Panic msg, s).

Definition gets {A} (f : State -> A) : M A := fun s => (Ok (f s), s).

Definition modify (f : State -> State) : M unit := fun s => (Ok tt, f s).

Notation "x <- c1 ;; c2" := (bind c1 (fun x => c2))
  (at level 100, c1 at next level, right associativity).
Notation "c1 ;; c2" := (bind c1 (fun _ => c2))
  (at level 100, right associativity).

(** ** Collaborators

    The handlers call into other keepers and into keeper methods that are
    defined outside [msg_server.go].  What those calls compute is taken as
    an instance of the class below. *)

Class Collaborators := {
  (** [storageKeeper.GetExpectSecondarySPNumForECObject(ctx, time)]. *)
  GetExpectSecondarySPNumForECObject : State -> Z -> Z;
  (** The validation [SetParams] runs before it stores the parameters. *)
  validateParams : Params.t -> option Error;
  (** [DeriveVirtualPaymentAccount(name, id)], as the address string. *)
  DeriveVirtualPaymentAccount : string -> Z -> string;
  (** The minimum stake a group must keep for what it stores. *)
  requiredStake : State -> GlobalVirtualGroup.t -> Z;
  (** The revenue distribution routines of the settlement engine. *)
  SettleAndDistributeGVGFamily :
    StorageProvider.t -> GlobalVirtualGroupFamily.t -> M unit;
  SettleAndDistributeGVG : GlobalVirtualGroup.t -> M unit;
  (** The exitability predicate: [None] when the provider may leave. *)
  StorageProviderExitable : State -> Z -> option Error;
  (** [spKeeper.Exit]: the provider's removal from the registry. *)
  spKeeperExit :
    gmap Z StorageProvider.t -> StorageProvider.t ->
    Error + gmap Z StorageProvider.t
}.

(** ** Context, events and parameters *)

Definition IsUpgraded (u : Upgrade) : M bool := gets (fun s => upgraded s u).

(** [ctx.EventManager().EmitTypedEvents]: the event is appended to the
    context's event list.  The call fails only when the event cannot be
    marshalled, which does not happen for the module's own messages. *)
Definition EmitTypedEvents (e : Event) : M unit :=
  modify (fun s => set_events (events s ++ [e]) s).

(** Modelled from the spec: [GetAuthority] of the keeper, the configured
    authority address (section 6: authority check). *)
Definition GetAuthority : M string := gets authority.

(** Modelled from the spec: [GetParams] of the keeper, the stored module
    parameters. *)
Definition GetParams : M Params.t := gets params.

(** Modelled from the spec: [DepositDenomForGVG] of the keeper, the deposit
    denomination of the stored parameters. *)
Definition DepositDenomForGVG : M string :=
  gets (fun s => Params.DepositDenom (params s)).

(** Modelled from the spec: [MaxGlobalVirtualGroupNumPerFamily] of the
    keeper, the configured per-family maximum. *)
Definition MaxGlobalVirtualGroupNumPerFamily : M Z :=
  gets (fun s => Params.MaxGlobalVirtualGroupNumPerFamily (params s)).

(** Modelled from the spec: [SpConcurrentExitNum] of the keeper, the
    configured cap on simultaneous exits. *)
Definition SpConcurrentExitNum : M Z :=
  gets (fun s => Params.SpConcurrentExitNum (params s)).

(** ** Bank keeper

    The bank keeper of the SDK moves the tokens (section 6: module-account
    escrow and release).  A transfer takes the amount from the sender,
    fails with insufficient funds when the sender holds less, and adds it
    to the recipient. *)

Definition balanceOf (b : gmap (Account * string) Z) (a : Account) (denom : string) : Z :=
  default 0 (b !! (a, denom)).

(** [sdk.NewCoins(sdk.NewCoin(denom, amount))]: [NewCoin] panics on a
    negative amount, and [NewCoins] drops a coin whose amount is zero.  The
    denomination is a stored parameter and taken to be well-formed. *)
Definition NewCoins (denom : string) (amount : Z) : M (list Coin.t) :=
  if amount <? 0 then panic "negative coin amount"
  else if amount =? 0 then ret []
  else ret [Coin.mk denom amount].

Definition sendCoin (from to : Account) (c : Coin.t)
    (b : gmap (Account * string) Z) : Error + gmap (Account * string) Z :=
  let denom := Coin.Denom c in
  if balanceOf b from denom <? Coin.Amount c then inl ErrInsufficientFunds
  else
    let b1 := <[(from, denom) := balanceOf b from denom - Coin.Amount c]> b in
    inr (<[(to, denom) := balanceOf b1 to denom + Coin.Amount c]> b1).

Fixpoint sendCoins (from to : Account) (coins : list Coin.t)
    (b : gmap (Account * string) Z) : Error + gmap (Account * string) Z :=
  match coins with
  | [] => inr b
  | c :: rest =>
      match sendCoin from to c b with
      | inl e => inl e
      | inr b1 => sendCoins from to rest b1
      end
  end.

Definition SendCoins (from to : Account) (coins : list Coin.t) : M unit :=
  fun s =>
    match sendCoins from to coins (balances s) with
    | inl e => (Err e, s)
    | inr b => (Ok tt, set_balances b s)
    end.

Definition SendCoinsFromAccountToModule
    (sender : AccAddress) (recipientModule : string) (coins : list Coin.t) : M unit :=
  SendCoins (UserAccount sender) (ModuleAccount recipientModule) coins.

Definition SendCoinsFromModuleToAccount
    (senderModule : string) (recipient : AccAddress) (coins : list Coin.t) : M unit :=
  SendCoins (ModuleAccount senderModule) (UserAccount recipient) coins.

(** ** Storage-provider keeper

    The provider registry (section 6: lookup by operator or funding
    address, status mutation, deposit denomination).  Providers are stored
    by id. *)

(** Modelled from the spec: [spKeeper.GetAllStorageProviders], every
    provider of the registry. *)
Definition GetAllStorageProviders : M (list StorageProvider.t) :=
  gets (fun s => (map_to_list (sps s)).*2).

(** Modelled from the spec: [spKeeper.GetStorageProvider], the lookup by
    id. *)
Definition GetStorageProvider (id : Z) : M (option StorageProvider.t) :=
  gets (fun s => sps s !! id).

(** Modelled from the spec: the registry's lookup by operator address, the
    provider whose operator address is [addr]. *)
Definition findByOperatorAddr (addr : AccAddress) (m : gmap Z StorageProvider.t)
    : option StorageProvider.t :=
  snd <$> list_find
    (fun sp => StorageProvider.OperatorAddress sp = addr) (map_to_list m).*2.

(** Modelled from the spec: the registry's lookup by funding address. *)
Definition findByFundingAddr (addr : AccAddress) (m : gmap Z StorageProvider.t)
    : option StorageProvider.t :=
  snd <$> list_find
    (fun sp => StorageProvider.FundingAddress sp = addr) (map_to_list m).*2.

(** Modelled from the spec: [spKeeper.GetStorageProviderByOperatorAddr]. *)
Definition GetStorageProviderByOperatorAddr (addr : AccAddress)
    : M (option StorageProvider.t) :=
  gets (fun s => findByOperatorAddr addr (sps s)).

(** Modelled from the spec: [spKeeper.GetStorageProviderByFundingAddr]. *)
Definition GetStorageProviderByFundingAddr (addr : AccAddress)
    : M (option StorageProvider.t) :=
  gets (fun s => findByFundingAddr addr (sps s)).

(** Modelled from the spec: [spKeeper.SetStorageProvider], which stores the
    record under the provider's id. *)
Definition SetStorageProvider (sp : StorageProvider.t) : M unit :=
  modify (fun s => set_sps (<[StorageProvider.Id sp := sp]> (sps s)) s).

(** Modelled from the spec: [spKeeper.DepositDenomForSP], the deposit
    denomination of the provider module. *)
Definition DepositDenomForSP : M string := gets spDepositDenom.

(** ** Group store

    The keeper's store accessors (section 2, Group Store: durable records
    for groups and families, pure data access with id generation;
    Statistics Ledger: per-provider counters created on first reference). *)

(** Modelled from the spec: [GetGVG], the lookup of a group by id. *)
Definition GetGVG (id : Z) : M (option GlobalVirtualGroup.t) :=
  gets (fun s => gvgs s !! id).

(** Modelled from the spec: [SetGVG], which stores a group under its id. *)
Definition SetGVG (g : GlobalVirtualGroup.t) : M unit :=
  modify (fun s => set_gvgs (<[GlobalVirtualGroup.Id g := g]> (gvgs s)) s).

(** Modelled from the spec: [GetGVGFamily], the lookup of a family by id. *)
Definition GetGVGFamily (id : Z) : M (option GlobalVirtualGroupFamily.t) :=
  gets (fun s => families s !! id).

(** Modelled from the spec: [SetGVGFamily], which stores a family under its
    id. *)
Definition SetGVGFamily (f : GlobalVirtualGroupFamily.t) : M unit :=
  modify (fun s =>
    set_families (<[GlobalVirtualGroupFamily.Id f := f]> (families s)) s).

(** Modelled from the spec: [GenNextGVGID], the next value of the group id
    sequence. *)
Definition GenNextGVGID : M Z :=
  fun s => let id := gvgSequence s + 1 in (Ok id, set_gvgSequence id s).

(** Modelled from the spec: [GenNextGVGFamilyID], the next value of the
    family id sequence. *)
Definition GenNextGVGFamilyID : M Z :=
  fun s => let id := familySequence s + 1 in (Ok id, set_familySequence id s).

(** Modelled from the spec: [GetGVGStatisticsWithinSP], the stored counters
    of a provider, if any. *)
Definition GetGVGStatisticsWithinSP (spID : Z) : M (option GVGStatisticsWithinSP.t) :=
  gets (fun s => stats s !! spID).

(** Modelled from the spec: [GetOrCreateGVGStatisticsWithinSP], the stored
    counters of a provider, or fresh zero counters on first reference. *)
Definition GetOrCreateGVGStatisticsWithinSP (spID : Z) : M GVGStatisticsWithinSP.t :=
  gets (fun s =>
    match stats s !! spID with
    | Some st => st
    | None => GVGStatisticsWithinSP.mk spID 0 0 0
    end).

(** Modelled from the spec: [BatchSetGVGStatisticsWithinSP], which stores
    the counters one after the other, each under its provider id. *)
Definition BatchSetGVGStatisticsWithinSP (l : list GVGStatisticsWithinSP.t) : M unit :=
  modify (fun s =>
    set_stats
      (foldl (fun m st => <[GVGStatisticsWithinSP.StorageProviderId st := st]> m)
             (stats s) l) s).

(** ** Loops of the handlers *)

(** Lines 62-68 of [CreateGlobalVirtualGroup]: the secondary ids are put
    into a set one by one, and an id already in the set is a duplicate. *)
Fixpoint checkDuplicateSecondarySP (ids : list Z) (spIdSet : gset Z) : M unit :=
  match ids with
  | [] => ret tt
  | spId :: rest =>
      if bool_decide (spId ∈ spIdSet) then fail ErrDuplicateSecondarySP
      else checkDuplicateSecondarySP rest ({[spId]} ∪ spIdSet)
  end.

(** Lines 115-122: the scan of one stored group's secondaries against the
    requested ones.  [requested !! i] is the indexing [secondarySpIds[i]],
    which panics past the end of the slice. *)
Inductive ScanResult := ScanDone | ScanDuplicate | ScanIndexPanic.

Fixpoint sameOrderScan (existing requested : list Z) (i : nat) : ScanResult :=
  match existing with
  | [] => ScanDone
  | secondarySPId :: rest =>
      match requested !! i with
      | None => ScanIndexPanic
      | Some r =>
          if bool_decide (secondarySPId ≠ r) then ScanDone
          else if bool_decide (Z.of_nat i = Z.of_nat (length requested) - 1)
               then ScanDuplicate
               else sameOrderScan rest requested (S i)
      end
  end.

(** Lines 110-123: every group of the family is loaded and scanned. *)
Fixpoint checkDuplicateGVG (gvgIDs : list Z) (secondarySpIds : list Z) : M unit :=
  match gvgIDs with
  | [] => ret tt
  | gvgID :: rest =>
      found <- GetGVG gvgID ;;
      match found with
      | None => fail ErrGVGNotExist
      | Some gvg =>
          match sameOrderScan (GlobalVirtualGroup.SecondarySpIds gvg) secondarySpIds 0 with
          | ScanDuplicate => fail ErrDuplicateGVG
          | ScanIndexPanic => panic "index out of range"
          | ScanDone => checkDuplicateGVG rest secondarySpIds
          end
      end
  end.

(** Lines 88-102: each secondary provider is loaded and checked, its id is
    appended to [secondarySpIds] and its incremented statistics to
    [gvgStatisticsWithinSPs]. *)
Fixpoint collectSecondarySPs (ids : list Z) (secondarySpIds : list Z)
    (gvgStatisticsWithinSPs : list GVGStatisticsWithinSP.t)
    : M (list Z * list GVGStatisticsWithinSP.t) :=
  match ids with
  | [] => ret (secondarySpIds, gvgStatisticsWithinSPs)
  | id :: rest =>
      found <- GetStorageProvider id ;;
      match found with
      | None => fail ErrStorageProviderNotFound
      | Some ssp =>
          if negb (StorageProvider.IsInService ssp)
             && negb (StorageProvider.IsInMaintenance ssp)
          then fail ErrStorageProviderNotInService
          else
            st <- GetOrCreateGVGStatisticsWithinSP (StorageProvider.Id ssp) ;;
            collectSecondarySPs rest
              (secondarySpIds ++ [StorageProvider.Id ssp])
              (gvgStatisticsWithinSPs ++ [GVGStatisticsWithinSP.incSecondaryCount st])
      end
  end.

(** A provider in one of the two exiting statuses. *)
Definition isExiting (sp : StorageProvider.t) : bool :=
  bool_decide (StorageProvider.Status sp = STATUS_GRACEFUL_EXITING)
  || bool_decide (StorageProvider.Status sp = STATUS_FORCED_EXITING).

(** Lines 475-483 and 638-646: the exiting providers are counted in a
    [uint32], and the loop returns the error as soon as the count reaches
    the cap.  [true] stands for that early return. *)
Fixpoint exitCapReached (sps : list StorageProvider.t)
    (exitingSPNum maxSPExitingNum : Z) : bool :=
  match sps with
  | [] => false
  | curSP :: rest =>
      if isExiting curSP then
        let exitingSPNum := uint32 (exitingSPNum + 1) in
        if maxSPExitingNum <=? exitingSPNum then true
        else exitCapReached rest exitingSPNum maxSPExitingNum
      else exitCapReached rest exitingSPNum maxSPExitingNum
  end.

(** Lines 416-419 of [Settle]: the requested ids are the keys of a map. *)
Definition buildIdSet (ids : list Z) : gset Z :=
  foldl (fun m gvgID => {[gvgID]} ∪ m) ∅ ids.

(** Ranging over a map visits every key once, in an order the runtime
    picks: [order] is one such order for the set [m]. *)
Definition rangeOrder (m : gset Z) (order : list Z) : Prop :=
  order ≡ₚ elements m.

(** [Int.Add]: panics when the sum does not fit. *)
Definition IntAdd (a b : Z) : M Z :=
  if fitsInt (a + b) then ret (a + b) else panic "Int overflow".

Section Handlers.

Context `{Collaborators}.

(** Modelled from the spec: [SetParams] of the keeper, which validates the
    parameters and then stores them. *)
Definition SetParams (p : Params.t) : M unit :=
  match validateParams p with
  | Some e => fail e
  | None => modify (set_params p)
  end.

(** Modelled from the spec: [GetOrCreateEmptyGVGFamily] (section 4.1).  With
    the unspecified family id a new id is allocated and an empty family of
    the given primary provider is returned; otherwise the stored family is
    loaded, which fails when it is absent or has another primary.  The
    per-family cap of that section is enforced where the source has it, at
    lines 126-129 of the handler. *)
Definition GetOrCreateEmptyGVGFamily (familyID primarySPID : Z)
    : M GlobalVirtualGroupFamily.t :=
  if familyID =? NoSpecifiedFamilyId then
    id <- GenNextGVGFamilyID ;;
    ret (GlobalVirtualGroupFamily.mk id primarySPID []
           (DeriveVirtualPaymentAccount GVGFamilyName id))
  else
    found <- GetGVGFamily familyID ;;
    match found with
    | None => fail ErrGVGFamilyNotExist
    | Some family =>
        if negb (GlobalVirtualGroupFamily.PrimarySpId family =? primarySPID)
        then fail ErrFamilyNotOwned
        else ret family
    end.

(** Modelled from the spec: [GetAvailableStakingTokens] (section 4.3), the
    total deposit minus the minimum stake the group must keep. *)
Definition GetAvailableStakingTokens (gvg : GlobalVirtualGroup.t) : M Z :=
  gets (fun s => GlobalVirtualGroup.TotalDeposit gvg - requiredStake s gvg).

(** ** The handlers *)

Definition UpdateParams (req : MsgUpdateParams.t) : M unit :=
  auth <- GetAuthority ;;
  if negb (String.eqb auth (MsgUpdateParams.Authority req)) then fail ErrInvalidSigner
  else
    originParams <- GetParams ;;
    if negb (String.eqb (Params.DepositDenom (MsgUpdateParams.Params req))
                        (Params.DepositDenom originParams))
    then fail ErrInvalidParameter
    else
      SetParams (MsgUpdateParams.Params req) ;;
      nagqu <- IsUpgraded Nagqu ;;
      (if nagqu then
         params <- GetParams ;;
         EmitTypedEvents (EventParams params)
       else ret tt) ;;
      ret tt.

Definition CreateGlobalVirtualGroup (req : MsgCreateGlobalVirtualGroup.t) : M unit :=
  pampas <- IsUpgraded Pampas ;;
  (if pampas then
     expectSecondarySPNum <-
       gets (fun s => GetExpectSecondarySPNumForECObject s (blockTime s)) ;;
     if negb (Z.of_nat (length (MsgCreateGlobalVirtualGroup.SecondarySpIds req))
              =? expectSecondarySPNum)
     then fail ErrInvalidSecondarySPCount
     else checkDuplicateSecondarySP (MsgCreateGlobalVirtualGroup.SecondarySpIds req) ∅
   else ret tt) ;;
  found <- GetStorageProviderByOperatorAddr (MsgCreateGlobalVirtualGroup.StorageProvider req) ;;
  match found with
  | None => fail ErrStorageProviderNotFound
  | Some sp =>
      if negb (StorageProvider.IsInService sp) && negb (StorageProvider.IsInMaintenance sp)
      then fail ErrStorageProviderNotInService
      else
        stat <- GetOrCreateGVGStatisticsWithinSP (StorageProvider.Id sp) ;;
        collected <- collectSecondarySPs
                       (MsgCreateGlobalVirtualGroup.SecondarySpIds req) []
                       [GVGStatisticsWithinSP.incPrimaryCount stat] ;;
        let secondarySpIds := collected.1 in
        let gvgStatisticsWithinSPs := collected.2 in
        gvgFamily <- GetOrCreateEmptyGVGFamily
                       (MsgCreateGlobalVirtualGroup.FamilyId req) (StorageProvider.Id sp) ;;
        manchurian <- IsUpgraded Manchurian ;;
        (if manchurian then
           checkDuplicateGVG
             (GlobalVirtualGroupFamily.GlobalVirtualGroupIds gvgFamily) secondarySpIds
         else ret tt) ;;
        maxNum <- MaxGlobalVirtualGroupNumPerFamily ;;
        if maxNum <? uint32 (Z.of_nat (length
                       (GlobalVirtualGroupFamily.GlobalVirtualGroupIds gvgFamily)))
        then fail ErrLimitationExceed
        else
          denom <- DepositDenomForGVG ;;
          coins <- NewCoins denom (Coin.Amount (MsgCreateGlobalVirtualGroup.Deposit req)) ;;
          SendCoinsFromAccountToModule (StorageProvider.FundingAddress sp) ModuleName coins ;;
          gvgID <- GenNextGVGID ;;
          let gvg := GlobalVirtualGroup.mk
                       gvgID (GlobalVirtualGroupFamily.Id gvgFamily) (StorageProvider.Id sp)
                       secondarySpIds 0
                       (DeriveVirtualPaymentAccount GVGVirtualPaymentAccountName gvgID)
                       (Coin.Amount (MsgCreateGlobalVirtualGroup.Deposit req)) in
          let gvgFamily := GlobalVirtualGroupFamily.AppendGVG gvgFamily
                             (GlobalVirtualGroup.Id gvg) in
          SetGVG gvg ;;
          SetGVGFamily gvgFamily ;;
          BatchSetGVGStatisticsWithinSP gvgStatisticsWithinSPs ;;
          EmitTypedEvents (EventCreateGlobalVirtualGroup
            (GlobalVirtualGroup.Id gvg) (GlobalVirtualGroup.FamilyId gvg)
            (GlobalVirtualGroup.PrimarySpId gvg) (GlobalVirtualGroup.SecondarySpIds gvg)
            (GlobalVirtualGroup.StoredSize gvg)
            (GlobalVirtualGroup.VirtualPaymentAddress gvg)
            (GlobalVirtualGroup.TotalDeposit gvg)) ;;
          (if MsgCreateGlobalVirtualGroup.FamilyId req =? NoSpecifiedFamilyId then
             EmitTypedEvents (EventCreateGlobalVirtualGroupFamily
               (GlobalVirtualGroupFamily.Id gvgFamily)
               (GlobalVirtualGroupFamily.PrimarySpId gvgFamily)
               (GlobalVirtualGroupFamily.VirtualPaymentAddress gvgFamily))
           else ret tt) ;;
          ret tt
  end.

(** The lookup both [Deposit] and [Withdraw] open with: by operator
    address first, by funding address when that finds nothing. *)
Definition lookupByOperatorOrFunding (addr : AccAddress) : M (option StorageProvider.t) :=
  byOperator <- GetStorageProviderByOperatorAddr addr ;;
  match byOperator with
  | Some sp => ret (Some sp)
  | None => GetStorageProviderByFundingAddr addr
  end.

Definition Deposit (req : MsgDeposit.t) : M unit :=
  found <- lookupByOperatorOrFunding (MsgDeposit.StorageProvider req) ;;
  match found with
  | None => fail ErrStorageProviderNotFound
  | Some sp =>
      foundGVG <- GetGVG (MsgDeposit.GlobalVirtualGroupId req) ;;
      match foundGVG with
      | None => fail ErrGVGNotExist
      | Some gvg =>
          depositDenom <- DepositDenomForGVG ;;
          if negb (String.eqb depositDenom (Coin.Denom (MsgDeposit.Deposit req)))
          then fail ErrInvalidDenom
          else
            coins <- NewCoins depositDenom (Coin.Amount (MsgDeposit.Deposit req)) ;;
            SendCoinsFromAccountToModule (StorageProvider.FundingAddress sp) ModuleName coins ;;
            total <- IntAdd (GlobalVirtualGroup.TotalDeposit gvg)
                            (Coin.Amount (MsgDeposit.Deposit req)) ;;
            let gvg := GlobalVirtualGroup.withTotalDeposit total gvg in
            SetGVG gvg ;;
            EmitTypedEvents (EventUpdateGlobalVirtualGroup
              (GlobalVirtualGroup.Id gvg) (GlobalVirtualGroup.PrimarySpId gvg)
              (GlobalVirtualGroup.StoredSize gvg) (GlobalVirtualGroup.TotalDeposit gvg)
              (GlobalVirtualGroup.SecondarySpIds gvg)) ;;
            ret tt
      end
  end.

Definition Withdraw (req : MsgWithdraw.t) : M unit :=
  found <- lookupByOperatorOrFunding (MsgWithdraw.StorageProvider req) ;;
  match found with
  | None => fail ErrStorageProviderNotFound
  | Some sp =>
      foundGVG <- GetGVG (MsgWithdraw.GlobalVirtualGroupId req) ;;
      match foundGVG with
      | None => fail ErrGVGNotExist
      | Some gvg =>
          if negb (GlobalVirtualGroup.PrimarySpId gvg =? StorageProvider.Id sp)
          then fail ErrWithdrawFailed
          else
            depositDenom <- DepositDenomForGVG ;;
            if negb (String.eqb (Coin.Denom (MsgWithdraw.Withdraw req)) depositDenom)
            then fail ErrInvalidDenom
            else
              availableTokens <- GetAvailableStakingTokens gvg ;;
              if availableTokens <? 0
              then panic "the available tokens is negative when withdraw"
              else
                withdrawTokens <-
                  (if Coin.Amount (MsgWithdraw.Withdraw req) =? 0 then ret availableTokens
                   else if availableTokens <? Coin.Amount (MsgWithdraw.Withdraw req)
                        then fail ErrWithdrawAmountTooLarge
                        else ret (Coin.Amount (MsgWithdraw.Withdraw req))) ;;
                coins <- NewCoins depositDenom withdrawTokens ;;
                SendCoinsFromModuleToAccount ModuleName
                  (StorageProvider.FundingAddress sp) coins ;;
                EmitTypedEvents (EventUpdateGlobalVirtualGroup
                  (MsgWithdraw.GlobalVirtualGroupId req) 0
                  (GlobalVirtualGroup.StoredSize gvg)
                  (GlobalVirtualGroup.TotalDeposit gvg) []) ;;
                ret tt
      end
  end.

(** [if err != nil { return nil, types.ErrSettleFailed }]: whatever error the
    call returned, the handler reports [e]. *)
Definition reportAs {A} (e : Error) (c : M A) : M A :=
  fun s =>
    match c s with
    | (Err _, s1) => (Err e, s1)
    | r => r
    end.

(** Lines 429-434 of [Settle]: the scan of a group's secondaries for the
    caller's provider id. *)
Fixpoint permitted (secondarySpIds : list Z) (spID : Z) : bool :=
  match secondarySpIds with
  | [] => false
  | id :: rest => if id =? spID then true else permitted rest spID
  end.

(** Lines 421-444 of [Settle], run over the keys in the order [order].
    [sp] is the provider pointer of the handler, which is nil after the
    Pampas upgrade. *)
Fixpoint settleGVGs (pampasUpgraded : bool) (sp : option StorageProvider.t)
    (order : list Z) : M unit :=
  match order with
  | [] => ret tt
  | gvgID :: rest =>
      found <- GetGVG gvgID ;;
      match found with
      | None => fail ErrGVGNotExist
      | Some gvg =>
          (if negb pampasUpgraded then
             match sp with
             | None => panic "nil pointer dereference"
             | Some sp =>
                 if permitted (GlobalVirtualGroup.SecondarySpIds gvg) (StorageProvider.Id sp)
                 then ret tt
                 else fail ErrSettleFailed
             end
           else ret tt) ;;
          reportAs ErrSettleFailed (SettleAndDistributeGVG gvg) ;;
          settleGVGs pampasUpgraded sp rest
      end
  end.

(** [Settle], given the order in which the runtime ranges over the id map
    of the group-set branch. *)
Definition Settle (order : list Z) (req : MsgSettle.t) : M unit :=
  pampasUpgraded <- IsUpgraded Pampas ;;
  sp <- (if negb pampasUpgraded then
           found <- lookupByOperatorOrFunding (MsgSettle.StorageProvider req) ;;
           match found with
           | None => fail ErrStorageProviderNotFound
           | Some sp => ret (Some sp)
           end
         else ret None) ;;
  if negb (MsgSettle.GlobalVirtualGroupFamilyId req =? NoSpecifiedFamilyId) then
    foundFamily <- GetGVGFamily (MsgSettle.GlobalVirtualGroupFamilyId req) ;;
    match foundFamily with
    | None => fail ErrGVGFamilyNotExist
    | Some family =>
        sp <- (if pampasUpgraded then
                 foundSP <- GetStorageProvider
                              (GlobalVirtualGroupFamily.PrimarySpId family) ;;
                 match foundSP with
                 | None => fail ErrStorageProviderNotFound
                 | Some sp => ret (Some sp)
                 end
               else ret sp) ;;
        match sp with
        | None => panic "nil pointer dereference"
        | Some sp =>
            reportAs ErrSettleFailed (SettleAndDistributeGVGFamily sp family)
        end
    end
  else settleGVGs pampasUpgraded sp order.

(** The results [Settle] can have on a request: one per order in which the
    deduplicated ids can be visited. *)
Definition SettleResult (req : MsgSettle.t) (s : State) (r : Outcome unit * State) : Prop :=
  exists order,
    rangeOrder (buildIdSet (MsgSettle.GlobalVirtualGroupIds req)) order
    /\ Settle order req s = r.

Definition StorageProviderExit (msg : MsgStorageProviderExit.t) : M unit :=
  found <- GetStorageProviderByOperatorAddr (MsgStorageProviderExit.StorageProvider msg) ;;
  match found with
  | None => fail ErrStorageProviderNotFound
  | Some sp =>
      if negb (bool_decide (StorageProvider.Status sp = STATUS_IN_SERVICE))
      then fail ErrStorageProviderExitFailed
      else
        hulunbeier <- IsUpgraded Hulunbeier ;;
        (if hulunbeier then
           stat <- GetGVGStatisticsWithinSP (StorageProvider.Id sp) ;;
           match stat with
           | Some st =>
               if negb (GVGStatisticsWithinSP.BreakRedundancyReqmtGvgCount st =? 0)
               then fail ErrSPCanNotExit
               else ret tt
           | None => ret tt
           end ;;
           sps <- GetAllStorageProviders ;;
           maxSPExitingNum <- SpConcurrentExitNum ;;
           if exitCapReached sps 0 maxSPExitingNum
           then fail ErrStorageProviderExitFailed
           else ret tt
         else ret tt) ;;
        let sp := withStatus STATUS_GRACEFUL_EXITING sp in
        SetStorageProvider sp ;;
        EmitTypedEvents (EventStorageProviderExit
          (StorageProvider.Id sp) (StorageProvider.OperatorAddress sp)) ;;
        ret tt
  end.

(** [spKeeper.Exit] run on the registry of the context. *)
Definition Exit (sp : StorageProvider.t) : M unit :=
  fun s =>
    match spKeeperExit (sps s) sp with
    | inl e => (Err e, s)
    | inr m => (Ok tt, set_sps m s)
    end.

Definition CompleteStorageProviderExit (msg : MsgCompleteStorageProviderExit.t) : M unit :=
  found <- GetStorageProviderByOperatorAddr
             (MsgCompleteStorageProviderExit.StorageProvider msg) ;;
  match found with
  | None => fail ErrStorageProviderNotFound
  | Some sp =>
      if negb (bool_decide (StorageProvider.Status sp = STATUS_GRACEFUL_EXITING))
         && negb (bool_decide (StorageProvider.Status sp = STATUS_FORCED_EXITING))
      then fail ErrStorageProviderExitFailed
      else
        exitable <- gets (fun s => StorageProviderExitable s (StorageProvider.Id sp)) ;;
        match exitable with
        | Some err => fail err
        | None =>
            forcedExit <-
              (if bool_decide (StorageProvider.Status sp = STATUS_GRACEFUL_EXITING) then
                 denom <- DepositDenomForSP ;;
                 coins <- NewCoins denom (StorageProvider.TotalDeposit sp) ;;
                 SendCoinsFromModuleToAccount SpModuleName
                   (StorageProvider.FundingAddress sp) coins ;;
                 ret false
               else
                 denom <- DepositDenomForSP ;;
                 coins <- NewCoins denom (StorageProvider.TotalDeposit sp) ;;
                 SendCoinsFromModuleToAccount SpModuleName GovernanceAddress coins ;;
                 ret true) ;;
            Exit sp ;;
            hulunbeier <- IsUpgraded Hulunbeier ;;
            (if hulunbeier then
               EmitTypedEvents (EventCompleteStorageProviderExit
                 (StorageProvider.Id sp)
                 (MsgCompleteStorageProviderExit.Operator msg)
                 (StorageProvider.OperatorAddress sp)
                 (StorageProvider.TotalDeposit sp) forcedExit)
             else
               EmitTypedEvents (EventCompleteStorageProviderExit
                 (StorageProvider.Id sp) (StorageProvider.OperatorAddress sp) ""
                 (StorageProvider.TotalDeposit sp) false)) ;;
            ret tt
        end
  end.

Definition StorageProviderForcedExit (msg : MsgStorageProviderForcedExit.t) : M unit :=
  auth <- GetAuthority ;;
  if negb (String.eqb auth (MsgStorageProviderForcedExit.Authority msg))
  then fail ErrInvalidSigner
  else
    found <- GetStorageProviderByOperatorAddr
               (MsgStorageProviderForcedExit.StorageProvider msg) ;;
    match found with
    | None => fail ErrStorageProviderNotFound
    | Some sp =>
        maxSPExitingNum <- SpConcurrentExitNum ;;
        sps <- GetAllStorageProviders ;;
        if exitCapReached sps 0 maxSPExitingNum
        then fail ErrStorageProviderExitFailed
        else
          let sp := withStatus STATUS_FORCED_EXITING sp in
          SetStorageProvider sp ;;
          EmitTypedEvents (EventStorageProviderForcedExit (StorageProvider.Id sp)) ;;
          ret tt
    end.

End Handlers.

(** ** What a transfer does to the balances

    [transferred b b' from to denom amount]: going from [b] to [b'], the
    account [from] lost [amount] of [denom], the account [to] gained it,
    and no other balance changed. *)
Definition transferred (b b' : gmap (Account * string) Z)
    (from to : Account) (denom : string) (amount : Z) : Prop :=
  balanceOf b' from denom = balanceOf b from denom - amount
  /\ balanceOf b' to denom = balanceOf b to denom + amount
  /\ forall a d, (a, d) <> (from, denom) -> (a, d) <> (to, denom) ->
       balanceOf b' a d = balanceOf b a d.

(** [preserves f c]: running [c] leaves the component [f] of the state as
    it was, whatever the outcome. *)
Definition preserves {A B} (f : State -> B) (c : M A) : Prop :=
  forall s, f (c s).2 = f s.

(** The transfer of one amount of one denomination, as every handler
    performs it: the coins are built, then sent. *)
Definition sendAmount (from to : Account) (denom : string) (amount : Z) : M unit :=
  coins <- NewCoins denom amount ;;
  SendCoins from to coins.

(** The provider an address resolves to: by operator address first, by
    funding address when that finds nothing. *)
Definition resolveProvider (s : State) (addr : AccAddress) : option StorageProvider.t :=
  match findByOperatorAddr addr (sps s) with
  | Some sp => Some sp
  | None => findByFundingAddr addr (sps s)
  end.

(** The tokens of a group that are free to be withdrawn. *)
Definition availableTokens `{Collaborators} (s : State) (gvg : GlobalVirtualGroup.t) : Z :=
  GlobalVirtualGroup.TotalDeposit gvg - requiredStake s gvg.

(** What [Withdraw] does once it has settled on the number of tokens to
    pay out: the transfer from the module pool to the provider's funding
    account, then the event. *)
Definition payWithdrawal (req : MsgWithdraw.t) (sp : StorageProvider.t)
    (gvg : GlobalVirtualGroup.t) (depositDenom : string) (withdrawTokens : Z) : M unit :=
  sendAmount (ModuleAccount ModuleName) (UserAccount (StorageProvider.FundingAddress sp))
             depositDenom withdrawTokens ;;
  EmitTypedEvents (EventUpdateGlobalVirtualGroup
    (MsgWithdraw.GlobalVirtualGroupId req) 0 (GlobalVirtualGroup.StoredSize gvg)
    (GlobalVirtualGroup.TotalDeposit gvg) []) ;;
  ret tt.

(** What [Deposit] does once the caller resolved to a provider, the group
    was found and the denomination matched: the transfer from the
    provider's funding account to the module pool, the new total, the
    store of the group and the event. *)
Definition payDeposit (sp : StorageProvider.t) (gvg : GlobalVirtualGroup.t)
    (depositDenom : string) (amount : Z) : M unit :=
  sendAmount (UserAccount (StorageProvider.FundingAddress sp)) (ModuleAccount ModuleName)
             depositDenom amount ;;
  total <- IntAdd (GlobalVirtualGroup.TotalDeposit gvg) amount ;;
  let gvg := GlobalVirtualGroup.withTotalDeposit total gvg in
  SetGVG gvg ;;
  EmitTypedEvents (EventUpdateGlobalVirtualGroup
    (GlobalVirtualGroup.Id gvg) (GlobalVirtualGroup.PrimarySpId gvg)
    (GlobalVirtualGroup.StoredSize gvg) (GlobalVirtualGroup.TotalDeposit gvg)
    (GlobalVirtualGroup.SecondarySpIds gvg)) ;;
  ret tt.

(** A provider is a member of a group when it is its primary provider or
    one of its secondary providers. *)
Definition isMember (sp : StorageProvider.t) (gvg : GlobalVirtualGroup.t) : Prop :=
  GlobalVirtualGroup.PrimarySpId gvg = StorageProvider.Id sp
  \/ StorageProvider.Id sp ∈ GlobalVirtualGroup.SecondarySpIds gvg.

(** The account that receives an exiting provider's deposit: its own
    funding account after a graceful exit, the governance account after a
    forced one. *)
Definition depositRecipient (sp : StorageProvider.t) : AccAddress :=
  if bool_decide (StorageProvider.Status sp = STATUS_GRACEFUL_EXITING)
  then StorageProvider.FundingAddress sp
  else GovernanceAddress.

(** What [CompleteStorageProviderExit] does for an exiting provider that
    may leave: the transfer of its total deposit out of the provider
    module's pool, its removal from the registry, and the event. *)
Definition finishExit `{Collaborators} (msg : MsgCompleteStorageProviderExit.t)
    (sp : StorageProvider.t) : M unit :=
  denom <- DepositDenomForSP ;;
  sendAmount (ModuleAccount SpModuleName) (UserAccount (depositRecipient sp))
             denom (StorageProvider.TotalDeposit sp) ;;
  Exit sp ;;
  hulunbeier <- IsUpgraded Hulunbeier ;;
  (if hulunbeier then
     EmitTypedEvents (EventCompleteStorageProviderExit
       (StorageProvider.Id sp) (MsgCompleteStorageProviderExit.Operator msg)
       (StorageProvider.OperatorAddress sp) (StorageProvider.TotalDeposit sp)
       (negb (bool_decide (StorageProvider.Status sp = STATUS_GRACEFUL_EXITING))))
   else
     EmitTypedEvents (EventCompleteStorageProviderExit
       (StorageProvider.Id sp) (StorageProvider.OperatorAddress sp) ""
       (StorageProvider.TotalDeposit sp) false)) ;;
  ret tt.

(** Whether a family holds a group whose secondary providers are exactly
    [ids], in that order. *)
Definition hasGroupWithSecondaries (s : State) (familyID : Z) (ids : list Z) : bool :=
  match families s !! familyID with
  | None => false
  | Some family =>
      existsb
        (fun gvgID =>
           match gvgs s !! gvgID with
           | Some gvg => bool_decide (GlobalVirtualGroup.SecondarySpIds gvg = ids)
           | None => false
           end)
        (GlobalVirtualGroupFamily.GlobalVirtualGroupIds family)
  end.

(** The number of groups a family holds. *)
Definition groupCount (s : State) (familyID : Z) : Z :=
  match families s !! familyID with
  | None => 0
  | Some family =>
      Z.of_nat (length (GlobalVirtualGroupFamily.GlobalVirtualGroupIds family))
  end.

(** The number of providers of a list, and of the registry, that are in one
    of the two exiting statuses. *)
Definition countExiting (l : list StorageProvider.t) : Z :=
  Z.of_nat (length (filter (fun sp => isExiting sp = true) l)).

Definition exitingCount (s : State) : Z :=
  countExiting (map_to_list (sps s)).*2.

(** The redundancy-break counter the statistics ledger holds for a
    provider; a provider without statistics has none outstanding. *)
Definition redundancyBreakCount (s : State) (spID : Z) : Z :=
  match stats s !! spID with
  | Some st => GVGStatisticsWithinSP.BreakRedundancyReqmtGvgCount st
  | None => 0
  end.

(** The state a successful [StorageProviderForcedExit] or
    [StorageProviderExit] leaves: the provider stored with its new status,
    and one event appended. *)
Definition afterExitRequest (sp : StorageProvider.t) (st : Status) (e : Event)
    (s : State) : State :=
  set_events (events s ++ [e])
    (set_sps (<[StorageProvider.Id sp := withStatus st sp]> (sps s)) s).

(** ** A small chain

    A concrete instance of the collaborators and a concrete state, on which
    the handlers can be run. *)
Module Scenario.

Definition keepers : Collaborators := {|
  GetExpectSecondarySPNumForECObject := fun _ _ => 2;
  validateParams := fun _ => None;
  DeriveVirtualPaymentAccount := fun name _ => name;
  requiredStake := fun _ gvg => 4 * GlobalVirtualGroup.StoredSize gvg;
  SettleAndDistributeGVGFamily := fun _ _ => ret tt;
  SettleAndDistributeGVG := fun gvg =>
    if GlobalVirtualGroup.StoredSize gvg =? 0
    then fail (ErrCollaborator "nothing to distribute")
    else ret tt;
  StorageProviderExitable := fun _ _ => None;
  spKeeperExit := fun m sp => inr (delete (StorageProvider.Id sp) m)
|}.

Definition provider (id : Z) (operator funding : string) (st : Status)
    : StorageProvider.t :=
  StorageProvider.mk id operator funding "" st 1000.

Definition sp1 := provider 1 "operator1" "funding1" STATUS_IN_SERVICE.
Definition sp2 := provider 2 "operator2" "funding2" STATUS_IN_SERVICE.
Definition sp3 := provider 3 "operator3" "funding3" STATUS_IN_SERVICE.
Definition sp4 := provider 4 "operator4" "funding4" STATUS_IN_SERVICE.
Definition sp5 := provider 5 "operator5" "funding5" STATUS_IN_MAINTENANCE.

Definition registry : gmap Z StorageProvider.t :=
  list_to_map [(1, sp1); (2, sp2); (3, sp3); (4, sp4); (5, sp5)].

(** Group 1: primary 1, secondaries 2 and 3, ten bytes stored, a deposit
    of 100 of which 40 must stay staked. *)
Definition gvg1 : GlobalVirtualGroup.t :=
  GlobalVirtualGroup.mk 1 1 1 [2; 3] 10 "gvg" 100.

Definition family1 : GlobalVirtualGroupFamily.t :=
  GlobalVirtualGroupFamily.mk 1 1 [1] "gvg_family".

Definition parameters : Params.t := Params.mk "BNB" 1 100 1.

Definition funds : gmap (Account * string) Z :=
  list_to_map
    [ ((ModuleAccount ModuleName, "BNB"%string), 500);
      ((ModuleAccount SpModuleName, "BNB"%string), 5000);
      ((UserAccount "funding1", "BNB"%string), 300);
      ((UserAccount "funding4", "BNB"%string), 300) ].

(** All upgrades active. *)
Definition chain : State :=
  mkState (fun _ => true) 1700000000 "gov" parameters
          {[ 1 := gvg1 ]} {[ 1 := family1 ]} ∅ 1 1 registry "BNB" funds [].

(** No upgrade active. *)
Definition oldChain : State :=
  mkState (fun _ => false) 1600000000 "gov" parameters
          {[ 1 := gvg1 ]} {[ 1 := family1 ]} ∅ 1 1 registry "BNB" funds [].

(** The chain with provider 2 exiting gracefully and provider 3 forced
    out. *)
Definition exitingRegistry : gmap Z StorageProvider.t :=
  <[ 2 := withStatus STATUS_GRACEFUL_EXITING sp2 ]>
  (<[ 3 := withStatus STATUS_FORCED_EXITING sp3 ]> registry).

Definition exitingChain : State := set_sps exitingRegistry chain.

(** The old chain with room for ten groups per family. *)
Definition roomyOldChain : State :=
  set_params (Params.mk "BNB" 10 100 1) oldChain.

(** The old chain with a second group that stores nothing, so that its
    settlement fails. *)
Definition gvg2 : GlobalVirtualGroup.t :=
  GlobalVirtualGroup.mk 2 1 1 [2; 4] 0 "gvg" 100.

Definition settleChain : State :=
  set_gvgs {[ 1 := gvg1; 2 := gvg2 ]} oldChain.

(** The old chain with three groups of provider 1 under-replicated. *)
Definition brokenOldChain : State :=
  set_stats {[ 1 := GVGStatisticsWithinSP.mk 1 1 0 3 ]} oldChain.

End Scenario.

(** * The other handlers of the message server *)

(** ** Machine integers of [ReserveSwapIn] *)

(** Conversion to [int64] and to [uint64], two's complement on 64 bits. *)
Definition int64 (z : Z) : Z := (z + 2 ^ 63) mod 2 ^ 64 - 2 ^ 63.

Definition uint64 (z : Z) : Z := z mod 2 ^ 64.

(** ** Messages *)

Module MsgDeleteGlobalVirtualGroup.
Record t := mk { StorageProvider : AccAddress; GlobalVirtualGroupId : Z }.
End MsgDeleteGlobalVirtualGroup.

(** [SuccessorSpApprovalSig] is [msg.SuccessorSpApproval.Sig]. *)
Module MsgSwapOut.
Record t := mk {
  StorageProvider : AccAddress;
  GlobalVirtualGroupFamilyId : Z;
  GlobalVirtualGroupIds : list Z;
  SuccessorSpId : Z;
  SuccessorSpApprovalSig : list Byte.byte
}.
End MsgSwapOut.

Module MsgCancelSwapOut.
Record t := mk {
  StorageProvider : AccAddress;
  GlobalVirtualGroupFamilyId : Z;
  GlobalVirtualGroupIds : list Z
}.
End MsgCancelSwapOut.

Module MsgCompleteSwapOut.
Record t := mk {
  StorageProvider : AccAddress;
  GlobalVirtualGroupFamilyId : Z;
  GlobalVirtualGroupIds : list Z
}.
End MsgCompleteSwapOut.

Module MsgReserveSwapIn.
Record t := mk {
  StorageProvider : AccAddress;
  TargetSpId : Z;
  GlobalVirtualGroupFamilyId : Z;
  GlobalVirtualGroupId : Z
}.
End MsgReserveSwapIn.

Module MsgCancelSwapIn.
Record t := mk {
  StorageProvider : AccAddress;
  GlobalVirtualGroupFamilyId : Z;
  GlobalVirtualGroupId : Z
}.
End MsgCancelSwapIn.

Module MsgCompleteSwapIn.
Record t := mk {
  StorageProvider : AccAddress;
  GlobalVirtualGroupFamilyId : Z;
  GlobalVirtualGroupId : Z
}.
End MsgCompleteSwapIn.

(** ** What these handlers call

    The keeper methods behind the delete and swap handlers, the signature
    check, and the declarations of one error and three typed events are
    outside [msg_server.go]; they are taken as an instance of this class. *)
Class SwapKeepers := {
  (** [types.ErrSwapInFailed]. *)
  ErrSwapInFailed : Error;
  (** [types.EventDeleteGlobalVirtualGroup{Id, PrimarySpId}]. *)
  EventDeleteGlobalVirtualGroup : Z -> Z -> Event;
  (** [types.EventSwapOut{StorageProviderId, GlobalVirtualGroupFamilyId,
      GlobalVirtualGroupIds, SuccessorSpId}]. *)
  EventSwapOut : Z -> Z -> list Z -> Z -> Event;
  (** [types.EventReserveSwapIn{StorageProviderId, GlobalVirtualGroupFamilyId,
      GlobalVirtualGroupId, TargetSpId, ExpirationTime}]. *)
  EventReserveSwapIn : Z -> Z -> Z -> Z -> Z -> Event;
  (** [msg.GetApprovalBytes()], [sdk.Keccak256] and
      [gnfdtypes.VerifySignature(address, hash, signature)]. *)
  GetApprovalBytes : MsgSwapOut.t -> list Byte.byte;
  Keccak256 : list Byte.byte -> list Byte.byte;
  VerifySignature : AccAddress -> list Byte.byte -> list Byte.byte -> option Error;
  (** [k.DeleteGVG(ctx, sp, gvgID)]. *)
  DeleteGVG : StorageProvider.t -> Z -> M unit;
  (** [k.SetSwapOutInfo(ctx, familyID, gvgIDs, spID, successorSPID)]. *)
  SetSwapOutInfo : Z -> list Z -> Z -> Z -> M unit;
  (** [k.DeleteSwapOutInfo(ctx, familyID, gvgIDs, spID)]. *)
  DeleteSwapOutInfo : Z -> list Z -> Z -> M unit;
  (** [k.Keeper.CompleteSwapOut(ctx, familyID, gvgIDs, sp)]. *)
  KeeperCompleteSwapOut : Z -> list Z -> StorageProvider.t -> M unit;
  (** [k.Keeper.SwapIn(ctx, familyID, gvgID, successorSPID, targetSP,
      expirationTime)]. *)
  SwapIn : Z -> Z -> Z -> StorageProvider.t -> Z -> M unit;
  (** [k.DeleteSwapInInfo(ctx, familyID, gvgID, successorSPID)]. *)
  DeleteSwapInInfo : Z -> Z -> Z -> M unit;
  (** [k.Keeper.CompleteSwapIn(ctx, familyID, gvgID, successorSP)]. *)
  KeeperCompleteSwapIn : Z -> Z -> StorageProvider.t -> M unit
}.

(** Modelled from the spec: [SwapInValidityPeriod] of the keeper, the
    configured validity window of a swap-in reservation. *)
Definition SwapInValidityPeriod : M Z :=
  gets (fun s => Params.SwapInValidityPeriod (params s)).

Section SwapHandlers.

Context `{SwapKeepers}.

Definition DeleteGlobalVirtualGroup (req : MsgDeleteGlobalVirtualGroup.t) : M unit :=
  found <- GetStorageProviderByOperatorAddr
             (MsgDeleteGlobalVirtualGroup.StorageProvider req) ;;
  match found with
  | None => fail ErrStorageProviderNotFound
  | Some sp =>
      DeleteGVG sp (MsgDeleteGlobalVirtualGroup.GlobalVirtualGroupId req) ;;
      EmitTypedEvents (EventDeleteGlobalVirtualGroup
        (MsgDeleteGlobalVirtualGroup.GlobalVirtualGroupId req) (StorageProvider.Id sp)) ;;
      ret tt
  end.

Definition SwapOut (msg : MsgSwapOut.t) : M unit :=
  found <- GetStorageProviderByOperatorAddr (MsgSwapOut.StorageProvider msg) ;;
  match found with
  | None => fail ErrStorageProviderNotFound
  | Some sp =>
      foundSuccessor <- GetStorageProvider (MsgSwapOut.SuccessorSpId msg) ;;
      match foundSuccessor with
      | None => fail ErrStorageProviderNotFound
      | Some successorSP =>
          if negb (StorageProvider.IsInService successorSP)
          then fail ErrStorageProviderNotInService
          else
            match VerifySignature (StorageProvider.ApprovalAddress successorSP)
                    (Keccak256 (GetApprovalBytes msg))
                    (MsgSwapOut.SuccessorSpApprovalSig msg) with
            | Some err => fail err
            | None =>
                SetSwapOutInfo (MsgSwapOut.GlobalVirtualGroupFamilyId msg)
                  (MsgSwapOut.GlobalVirtualGroupIds msg)
                  (StorageProvider.Id sp) (StorageProvider.Id successorSP) ;;
                EmitTypedEvents (EventSwapOut
                  (StorageProvider.Id sp) (MsgSwapOut.GlobalVirtualGroupFamilyId msg)
                  (MsgSwapOut.GlobalVirtualGroupIds msg)
                  (StorageProvider.Id successorSP)) ;;
                ret tt
            end
      end
  end.

Definition CancelSwapOut (msg : MsgCancelSwapOut.t) : M unit :=
  found <- GetStorageProviderByOperatorAddr (MsgCancelSwapOut.StorageProvider msg) ;;
  match found with
  | None => fail ErrStorageProviderNotFound
  | Some sp =>
      DeleteSwapOutInfo (MsgCancelSwapOut.GlobalVirtualGroupFamilyId msg)
        (MsgCancelSwapOut.GlobalVirtualGroupIds msg) (StorageProvider.Id sp) ;;
      ret tt
  end.

Definition CompleteSwapOut (msg : MsgCompleteSwapOut.t) : M unit :=
  found <- GetStorageProviderByOperatorAddr (MsgCompleteSwapOut.StorageProvider msg) ;;
  match found with
  | None => fail ErrStorageProviderNotFound
  | Some sp =>
      KeeperCompleteSwapOut (MsgCompleteSwapOut.GlobalVirtualGroupFamilyId msg)
        (MsgCompleteSwapOut.GlobalVirtualGroupIds msg) sp ;;
      ret tt
  end.

Definition ReserveSwapIn (msg : MsgReserveSwapIn.t) : M unit :=
  found <- GetStorageProviderByOperatorAddr (MsgReserveSwapIn.StorageProvider msg) ;;
  match found with
  | None => fail ErrStorageProviderNotFound
  | Some successorSP =>
      if StorageProvider.Id successorSP =? MsgReserveSwapIn.TargetSpId msg
      then fail ErrSwapInFailed
      else
        foundTarget <- GetStorageProvider (MsgReserveSwapIn.TargetSpId msg) ;;
        match foundTarget with
        | None => fail ErrStorageProviderNotFound
        | Some targetSP =>
            now <- gets blockTime ;;
            period <- SwapInValidityPeriod ;;
            let expirationTime := int64 (now + int64 period) in
            SwapIn (MsgReserveSwapIn.GlobalVirtualGroupFamilyId msg)
              (MsgReserveSwapIn.GlobalVirtualGroupId msg)
              (StorageProvider.Id successorSP) targetSP expirationTime ;;
            EmitTypedEvents (EventReserveSwapIn
              (StorageProvider.Id successorSP)
              (MsgReserveSwapIn.GlobalVirtualGroupFamilyId msg)
              (MsgReserveSwapIn.GlobalVirtualGroupId msg)
              (MsgReserveSwapIn.TargetSpId msg) (uint64 expirationTime)) ;;
            ret tt
        end
  end.

Definition CancelSwapIn (msg : MsgCancelSwapIn.t) : M unit :=
  found <- GetStorageProviderByOperatorAddr (MsgCancelSwapIn.StorageProvider msg) ;;
  match found with
  | None => fail ErrStorageProviderNotFound
  | Some successorSP =>
      DeleteSwapInInfo (MsgCancelSwapIn.GlobalVirtualGroupFamilyId msg)
        (MsgCancelSwapIn.GlobalVirtualGroupId msg) (StorageProvider.Id successorSP) ;;
      ret tt
  end.

Definition CompleteSwapIn (msg : MsgCompleteSwapIn.t) : M unit :=
  found <- GetStorageProviderByOperatorAddr (MsgCompleteSwapIn.StorageProvider msg) ;;
  match found with
  | None => fail ErrStorageProviderNotFound
  | Some successorSP =>
      KeeperCompleteSwapIn (MsgCompleteSwapIn.GlobalVirtualGroupFamilyId msg)
        (MsgCompleteSwapIn.GlobalVirtualGroupId msg) successorSP ;;
      ret tt
  end.

End SwapHandlers.

(** ** Vocabulary of the further properties *)

(** [fails_only P c]: every error [c] returns satisfies [P]. *)
Definition fails_only {A} (P : Error -> Prop) (c : M A) : Prop :=
  forall s e s', c s = (Err e, s') -> P e.

(** [keeps_on_error f c]: when [c] returns an error, the component [f] of
    the state is as it was before the call. *)
Definition keeps_on_error {A B} (f : State -> B) (c : M A) : Prop :=
  forall s e s', c s = (Err e, s') -> f s' = f s.

(** The registry and the statistics ledger store each record under the id
    the record carries. *)
Definition registryKeyed (s : State) : Prop :=
  forall k sp, sps s !! k = Some sp -> StorageProvider.Id sp = k.

Definition ledgerKeyed (s : State) : Prop :=
  forall k st, stats s !! k = Some st -> GVGStatisticsWithinSP.StorageProviderId st = k.

(** The counters of a provider as [GetOrCreateGVGStatisticsWithinSP] returns
    them. *)
Definition statOrNew (s : State) (spID : Z) : GVGStatisticsWithinSP.t :=
  match stats s !! spID with
  | Some st => st
  | None => GVGStatisticsWithinSP.mk spID 0 0 0
  end.

(** A provider that may take part in a new group. *)
Definition mayServe (sp : StorageProvider.t) : Prop :=
  StorageProvider.Status sp = STATUS_IN_SERVICE
  \/ StorageProvider.Status sp = STATUS_IN_MAINTENANCE.

(** What a provider adds to the number of exiting providers. *)
Definition exitingWeight (sp : StorageProvider.t) : Z :=
  if isExiting sp then 1 else 0.

(** ** Instances for the worked cases *)

Module Cases.

(** Swap keepers that accept every request and record nothing, with a
    signature check that accepts any non-empty signature; the three event
    types and the error are given stand-ins among the declared ones. *)
Definition swapKeepers : SwapKeepers := {|
  ErrSwapInFailed := ErrCollaborator "swap in failed";
  EventDeleteGlobalVirtualGroup := fun id primarySpId =>
    EventUpdateGlobalVirtualGroup id primarySpId 0 0 [];
  EventSwapOut := fun spId familyId gvgIds successorSpId =>
    EventUpdateGlobalVirtualGroup familyId spId successorSpId 0 gvgIds;
  EventReserveSwapIn := fun spId familyId gvgId targetSpId expirationTime =>
    EventUpdateGlobalVirtualGroup gvgId spId targetSpId expirationTime [familyId];
  GetApprovalBytes := fun _ => [];
  Keccak256 := fun bytes => bytes;
  VerifySignature := fun _ _ sig =>
    match sig with
    | [] => Some (ErrCollaborator "invalid signature")
    | _ => None
    end;
  DeleteGVG := fun _ gvgID => modify (fun s => set_gvgs (delete gvgID (gvgs s)) s);
  SetSwapOutInfo := fun _ _ _ _ => ret tt;
  DeleteSwapOutInfo := fun _ _ _ => ret tt;
  KeeperCompleteSwapOut := fun _ _ _ => ret tt;
  SwapIn := fun _ _ _ _ _ => ret tt;
  DeleteSwapInInfo := fun _ _ _ => ret tt;
  KeeperCompleteSwapIn := fun _ _ _ => ret tt
|}.

(** Provider 1 opens a group with the secondaries 2 and 3 in a new family,
    with a deposit of 100. *)
Definition newGroup : MsgCreateGlobalVirtualGroup.t :=
  MsgCreateGlobalVirtualGroup.mk "operator1" 0 [2; 3] (Coin.mk "BNB" 100).

(** The same request with a deposit the funding account cannot cover. *)
Definition costlyGroup : MsgCreateGlobalVirtualGroup.t :=
  MsgCreateGlobalVirtualGroup.mk "operator1" 0 [2; 3] (Coin.mk "BNB" 1000).

(** Provider 1 reserves a swap-in for provider 2 in group 1 of family 1. *)
Definition reservation : MsgReserveSwapIn.t :=
  MsgReserveSwapIn.mk "operator1" 2 1 1.

End Cases.

(** * Properties *)

(** ** The monad *)

Lemma bind_Ok {A B} (c : M A) (k : A -> M B) s a s1 :
  c s = (Ok a, s1) -> bind c k s = k a s1.
Proof. intros Hc. unfold bind. rewrite Hc. reflexivity. Qed.

Lemma bind_Err {A B} (c : M A) (k : A -> M B) s e s1 :
  c s = (Err e, s1) -> bind c k s = (Err e, s1).
Proof. intros Hc. unfold bind. rewrite Hc. reflexivity. Qed.

Lemma bind_Panic {A B} (c : M A) (k : A -> M B) s msg s1 :
  c s = (Panic msg, s1) -> bind c k s = (Panic msg, s1).
Proof. intros Hc. unfold bind. rewrite Hc. reflexivity. Qed.

Lemma bind_inv_Ok {A B} (c : M A) (k : A -> M B) s b s' :
  bind c k s = (Ok b, s') ->
  exists a s1, c s = (Ok a, s1) /\ k a s1 = (Ok b, s').
Proof.
  unfold bind. destruct (c s) as [[a|e|msg] s1]; intros Hk; try discriminate.
  exists a, s1. split; [reflexivity | exact Hk].
Qed.

Lemma bind_inv_Err {A B} (c : M A) (k : A -> M B) s e s' :
  bind c k s = (Err e, s') ->
  c s = (Err e, s')
  \/ exists a s1, c s = (Ok a, s1) /\ k a s1 = (Err e, s').
Proof.
  unfold bind. destruct (c s) as [[a|e0|msg] s1]; intros Hk; try discriminate.
  - right. exists a, s1. split; [reflexivity | exact Hk].
  - left. inversion Hk. reflexivity.
Qed.

Lemma eqb_string_false (a b : string) : a <> b -> String.eqb a b = false.
Proof. intros Hne. apply String.eqb_neq. exact Hne. Qed.

(** ** UpdateParams *)

Section UpdateParamsProperties.

Context `{Collaborators}.

Lemma UpdateParams_wrong_authority (req : MsgUpdateParams.t) (s : State) :
  authority s <> MsgUpdateParams.Authority req ->
  UpdateParams req s = (Err ErrInvalidSigner, s).
Proof.
  intros Hauth. unfold UpdateParams, bind, GetAuthority, gets, fail. simpl.
  rewrite (eqb_string_false _ _ Hauth). reflexivity.
Qed.

Lemma UpdateParams_denom_differs (req : MsgUpdateParams.t) (s : State) :
  authority s = MsgUpdateParams.Authority req ->
  Params.DepositDenom (MsgUpdateParams.Params req) <> Params.DepositDenom (params s) ->
  UpdateParams req s = (Err ErrInvalidParameter, s).
Proof.
  intros Hauth Hdenom.
  unfold UpdateParams, bind, GetAuthority, GetParams, gets, fail. simpl.
  rewrite Hauth, String.eqb_refl. simpl.
  rewrite (eqb_string_false _ _ Hdenom). reflexivity.
Qed.

(** The parameters after a run are the stored ones or the requested ones,
    and the latter only for the right authority and the same denomination. *)
Lemma UpdateParams_params (req : MsgUpdateParams.t) (s : State) :
  params (UpdateParams req s).2 = params s
  \/ (authority s = MsgUpdateParams.Authority req
      /\ Params.DepositDenom (MsgUpdateParams.Params req) = Params.DepositDenom (params s)
      /\ params (UpdateParams req s).2 = MsgUpdateParams.Params req).
Proof.
  destruct (decide (authority s = MsgUpdateParams.Authority req)) as [Hauth|Hauth];
    [| left; rewrite UpdateParams_wrong_authority; done].
  destruct (decide (Params.DepositDenom (MsgUpdateParams.Params req)
                    = Params.DepositDenom (params s))) as [Hdenom|Hdenom];
    [| left; rewrite UpdateParams_denom_differs; done].
  unfold UpdateParams, bind, GetAuthority, GetParams, SetParams, IsUpgraded,
    EmitTypedEvents, gets, modify, fail, ret. simpl.
  rewrite Hauth, String.eqb_refl. simpl.
  rewrite Hdenom, String.eqb_refl. simpl.
  destruct (validateParams (MsgUpdateParams.Params req)); simpl; [left; done|].
  right. repeat split; try done.
  destruct (upgraded s Nagqu); reflexivity.
Qed.

End UpdateParamsProperties.

(** C10 (as amended): UpdateParams never changes the DepositDenom parameter.
    A request whose DepositDenom differs from the stored value fails and
    leaves the whole state, so all stored parameters, unchanged; the error
    is the invalid-parameter error when the request comes from the
    configured authority, and the invalid-signer error otherwise, because
    the authority is checked first.  The stored parameters change only for
    a request with the configured authority and the stored DepositDenom. *)
Theorem UpdateParams_never_changes_DepositDenom
    `{Collaborators} (req : MsgUpdateParams.t) (s : State) :
  Params.DepositDenom (params (UpdateParams req s).2) = Params.DepositDenom (params s)
  /\ (Params.DepositDenom (MsgUpdateParams.Params req) <> Params.DepositDenom (params s) ->
      UpdateParams req s =
        (Err (if bool_decide (authority s = MsgUpdateParams.Authority req)
              then ErrInvalidParameter else ErrInvalidSigner), s))
  /\ (params (UpdateParams req s).2 <> params s ->
      authority s = MsgUpdateParams.Authority req
      /\ Params.DepositDenom (MsgUpdateParams.Params req) = Params.DepositDenom (params s)).
Proof.
  split; [| split].
  - destruct (UpdateParams_params req s) as [Heq | (_ & Hdenom & Heq)];
      rewrite Heq; [reflexivity | exact Hdenom].
  - intros Hdenom. case_bool_decide as Hauth.
    + apply UpdateParams_denom_differs; assumption.
    + apply UpdateParams_wrong_authority; assumption.
  - intros Hchanged.
    destruct (UpdateParams_params req s) as [Heq | (Hauth & Hdenom & _)];
      [contradiction | split; assumption].
Qed.

(** The amended C10 on the small chain: a request of the authority for
    another denomination is refused with the invalid-parameter error. *)
Lemma UpdateParams_never_changes_DepositDenom_witness :
  @UpdateParams Scenario.keepers
     (MsgUpdateParams.mk "gov" (Params.mk "ETH" 7 7 7)) Scenario.chain
  = (Err ErrInvalidParameter, Scenario.chain).
Proof.
  destruct (@UpdateParams_never_changes_DepositDenom Scenario.keepers
              (MsgUpdateParams.mk "gov" (Params.mk "ETH" 7 7 7)) Scenario.chain)
    as (_ & Hdiffers & _).
  apply Hdiffers. vm_compute. discriminate.
Defined.

(** C10 as stated fails: a request with another DepositDenom that does not
    come from the configured authority fails with the invalid-signer error,
    not with the invalid-parameter error. *)
Lemma UpdateParams_invalid_parameter_counterexample :
  Params.DepositDenom (MsgUpdateParams.Params
     (MsgUpdateParams.mk "mallory" (Params.mk "ETH" 7 7 7)))
    <> Params.DepositDenom (params Scenario.chain)
  /\ (@UpdateParams Scenario.keepers
        (MsgUpdateParams.mk "mallory" (Params.mk "ETH" 7 7 7)) Scenario.chain).1
     = Err ErrInvalidSigner
  /\ @Err unit ErrInvalidSigner <> Err ErrInvalidParameter.
Proof.
  split; [| split].
  - vm_compute. discriminate.
  - vm_compute. reflexivity.
  - discriminate.
Qed.

(** ** The exit concurrency cap *)

Lemma uint32_small (z : Z) : 0 <= z < 2 ^ 32 -> uint32 z = z.
Proof. intros Hz. unfold uint32. apply Z.mod_small. exact Hz. Qed.

Lemma countExiting_nil : countExiting [] = 0.
Proof. reflexivity. Qed.

Lemma countExiting_cons (sp : StorageProvider.t) (l : list StorageProvider.t) :
  countExiting (sp :: l)
  = (if isExiting sp then 1 else 0) + countExiting l.
Proof.
  unfold countExiting. rewrite filter_cons.
  destruct (isExiting sp) eqn:Hsp.
  - rewrite decide_True by reflexivity. simpl length. lia.
  - rewrite decide_False by discriminate. lia.
Qed.

Lemma countExiting_nonneg (l : list StorageProvider.t) : 0 <= countExiting l.
Proof. unfold countExiting. lia. Qed.

(** The counter never wraps: the loop returns as soon as it reaches the cap,
    which is itself a [uint32]. *)
Lemma exitCapReached_spec (l : list StorageProvider.t) (n cap : Z) :
  0 <= cap < 2 ^ 32 ->
  0 <= n -> n < cap \/ n = 0 ->
  exitCapReached l n cap = true <-> 1 <= countExiting l /\ cap <= n + countExiting l.
Proof.
  intros Hcap. revert n.
  induction l as [|sp l IH]; intros n Hn Hinv.
  - simpl. rewrite countExiting_nil. split; [discriminate | lia].
  - simpl. rewrite countExiting_cons.
    pose proof (countExiting_nonneg l) as Hl.
    destruct (isExiting sp).
    + rewrite uint32_small by lia.
      destruct (cap <=? n + 1) eqn:Hreach.
      * apply Z.leb_le in Hreach. split; [lia | reflexivity].
      * apply Z.leb_gt in Hreach. rewrite IH by lia. lia.
    + rewrite IH by assumption. lia.
Qed.

Lemma exitCapReached_iff (l : list StorageProvider.t) (cap : Z) :
  0 <= cap < 2 ^ 32 ->
  exitCapReached l 0 cap = true <-> 1 <= countExiting l /\ cap <= countExiting l.
Proof.
  intros Hcap. rewrite exitCapReached_spec by lia. lia.
Qed.

Lemma exitCapReached_below (l : list StorageProvider.t) (cap : Z) :
  0 <= cap < 2 ^ 32 -> countExiting l < cap -> exitCapReached l 0 cap = false.
Proof.
  intros Hcap Hlt. apply not_true_is_false. rewrite exitCapReached_iff by assumption. lia.
Qed.

Lemma exitCapReached_met (l : list StorageProvider.t) (cap : Z) :
  0 < cap < 2 ^ 32 -> cap <= countExiting l -> exitCapReached l 0 cap = true.
Proof.
  intros Hcap Hge. apply exitCapReached_iff; lia.
Qed.


(** ** StorageProviderForcedExit *)

Section ForcedExitProperties.

Lemma StorageProviderForcedExit_wrong_authority
    (msg : MsgStorageProviderForcedExit.t) (s : State) :
  authority s <> MsgStorageProviderForcedExit.Authority msg ->
  StorageProviderForcedExit msg s = (Err ErrInvalidSigner, s).
Proof.
  intros Hauth. unfold StorageProviderForcedExit, bind, GetAuthority, gets, fail. simpl.
  rewrite (eqb_string_false _ _ Hauth). reflexivity.
Qed.

(** With the right authority and an existing provider, the outcome is
    decided by the cap loop alone. *)
Lemma StorageProviderForcedExit_run
    (msg : MsgStorageProviderForcedExit.t) (s : State) (sp : StorageProvider.t) :
  authority s = MsgStorageProviderForcedExit.Authority msg ->
  findByOperatorAddr (MsgStorageProviderForcedExit.StorageProvider msg) (sps s) = Some sp ->
  StorageProviderForcedExit msg s =
    if exitCapReached (map_to_list (sps s)).*2 0 (Params.SpConcurrentExitNum (params s))
    then (Err ErrStorageProviderExitFailed, s)
    else (Ok tt, afterExitRequest sp STATUS_FORCED_EXITING
                   (EventStorageProviderForcedExit (StorageProvider.Id sp)) s).
Proof.
  intros Hauth Hfound.
  unfold StorageProviderForcedExit, bind, GetAuthority, GetStorageProviderByOperatorAddr,
    SpConcurrentExitNum, GetAllStorageProviders, SetStorageProvider, EmitTypedEvents,
    gets, modify, fail, ret. simpl.
  rewrite Hauth, String.eqb_refl. simpl. rewrite Hfound.
  destruct (exitCapReached _ 0 _); reflexivity.
Qed.

End ForcedExitProperties.

(** C7: StorageProviderForcedExit is authorized only by the configured
    authority.  For a provider that exists, whatever its status and whatever
    the statistics ledger holds, it succeeds when fewer providers are
    exiting than the cap allows, and then stores the provider with status
    FORCED_EXITING and emits one forced-exit event; it fails, with the
    exit-failed error and an unchanged state, only when the number of
    exiting providers has reached the cap. *)
Theorem StorageProviderForcedExit_governance_only
    (msg : MsgStorageProviderForcedExit.t) (s : State)
    (sp : StorageProvider.t) :
  0 <= Params.SpConcurrentExitNum (params s) < 2 ^ 32 ->
  findByOperatorAddr (MsgStorageProviderForcedExit.StorageProvider msg) (sps s) = Some sp ->
  (authority s <> MsgStorageProviderForcedExit.Authority msg ->
     StorageProviderForcedExit msg s = (Err ErrInvalidSigner, s))
  /\ (authority s = MsgStorageProviderForcedExit.Authority msg ->
      (exitingCount s < Params.SpConcurrentExitNum (params s) ->
         StorageProviderForcedExit msg s =
           (Ok tt, afterExitRequest sp STATUS_FORCED_EXITING
                     (EventStorageProviderForcedExit (StorageProvider.Id sp)) s)
         /\ StorageProvider.Status <$>
              sps (StorageProviderForcedExit msg s).2 !! StorageProvider.Id sp
            = Some STATUS_FORCED_EXITING)
      /\ (0 < Params.SpConcurrentExitNum (params s) <= exitingCount s ->
            StorageProviderForcedExit msg s = (Err ErrStorageProviderExitFailed, s))
      /\ (forall e s', StorageProviderForcedExit msg s = (Err e, s') ->
            e = ErrStorageProviderExitFailed /\ s' = s
            /\ Params.SpConcurrentExitNum (params s) <= exitingCount s)
      /\ (forall msg', StorageProviderForcedExit msg s <> (Panic msg', s))
      /\ (forall ledger,
            (StorageProviderForcedExit msg (set_stats ledger s)).1
            = (StorageProviderForcedExit msg s).1)).
Proof.
  intros Hcap Hfound. split.
  - apply StorageProviderForcedExit_wrong_authority.
  - intros Hauth.
    pose proof (StorageProviderForcedExit_run msg s sp Hauth Hfound) as Hrun.
    pose proof (exitCapReached_iff (map_to_list (sps s)).*2 _ Hcap) as Hiff.
    fold (exitingCount s) in Hiff.
    split; [| split; [| split; [| split]]].
    + intros Hbelow. rewrite Hrun, exitCapReached_below by assumption.
      split; [reflexivity |]. simpl. rewrite lookup_insert_eq. reflexivity.
    + intros Hmet. rewrite Hrun, exitCapReached_met by (fold (exitingCount s); lia).
      reflexivity.
    + intros e s' Hfail. rewrite Hrun in Hfail.
      destruct (exitCapReached _ 0 _); [| discriminate].
      pose proof (proj1 Hiff eq_refl) as Hloop.
      inversion Hfail; subst. split; [reflexivity | split; [reflexivity | lia]].
    + intros msg'. rewrite Hrun. destruct (exitCapReached _ 0 _); discriminate.
    + intros ledger.
      rewrite Hrun, (StorageProviderForcedExit_run msg (set_stats ledger s) sp Hauth Hfound).
      simpl. destruct (exitCapReached _ 0 _); reflexivity.
Qed.

(** C7 on the small chain: the authority forces provider 5, which is in
    maintenance, into FORCED_EXITING while no provider is exiting. *)
Lemma StorageProviderForcedExit_governance_only_witness :
  StorageProviderForcedExit
     (MsgStorageProviderForcedExit.mk "gov" "operator5") Scenario.chain
  = (Ok tt, afterExitRequest Scenario.sp5 STATUS_FORCED_EXITING
              (EventStorageProviderForcedExit 5) Scenario.chain).
Proof.
  assert (Hcap : 0 <= Params.SpConcurrentExitNum (params Scenario.chain) < 2 ^ 32)
    by (vm_compute; split; [discriminate | reflexivity]).
  assert (Hfound : findByOperatorAddr "operator5" (sps Scenario.chain) = Some Scenario.sp5)
    by (vm_compute; reflexivity).
  destruct (StorageProviderForcedExit_governance_only
              (MsgStorageProviderForcedExit.mk "gov" "operator5") Scenario.chain
              Scenario.sp5 Hcap Hfound) as (_ & Hgov).
  destruct (Hgov eq_refl) as (Hbelow & _).
  apply Hbelow. vm_compute. reflexivity.
Defined.

(** ** StorageProviderExit *)

Section ExitProperties.

Lemma StorageProviderExit_not_in_service
    (msg : MsgStorageProviderExit.t) (s : State) (sp : StorageProvider.t) :
  findByOperatorAddr (MsgStorageProviderExit.StorageProvider msg) (sps s) = Some sp ->
  StorageProvider.Status sp <> STATUS_IN_SERVICE ->
  StorageProviderExit msg s = (Err ErrStorageProviderExitFailed, s).
Proof.
  intros Hfound Hstatus.
  unfold StorageProviderExit, bind, GetStorageProviderByOperatorAddr, gets, fail. simpl.
  rewrite Hfound. rewrite bool_decide_eq_false_2 by assumption. reflexivity.
Qed.

(** The run of the handler for a provider that is in service. *)
Lemma StorageProviderExit_run
    (msg : MsgStorageProviderExit.t) (s : State) (sp : StorageProvider.t) :
  findByOperatorAddr (MsgStorageProviderExit.StorageProvider msg) (sps s) = Some sp ->
  StorageProvider.Status sp = STATUS_IN_SERVICE ->
  StorageProviderExit msg s =
    if upgraded s Hulunbeier then
      if negb (redundancyBreakCount s (StorageProvider.Id sp) =? 0)
      then (Err ErrSPCanNotExit, s)
      else if exitCapReached (map_to_list (sps s)).*2 0
                (Params.SpConcurrentExitNum (params s))
           then (Err ErrStorageProviderExitFailed, s)
           else (Ok tt, afterExitRequest sp STATUS_GRACEFUL_EXITING
                          (EventStorageProviderExit (StorageProvider.Id sp)
                             (StorageProvider.OperatorAddress sp)) s)
    else (Ok tt, afterExitRequest sp STATUS_GRACEFUL_EXITING
                   (EventStorageProviderExit (StorageProvider.Id sp)
                      (StorageProvider.OperatorAddress sp)) s).
Proof.
  intros Hfound Hstatus.
  unfold StorageProviderExit, bind, GetStorageProviderByOperatorAddr, IsUpgraded,
    GetGVGStatisticsWithinSP, GetAllStorageProviders, SpConcurrentExitNum,
    SetStorageProvider, EmitTypedEvents, redundancyBreakCount, gets, modify, fail, ret.
  simpl. rewrite Hfound. rewrite bool_decide_eq_true_2 by assumption. simpl.
  destruct (upgraded s Hulunbeier); [| reflexivity].
  destruct (stats s !! StorageProvider.Id sp) as [st|]; simpl.
  - destruct (GVGStatisticsWithinSP.BreakRedundancyReqmtGvgCount st =? 0); simpl;
      [| reflexivity].
    destruct (exitCapReached _ 0 _); reflexivity.
  - destruct (exitCapReached _ 0 _); reflexivity.
Qed.

End ExitProperties.

(** C6 (as amended): a voluntary exit request of an existing provider fails
    whenever the provider is not IN_SERVICE.  Once the Hulunbeier upgrade is
    active it fails whenever the provider's redundancy-break counter is
    nonzero, and whenever the number of providers in either exiting status
    has reached the positive concurrency cap; before that upgrade neither
    is checked.  When the provider is IN_SERVICE and, under the upgrade, its
    counter is zero and fewer providers are exiting than the cap, its status
    becomes GRACEFUL_EXITING and exactly one exit event is emitted. *)
Theorem StorageProviderExit_preconditions
    (msg : MsgStorageProviderExit.t) (s : State)
    (sp : StorageProvider.t) :
  0 <= Params.SpConcurrentExitNum (params s) < 2 ^ 32 ->
  findByOperatorAddr (MsgStorageProviderExit.StorageProvider msg) (sps s) = Some sp ->
  (StorageProvider.Status sp <> STATUS_IN_SERVICE ->
     StorageProviderExit msg s = (Err ErrStorageProviderExitFailed, s))
  /\ (upgraded s Hulunbeier = true ->
      StorageProvider.Status sp = STATUS_IN_SERVICE ->
      redundancyBreakCount s (StorageProvider.Id sp) <> 0 ->
      StorageProviderExit msg s = (Err ErrSPCanNotExit, s))
  /\ (upgraded s Hulunbeier = true ->
      StorageProvider.Status sp = STATUS_IN_SERVICE ->
      0 < Params.SpConcurrentExitNum (params s) <= exitingCount s ->
      exists e, StorageProviderExit msg s = (Err e, s))
  /\ (StorageProvider.Status sp = STATUS_IN_SERVICE ->
      upgraded s Hulunbeier = false
      \/ (redundancyBreakCount s (StorageProvider.Id sp) = 0
          /\ exitingCount s < Params.SpConcurrentExitNum (params s)) ->
      StorageProviderExit msg s =
        (Ok tt, afterExitRequest sp STATUS_GRACEFUL_EXITING
                  (EventStorageProviderExit (StorageProvider.Id sp)
                     (StorageProvider.OperatorAddress sp)) s)
      /\ StorageProvider.Status <$>
           sps (StorageProviderExit msg s).2 !! StorageProvider.Id sp
         = Some STATUS_GRACEFUL_EXITING
      /\ events (StorageProviderExit msg s).2
         = events s ++ [EventStorageProviderExit (StorageProvider.Id sp)
                          (StorageProvider.OperatorAddress sp)]).
Proof.
  intros Hcap Hfound.
  split; [| split; [| split]].
  - apply StorageProviderExit_not_in_service. exact Hfound.
  - intros Hup Hstatus Hbreak.
    rewrite (StorageProviderExit_run msg s sp Hfound Hstatus), Hup.
    apply Z.eqb_neq in Hbreak. rewrite Hbreak. reflexivity.
  - intros Hup Hstatus Hmet.
    rewrite (StorageProviderExit_run msg s sp Hfound Hstatus), Hup.
    destruct (negb _); [eexists; reflexivity |].
    rewrite exitCapReached_met by (fold (exitingCount s); lia).
    eexists; reflexivity.
  - intros Hstatus Hpre.
    assert (Hrun : StorageProviderExit msg s =
      (Ok tt, afterExitRequest sp STATUS_GRACEFUL_EXITING
                (EventStorageProviderExit (StorageProvider.Id sp)
                   (StorageProvider.OperatorAddress sp)) s)).
    { rewrite (StorageProviderExit_run msg s sp Hfound Hstatus).
      destruct Hpre as [Hold | [Hzero Hbelow]].
      - rewrite Hold. reflexivity.
      - destruct (upgraded s Hulunbeier); [| reflexivity].
        rewrite Hzero. simpl.
        rewrite exitCapReached_below by assumption. reflexivity. }
    rewrite Hrun. simpl. rewrite lookup_insert_eq. repeat split.
Qed.

(** The amended C6 on the small chain, all upgrades active: provider 1 is in
    service, has no statistics and no provider is exiting under a cap of 1. *)
Lemma StorageProviderExit_preconditions_witness :
  StorageProviderExit
     (MsgStorageProviderExit.mk "operator1") Scenario.chain
  = (Ok tt, afterExitRequest Scenario.sp1 STATUS_GRACEFUL_EXITING
              (EventStorageProviderExit 1 "operator1") Scenario.chain).
Proof.
  assert (Hcap : 0 <= Params.SpConcurrentExitNum (params Scenario.chain) < 2 ^ 32)
    by (vm_compute; split; [discriminate | reflexivity]).
  assert (Hfound : findByOperatorAddr "operator1" (sps Scenario.chain) = Some Scenario.sp1)
    by (vm_compute; reflexivity).
  destruct (StorageProviderExit_preconditions
              (MsgStorageProviderExit.mk "operator1") Scenario.chain
              Scenario.sp1 Hcap Hfound) as (_ & _ & _ & Hok).
  apply Hok; [reflexivity |].
  right. split; vm_compute; reflexivity.
Defined.

(** C6 as stated fails: before the Hulunbeier upgrade a provider whose
    redundancy-break counter is 3 exits all the same. *)
Lemma StorageProviderExit_break_counter_counterexample :
  redundancyBreakCount Scenario.brokenOldChain 1 = 3
  /\ findByOperatorAddr "operator1" (sps Scenario.brokenOldChain) = Some Scenario.sp1
  /\ (StorageProviderExit
        (MsgStorageProviderExit.mk "operator1") Scenario.brokenOldChain).1 = Ok tt.
Proof. vm_compute. repeat split. Qed.

(** ** Transfers *)

Lemma set_balances_same (s : State) : set_balances (balances s) s = s.
Proof. destruct s. reflexivity. Qed.

Lemma transferred_nothing (b : gmap (Account * string) Z) from to denom :
  transferred b b from to denom 0.
Proof. unfold transferred. repeat split; lia. Qed.

Lemma sendCoin_transferred (from to : Account) (c : Coin.t)
    (b b' : gmap (Account * string) Z) :
  from <> to ->
  sendCoin from to c b = inr b' ->
  transferred b b' from to (Coin.Denom c) (Coin.Amount c).
Proof.
  intros Hne. unfold sendCoin.
  destruct (balanceOf b from (Coin.Denom c) <? Coin.Amount c); [discriminate |].
  intros Hb. inversion Hb; subst b'; clear Hb.
  unfold transferred, balanceOf. repeat split.
  - rewrite lookup_insert_ne by congruence. rewrite lookup_insert_eq. reflexivity.
  - rewrite lookup_insert_eq. rewrite lookup_insert_ne by congruence. reflexivity.
  - intros a d Hfrom Hto. rewrite !lookup_insert_ne by congruence. reflexivity.
Qed.

Lemma sendAmount_negative (from to : Account) (denom : string) (amount : Z) (s : State) :
  amount < 0 -> sendAmount from to denom amount s = (Panic "negative coin amount", s).
Proof.
  intros Hneg. unfold sendAmount, bind, NewCoins.
  apply Z.ltb_lt in Hneg. rewrite Hneg. reflexivity.
Qed.

Lemma sendAmount_zero (from to : Account) (denom : string) (s : State) :
  sendAmount from to denom 0 s = (Ok tt, s).
Proof.
  unfold sendAmount, bind, NewCoins, SendCoins. simpl.
  rewrite set_balances_same. reflexivity.
Qed.

Lemma sendAmount_insufficient (from to : Account) (denom : string) (amount : Z) (s : State) :
  0 < amount -> balanceOf (balances s) from denom < amount ->
  sendAmount from to denom amount s = (Err ErrInsufficientFunds, s).
Proof.
  intros Hpos Hlow. unfold sendAmount, bind, NewCoins, SendCoins, ret.
  rewrite (proj2 (Z.ltb_ge amount 0)) by lia.
  rewrite (proj2 (Z.eqb_neq amount 0)) by lia.
  simpl. unfold sendCoin. simpl.
  rewrite (proj2 (Z.ltb_lt _ _) Hlow). reflexivity.
Qed.

Lemma sendAmount_sufficient (from to : Account) (denom : string) (amount : Z) (s : State) :
  from <> to -> 0 < amount -> amount <= balanceOf (balances s) from denom ->
  exists b', sendAmount from to denom amount s = (Ok tt, set_balances b' s)
             /\ transferred (balances s) b' from to denom amount.
Proof.
  intros Hne Hpos Hhigh. unfold sendAmount, bind, NewCoins, SendCoins, ret.
  rewrite (proj2 (Z.ltb_ge amount 0)) by lia.
  rewrite (proj2 (Z.eqb_neq amount 0)) by lia.
  simpl.
  destruct (sendCoin from to (Coin.mk denom amount) (balances s)) as [e|b'] eqn:Hsend.
  - unfold sendCoin in Hsend. simpl in Hsend.
    rewrite (proj2 (Z.ltb_ge _ _)) in Hsend by lia. discriminate.
  - exists b'. split; [reflexivity |].
    apply (sendCoin_transferred from to (Coin.mk denom amount)); assumption.
Qed.

(** A transfer that succeeds changed the balances, and nothing else, by
    exactly the amount. *)
Lemma sendAmount_Ok (from to : Account) (denom : string) (amount : Z) (s s' : State) :
  from <> to ->
  sendAmount from to denom amount s = (Ok tt, s') ->
  0 <= amount
  /\ s' = set_balances (balances s') s
  /\ transferred (balances s) (balances s') from to denom amount.
Proof.
  intros Hne Hrun.
  destruct (Z.lt_trichotomy amount 0) as [Hneg | [Hzero | Hpos]].
  - rewrite sendAmount_negative in Hrun by assumption. discriminate.
  - subst amount. rewrite sendAmount_zero in Hrun. inversion Hrun; subst s'.
    split; [lia |]. split; [symmetry; apply set_balances_same |].
    apply transferred_nothing.
  - destruct (Z.lt_ge_cases (balanceOf (balances s) from denom) amount) as [Hlow | Hhigh].
    + rewrite sendAmount_insufficient in Hrun by assumption. discriminate.
    + destruct (sendAmount_sufficient from to denom amount s Hne Hpos Hhigh)
        as (b' & Hsend & Hmoved).
      rewrite Hsend in Hrun. inversion Hrun; subst s'. simpl.
      split; [lia |]. split; [reflexivity | exact Hmoved].
Qed.

(** ** Frame conditions *)

Section Frame.

Context {B : Type} (f : State -> B).

Lemma preserves_ret {A} (a : A) : preserves f (ret a).
Proof. intros s. reflexivity. Qed.

Lemma preserves_fail {A} (e : Error) : preserves f (@fail A e).
Proof. intros s. reflexivity. Qed.

Lemma preserves_panic {A} (msg : string) : preserves f (@panic A msg).
Proof. intros s. reflexivity. Qed.

Lemma preserves_gets {A} (g : State -> A) : preserves f (gets g).
Proof. intros s. reflexivity. Qed.

Lemma preserves_bind {A C} (c : M A) (k : A -> M C) :
  preserves f c -> (forall a, preserves f (k a)) -> preserves f (bind c k).
Proof.
  intros Hc Hk s. unfold bind. specialize (Hc s).
  destruct (c s) as [[a|e|msg] s1]; simpl in *; try exact Hc.
  rewrite Hk. exact Hc.
Qed.

Lemma preserves_modify (g : State -> State) :
  (forall s, f (g s) = f s) -> preserves f (modify g).
Proof. intros Hg s. apply Hg. Qed.

End Frame.

Lemma NewCoins_preserves {B} (f : State -> B) (denom : string) (amount : Z) :
  preserves f (NewCoins denom amount).
Proof.
  unfold NewCoins. destruct (amount <? 0); [apply preserves_panic |].
  destruct (amount =? 0); apply preserves_ret.
Qed.

Lemma SendCoins_preserves {B} (f : State -> B) (from to : Account) (coins : list Coin.t) :
  (forall b s, f (set_balances b s) = f s) ->
  preserves f (SendCoins from to coins).
Proof.
  intros Hf s. unfold SendCoins.
  destruct (sendCoins from to coins (balances s)); simpl; [reflexivity | apply Hf].
Qed.

Lemma EmitTypedEvents_preserves {B} (f : State -> B) (e : Event) :
  (forall l s, f (set_events l s) = f s) ->
  preserves f (EmitTypedEvents e).
Proof. intros Hf s. apply Hf. Qed.

(** Walks down a handler: binds, branches and the primitive operations. *)
Ltac frame :=
  repeat first
    [ apply preserves_ret | apply preserves_fail | apply preserves_panic
    | apply preserves_gets | apply NewCoins_preserves
    | apply SendCoins_preserves; reflexivity
    | apply EmitTypedEvents_preserves; reflexivity
    | apply preserves_modify; reflexivity
    | apply preserves_bind; [| intros ?]
    | match goal with
      | |- preserves _ (if ?b then _ else _) => destruct b
      | |- preserves _ (match ?x with _ => _ end) => destruct x
      end ].

(** ** Caller resolution *)

Lemma lookupByOperatorOrFunding_resolves (addr : AccAddress) (s : State) :
  lookupByOperatorOrFunding addr s = (Ok (resolveProvider s addr), s).
Proof.
  unfold lookupByOperatorOrFunding, resolveProvider, bind,
    GetStorageProviderByOperatorAddr, GetStorageProviderByFundingAddr, gets, ret.
  destruct (findByOperatorAddr addr (sps s)); reflexivity.
Qed.

(** ** Withdraw *)

Section WithdrawProperties.

Context `{Collaborators}.

(** The run of [Withdraw] once the caller is known to be the primary
    provider of the group and the denomination is the deposit one. *)
Lemma Withdraw_run (req : MsgWithdraw.t) (s : State)
    (sp : StorageProvider.t) (gvg : GlobalVirtualGroup.t) :
  resolveProvider s (MsgWithdraw.StorageProvider req) = Some sp ->
  gvgs s !! MsgWithdraw.GlobalVirtualGroupId req = Some gvg ->
  GlobalVirtualGroup.PrimarySpId gvg = StorageProvider.Id sp ->
  Coin.Denom (MsgWithdraw.Withdraw req) = Params.DepositDenom (params s) ->
  Withdraw req s =
    if availableTokens s gvg <? 0
    then (Panic "the available tokens is negative when withdraw", s)
    else if Coin.Amount (MsgWithdraw.Withdraw req) =? 0
    then payWithdrawal req sp gvg (Params.DepositDenom (params s)) (availableTokens s gvg) s
    else if availableTokens s gvg <? Coin.Amount (MsgWithdraw.Withdraw req)
    then (Err ErrWithdrawAmountTooLarge, s)
    else payWithdrawal req sp gvg (Params.DepositDenom (params s))
           (Coin.Amount (MsgWithdraw.Withdraw req)) s.
Proof.
  intros Hsp Hgvg Hprimary Hdenom.
  unfold Withdraw. rewrite (bind_Ok _ _ _ _ _ (lookupByOperatorOrFunding_resolves _ s)).
  rewrite Hsp.
  unfold payWithdrawal, sendAmount, SendCoinsFromModuleToAccount, availableTokens.
  unfold bind, GetGVG, DepositDenomForGVG, GetAvailableStakingTokens, gets, fail,
    panic, ret.
  rewrite Hgvg, Hprimary, Z.eqb_refl. cbn beta iota delta [negb].
  rewrite Hdenom, String.eqb_refl. cbn beta iota delta [negb].
  destruct (_ - _ <? 0); [reflexivity |].
  destruct (Coin.Amount (MsgWithdraw.Withdraw req) =? 0).
  - destruct (NewCoins _ _ s) as [[coins|e|msg] s1]; reflexivity.
  - destruct (_ - _ <? Coin.Amount (MsgWithdraw.Withdraw req)); [reflexivity |].
    destruct (NewCoins _ _ s) as [[coins|e|msg] s1]; reflexivity.
Qed.

Lemma payWithdrawal_Ok (req : MsgWithdraw.t) (sp : StorageProvider.t)
    (gvg : GlobalVirtualGroup.t) (denom : string) (w : Z) (s s' : State) :
  payWithdrawal req sp gvg denom w s = (Ok tt, s') ->
  0 <= w
  /\ transferred (balances s) (balances s')
       (ModuleAccount ModuleName) (UserAccount (StorageProvider.FundingAddress sp)) denom w
  /\ gvgs s' = gvgs s.
Proof.
  unfold payWithdrawal. intros Hrun.
  apply bind_inv_Ok in Hrun as ([] & s1 & Hsend & Hrest).
  apply sendAmount_Ok in Hsend as (Hw & Hs1 & Hmoved); [| discriminate].
  unfold bind, EmitTypedEvents, modify, ret in Hrest. inversion Hrest; subst s'.
  simpl. split; [exact Hw |]. split; [exact Hmoved |].
  rewrite Hs1. reflexivity.
Qed.

Lemma payWithdrawal_succeeds (req : MsgWithdraw.t) (sp : StorageProvider.t)
    (gvg : GlobalVirtualGroup.t) (denom : string) (w : Z) (s : State) :
  0 <= w -> w <= balanceOf (balances s) (ModuleAccount ModuleName) denom ->
  exists s', payWithdrawal req sp gvg denom w s = (Ok tt, s').
Proof.
  intros Hw Hpool. unfold payWithdrawal.
  destruct (Z.eq_dec w 0) as [-> | Hnz].
  - rewrite (bind_Ok _ _ _ _ _ (sendAmount_zero _ _ _ s)).
    eexists. reflexivity.
  - destruct (sendAmount_sufficient (ModuleAccount ModuleName)
                (UserAccount (StorageProvider.FundingAddress sp)) denom w s)
      as (b' & Hsend & _); [discriminate | lia | lia |].
    rewrite (bind_Ok _ _ _ _ _ Hsend). eexists. reflexivity.
Qed.

(** [Withdraw] writes nothing to the group store, on any path. *)
Lemma Withdraw_keeps_gvgs (req : MsgWithdraw.t) : preserves gvgs (Withdraw req).
Proof. unfold Withdraw, lookupByOperatorOrFunding. frame. Qed.

End WithdrawProperties.

(** C5: in Withdraw, once the caller is the primary provider of the group
    and the denomination is the deposit one: negative available tokens
    abort the handler with a panic, not with an error; a requested amount of
    zero pays out the entire available amount; a positive requested amount
    above the available tokens returns WithdrawAmountTooLarge and leaves the
    state, so every balance, unchanged; a positive amount within the
    available tokens pays out exactly that amount. *)
Theorem Withdraw_available_tokens
    `{Collaborators} (req : MsgWithdraw.t) (s : State)
    (sp : StorageProvider.t) (gvg : GlobalVirtualGroup.t) :
  resolveProvider s (MsgWithdraw.StorageProvider req) = Some sp ->
  gvgs s !! MsgWithdraw.GlobalVirtualGroupId req = Some gvg ->
  GlobalVirtualGroup.PrimarySpId gvg = StorageProvider.Id sp ->
  Coin.Denom (MsgWithdraw.Withdraw req) = Params.DepositDenom (params s) ->
  let available := availableTokens s gvg in
  let amount := Coin.Amount (MsgWithdraw.Withdraw req) in
  let denom := Params.DepositDenom (params s) in
  let pool := ModuleAccount ModuleName in
  let funding := UserAccount (StorageProvider.FundingAddress sp) in
  (available < 0 ->
     Withdraw req s = (Panic "the available tokens is negative when withdraw", s))
  /\ (0 <= available -> amount = 0 ->
      (forall s', Withdraw req s = (Ok tt, s') ->
         transferred (balances s) (balances s') pool funding denom available)
      /\ (available <= balanceOf (balances s) pool denom ->
          exists s', Withdraw req s = (Ok tt, s')))
  /\ (0 <= available -> 0 < amount -> available < amount ->
      Withdraw req s = (Err ErrWithdrawAmountTooLarge, s))
  /\ (0 < amount <= available ->
      (forall s', Withdraw req s = (Ok tt, s') ->
         transferred (balances s) (balances s') pool funding denom amount)
      /\ (amount <= balanceOf (balances s) pool denom ->
          exists s', Withdraw req s = (Ok tt, s'))).
Proof.
  intros Hsp Hgvg Hprimary Hdenom available amount denom pool funding.
  pose proof (Withdraw_run req s sp gvg Hsp Hgvg Hprimary Hdenom) as Hrun.
  fold available amount denom in Hrun.
  split; [| split; [| split]].
  - intros Hneg. rewrite Hrun, (proj2 (Z.ltb_lt _ _) Hneg). reflexivity.
  - intros Hav Hzero.
    rewrite (proj2 (Z.ltb_ge _ _) Hav), Hzero, Z.eqb_refl in Hrun.
    rewrite Hrun. split.
    + intros s' Hok. apply payWithdrawal_Ok in Hok as (_ & Hmoved & _). exact Hmoved.
    + intros Hpool. apply payWithdrawal_succeeds; assumption.
  - intros Hav Hpos Hlarge.
    rewrite Hrun, (proj2 (Z.ltb_ge _ _) Hav).
    rewrite (proj2 (Z.eqb_neq amount 0)) by lia.
    rewrite (proj2 (Z.ltb_lt _ _) Hlarge). reflexivity.
  - intros [Hpos Hwithin].
    rewrite (proj2 (Z.ltb_ge available 0)) in Hrun by lia.
    rewrite (proj2 (Z.eqb_neq amount 0)) in Hrun by lia.
    rewrite (proj2 (Z.ltb_ge available amount)) in Hrun by lia.
    rewrite Hrun. split.
    + intros s' Hok. apply payWithdrawal_Ok in Hok as (_ & Hmoved & _). exact Hmoved.
    + intros Hpool. apply payWithdrawal_succeeds; [lia | assumption].
Qed.

(** C5 on the small chain: provider 1 asks for more than the 60 available
    tokens of its group and gets WithdrawAmountTooLarge, the state being
    left as it was. *)
Lemma Withdraw_available_tokens_witness :
  @Withdraw Scenario.keepers
     (MsgWithdraw.mk "operator1" 1 (Coin.mk "BNB" 61)) Scenario.chain
  = (Err ErrWithdrawAmountTooLarge, Scenario.chain).
Proof.
  assert (Hsp : resolveProvider Scenario.chain "operator1" = Some Scenario.sp1)
    by (vm_compute; reflexivity).
  assert (Hgvg : gvgs Scenario.chain !! 1 = Some Scenario.gvg1)
    by (vm_compute; reflexivity).
  destruct (@Withdraw_available_tokens Scenario.keepers
              (MsgWithdraw.mk "operator1" 1 (Coin.mk "BNB" 61)) Scenario.chain
              Scenario.sp1 Scenario.gvg1 Hsp Hgvg eq_refl eq_refl)
    as (_ & _ & Hlarge & _).
  apply Hlarge; vm_compute; first [reflexivity | discriminate].
Defined.

(** C1 fails on the code.  On the small chain the group of provider 1 holds
    a deposit of 100, of which 60 are available.  Withdraw with amount 0
    succeeds and moves 60 tokens from the module pool to the provider's
    funding account, yet the group's recorded total deposit is still 100;
    a second Withdraw therefore pays out 60 once more.  And after a Deposit
    of 50, Withdraw with amount 0 pays out 110 while the recorded total
    stays at 150. *)
Theorem Withdraw_total_deposit_not_reduced :
  let withdrawAll := MsgWithdraw.mk "operator1" 1 (Coin.mk "BNB" 0) in
  let pool := ModuleAccount ModuleName in
  let funding := UserAccount "funding1" in
  let once := @Withdraw Scenario.keepers withdrawAll Scenario.chain in
  let twice := @Withdraw Scenario.keepers withdrawAll once.2 in
  let deposited := Deposit (MsgDeposit.mk "operator1" 1 (Coin.mk "BNB" 50)) Scenario.chain in
  let afterBoth := @Withdraw Scenario.keepers withdrawAll deposited.2 in
  @availableTokens Scenario.keepers Scenario.chain Scenario.gvg1 = 60
  /\ once.1 = Ok tt
  /\ balanceOf (balances Scenario.chain) pool "BNB" = 500
  /\ balanceOf (balances once.2) pool "BNB" = 440
  /\ balanceOf (balances once.2) funding "BNB" = 360
  /\ GlobalVirtualGroup.TotalDeposit <$> gvgs once.2 !! 1 = Some 100
  /\ twice.1 = Ok tt
  /\ balanceOf (balances twice.2) pool "BNB" = 380
  /\ GlobalVirtualGroup.TotalDeposit <$> gvgs twice.2 !! 1 = Some 100
  /\ deposited.1 = Ok tt
  /\ GlobalVirtualGroup.TotalDeposit <$> gvgs deposited.2 !! 1 = Some 150
  /\ afterBoth.1 = Ok tt
  /\ balanceOf (balances afterBoth.2) funding "BNB" = 300 - 50 + 110
  /\ GlobalVirtualGroup.TotalDeposit <$> gvgs afterBoth.2 !! 1 = Some 150.
Proof. vm_compute. repeat split. Qed.

(** ** Deposit *)

Section DepositProperties.

Lemma Deposit_run (req : MsgDeposit.t) (s : State)
    (sp : StorageProvider.t) (gvg : GlobalVirtualGroup.t) :
  resolveProvider s (MsgDeposit.StorageProvider req) = Some sp ->
  gvgs s !! MsgDeposit.GlobalVirtualGroupId req = Some gvg ->
  Params.DepositDenom (params s) = Coin.Denom (MsgDeposit.Deposit req) ->
  Deposit req s =
    payDeposit sp gvg (Params.DepositDenom (params s))
               (Coin.Amount (MsgDeposit.Deposit req)) s.
Proof.
  intros Hsp Hgvg Hdenom.
  unfold Deposit. rewrite (bind_Ok _ _ _ _ _ (lookupByOperatorOrFunding_resolves _ s)).
  rewrite Hsp.
  unfold payDeposit, sendAmount, SendCoinsFromAccountToModule.
  unfold bind, GetGVG, DepositDenomForGVG, gets, fail, ret.
  rewrite Hgvg. cbn beta iota.
  rewrite <- Hdenom, String.eqb_refl. cbn beta iota delta [negb].
  destruct (NewCoins _ _ s) as [[coins|e|msg] s1]; reflexivity.
Qed.

(** Without a resolved provider, a stored group and the deposit
    denomination, [Deposit] returns an error. *)
Lemma Deposit_Ok_inv (req : MsgDeposit.t) (s : State) :
  (Deposit req s).1 = Ok tt ->
  exists sp gvg,
    resolveProvider s (MsgDeposit.StorageProvider req) = Some sp
    /\ gvgs s !! MsgDeposit.GlobalVirtualGroupId req = Some gvg
    /\ Params.DepositDenom (params s) = Coin.Denom (MsgDeposit.Deposit req).
Proof.
  unfold Deposit. rewrite (bind_Ok _ _ _ _ _ (lookupByOperatorOrFunding_resolves _ s)).
  destruct (resolveProvider s (MsgDeposit.StorageProvider req)) as [sp|];
    [| discriminate].
  unfold bind at 1. unfold GetGVG, gets.
  destruct (gvgs s !! MsgDeposit.GlobalVirtualGroupId req) as [gvg|]; [| discriminate].
  unfold bind at 1. unfold DepositDenomForGVG, gets.
  destruct (String.eqb_spec (Params.DepositDenom (params s))
              (Coin.Denom (MsgDeposit.Deposit req))) as [Hdenom|Hdenom];
    [| discriminate].
  intros _. exists sp, gvg. repeat split. exact Hdenom.
Qed.

Lemma payDeposit_Ok_iff (sp : StorageProvider.t) (gvg : GlobalVirtualGroup.t)
    (denom : string) (amount : Z) (s : State) :
  (payDeposit sp gvg denom amount s).1 = Ok tt
  <-> (amount = 0
       \/ 0 < amount
            <= balanceOf (balances s) (UserAccount (StorageProvider.FundingAddress sp)) denom)
      /\ fitsInt (GlobalVirtualGroup.TotalDeposit gvg + amount) = true.
Proof.
  unfold payDeposit.
  assert (Hrest : forall s1,
    ((total <- IntAdd (GlobalVirtualGroup.TotalDeposit gvg) amount ;;
      let gvg := GlobalVirtualGroup.withTotalDeposit total gvg in
      SetGVG gvg ;;
      EmitTypedEvents (EventUpdateGlobalVirtualGroup
        (GlobalVirtualGroup.Id gvg) (GlobalVirtualGroup.PrimarySpId gvg)
        (GlobalVirtualGroup.StoredSize gvg) (GlobalVirtualGroup.TotalDeposit gvg)
        (GlobalVirtualGroup.SecondarySpIds gvg)) ;;
      ret tt) s1).1 = Ok tt
    <-> fitsInt (GlobalVirtualGroup.TotalDeposit gvg + amount) = true).
  { intros s1. unfold bind, IntAdd.
    destruct (fitsInt _); simpl; split; try reflexivity; discriminate. }
  destruct (Z.lt_trichotomy amount 0) as [Hneg | [Hzero | Hpos]].
  - rewrite (bind_Panic _ _ _ _ _ (sendAmount_negative _ _ _ _ s Hneg)).
    simpl. split; [discriminate | lia].
  - subst amount. rewrite (bind_Ok _ _ _ _ _ (sendAmount_zero _ _ _ s)).
    rewrite Hrest. split; [intros Hfit; split; [left; reflexivity | exact Hfit] | tauto].
  - destruct (Z.lt_ge_cases
                (balanceOf (balances s) (UserAccount (StorageProvider.FundingAddress sp)) denom)
                amount) as [Hlow | Hhigh].
    + rewrite (bind_Err _ _ _ _ _ (sendAmount_insufficient _ _ _ _ s Hpos Hlow)).
      simpl. split; [discriminate | lia].
    + destruct (sendAmount_sufficient
                  (UserAccount (StorageProvider.FundingAddress sp))
                  (ModuleAccount ModuleName) denom amount s)
        as (b' & Hsend & _); [discriminate | assumption | assumption |].
      rewrite (bind_Ok _ _ _ _ _ Hsend). rewrite Hrest.
      split; [intros Hfit; split; [right; lia | exact Hfit] | tauto].
Qed.

(** A successful [payDeposit] stores the group with the amount added. *)
Lemma payDeposit_total (sp : StorageProvider.t) (gvg : GlobalVirtualGroup.t)
    (denom : string) (amount : Z) (s : State) :
  (payDeposit sp gvg denom amount s).1 = Ok tt ->
  gvgs (payDeposit sp gvg denom amount s).2 !! GlobalVirtualGroup.Id gvg
  = Some (GlobalVirtualGroup.withTotalDeposit
            (GlobalVirtualGroup.TotalDeposit gvg + amount) gvg).
Proof.
  unfold payDeposit, bind.
  destruct (sendAmount _ _ denom amount s) as [[[]|e|msg] s1]; try discriminate.
  unfold IntAdd. destruct (fitsInt _); [| discriminate].
  intros _. simpl. apply lookup_insert_eq.
Qed.

End DepositProperties.

(** C4 (as amended): Deposit succeeds only when the calling address resolves
    (as operator address first, else as funding address) to a storage
    provider and the target group exists; the provider need not be a member
    of the group.  It succeeds exactly when, besides, the denomination is
    the deposit one, the amount is zero or a positive amount the provider's
    funding account holds, and the new total fits; the group is then stored
    with the amount added to its total deposit. *)
Theorem Deposit_needs_provider_not_membership (req : MsgDeposit.t) (s : State) :
  ((Deposit req s).1 = Ok tt
   <-> exists sp gvg,
         resolveProvider s (MsgDeposit.StorageProvider req) = Some sp
         /\ gvgs s !! MsgDeposit.GlobalVirtualGroupId req = Some gvg
         /\ Params.DepositDenom (params s) = Coin.Denom (MsgDeposit.Deposit req)
         /\ (Coin.Amount (MsgDeposit.Deposit req) = 0
             \/ 0 < Coin.Amount (MsgDeposit.Deposit req)
                  <= balanceOf (balances s)
                       (UserAccount (StorageProvider.FundingAddress sp))
                       (Params.DepositDenom (params s)))
         /\ fitsInt (GlobalVirtualGroup.TotalDeposit gvg
                     + Coin.Amount (MsgDeposit.Deposit req)) = true)
  /\ (forall gvg,
        (Deposit req s).1 = Ok tt ->
        gvgs s !! MsgDeposit.GlobalVirtualGroupId req = Some gvg ->
        gvgs (Deposit req s).2 !! GlobalVirtualGroup.Id gvg
        = Some (GlobalVirtualGroup.withTotalDeposit
                  (GlobalVirtualGroup.TotalDeposit gvg
                   + Coin.Amount (MsgDeposit.Deposit req)) gvg)).
Proof.
  split; [split |].
  - intros Hok.
    destruct (Deposit_Ok_inv req s Hok) as (sp & gvg & Hsp & Hgvg & Hdenom).
    exists sp, gvg. rewrite (Deposit_run req s sp gvg Hsp Hgvg Hdenom) in Hok.
    apply payDeposit_Ok_iff in Hok. tauto.
  - intros (sp & gvg & Hsp & Hgvg & Hdenom & Hfunds & Hfit).
    rewrite (Deposit_run req s sp gvg Hsp Hgvg Hdenom).
    apply payDeposit_Ok_iff. tauto.
  - intros gvg Hok Hgvg.
    destruct (Deposit_Ok_inv req s Hok) as (sp & gvg' & Hsp & Hgvg' & Hdenom).
    rewrite Hgvg in Hgvg'. inversion Hgvg'; subst gvg'.
    rewrite (Deposit_run req s sp gvg Hsp Hgvg Hdenom) in *.
    apply payDeposit_total. exact Hok.
Qed.

(** The amended C4 on the small chain: the deposit of provider 4 succeeds,
    so its address resolves to a provider and the group exists. *)
Lemma Deposit_needs_provider_not_membership_witness :
  exists sp gvg,
    resolveProvider Scenario.chain "operator4" = Some sp
    /\ gvgs Scenario.chain !! 1 = Some gvg.
Proof.
  destruct (proj1 (proj1 (Deposit_needs_provider_not_membership
              (MsgDeposit.mk "operator4" 1 (Coin.mk "BNB" 50)) Scenario.chain)))
    as (sp & gvg & Hsp & Hgvg & _).
  - vm_compute. reflexivity.
  - exists sp, gvg. split; assumption.
Defined.

(** C4 as stated fails: provider 4 is neither the primary nor a secondary
    provider of group 1, and its deposit into group 1 succeeds. *)
Lemma Deposit_non_member_counterexample :
  resolveProvider Scenario.chain "operator4" = Some Scenario.sp4
  /\ gvgs Scenario.chain !! 1 = Some Scenario.gvg1
  /\ ~ isMember Scenario.sp4 Scenario.gvg1
  /\ (Deposit (MsgDeposit.mk "operator4" 1 (Coin.mk "BNB" 50)) Scenario.chain).1 = Ok tt.
Proof.
  split; [vm_compute; reflexivity |].
  split; [vm_compute; reflexivity |].
  split; [| vm_compute; reflexivity].
  unfold isMember. simpl. intros [Hprimary | Hsecondary]; [discriminate |].
  apply elem_of_cons in Hsecondary as [Heq | Hsecondary]; [discriminate |].
  apply elem_of_cons in Hsecondary as [Heq | Hsecondary]; [discriminate |].
  apply elem_of_nil in Hsecondary. exact Hsecondary.
Qed.

(** ** CompleteStorageProviderExit *)

Section CompleteExitProperties.

Context `{Collaborators}.

Lemma CompleteStorageProviderExit_not_exiting
    (msg : MsgCompleteStorageProviderExit.t) (s : State) (sp : StorageProvider.t) :
  findByOperatorAddr (MsgCompleteStorageProviderExit.StorageProvider msg) (sps s) = Some sp ->
  StorageProvider.Status sp <> STATUS_GRACEFUL_EXITING ->
  StorageProvider.Status sp <> STATUS_FORCED_EXITING ->
  CompleteStorageProviderExit msg s = (Err ErrStorageProviderExitFailed, s).
Proof.
  intros Hfound Hgraceful Hforced.
  unfold CompleteStorageProviderExit, bind, GetStorageProviderByOperatorAddr, gets, fail.
  cbn beta iota. rewrite Hfound.
  rewrite !bool_decide_eq_false_2 by assumption. reflexivity.
Qed.

Lemma CompleteStorageProviderExit_run
    (msg : MsgCompleteStorageProviderExit.t) (s : State) (sp : StorageProvider.t) :
  findByOperatorAddr (MsgCompleteStorageProviderExit.StorageProvider msg) (sps s) = Some sp ->
  StorageProvider.Status sp = STATUS_GRACEFUL_EXITING
  \/ StorageProvider.Status sp = STATUS_FORCED_EXITING ->
  CompleteStorageProviderExit msg s =
    match StorageProviderExitable s (StorageProvider.Id sp) with
    | Some err => (Err err, s)
    | None => finishExit msg sp s
    end.
Proof.
  intros Hfound Hstatus.
  unfold CompleteStorageProviderExit, finishExit, depositRecipient, sendAmount,
    SendCoinsFromModuleToAccount.
  unfold bind, GetStorageProviderByOperatorAddr, DepositDenomForSP, IsUpgraded,
    gets, fail, ret.
  cbn beta iota. rewrite Hfound.
  assert (Hgate :
    negb (bool_decide (StorageProvider.Status sp = STATUS_GRACEFUL_EXITING))
    && negb (bool_decide (StorageProvider.Status sp = STATUS_FORCED_EXITING)) = false).
  { destruct Hstatus as [-> | ->]; reflexivity. }
  rewrite Hgate. cbn beta iota.
  destruct (StorageProviderExitable s (StorageProvider.Id sp)); [reflexivity |].
  destruct (bool_decide (StorageProvider.Status sp = STATUS_GRACEFUL_EXITING));
    cbn beta iota delta [negb];
    (destruct (NewCoins _ _ s) as [[coins|e|msg'] s1]; [| reflexivity | reflexivity];
     destruct (SendCoins _ _ coins s1) as [[[]|e|msg'] s2]; [| reflexivity | reflexivity];
     destruct (Exit sp s2) as [[[]|e|msg'] s3]; [| reflexivity | reflexivity];
     destruct (upgraded s3 Hulunbeier); reflexivity).
Qed.

Lemma Exit_preserves_balances (sp : StorageProvider.t) : preserves balances (Exit sp).
Proof.
  intros s. unfold Exit. destruct (spKeeperExit (sps s) sp); reflexivity.
Qed.

(** A successful [finishExit] moved the provider's total deposit from the
    provider module's pool to the recipient, and no other balance. *)
Lemma finishExit_Ok (msg : MsgCompleteStorageProviderExit.t)
    (sp : StorageProvider.t) (s s' : State) :
  finishExit msg sp s = (Ok tt, s') ->
  transferred (balances s) (balances s')
    (ModuleAccount SpModuleName) (UserAccount (depositRecipient sp))
    (spDepositDenom s) (StorageProvider.TotalDeposit sp).
Proof.
  unfold finishExit. intros Hrun.
  rewrite (bind_Ok _ _ s (spDepositDenom s) s) in Hrun by reflexivity.
  apply bind_inv_Ok in Hrun as ([] & s1 & Hsend & Hrest).
  apply sendAmount_Ok in Hsend as (_ & _ & Hmoved); [| discriminate].
  assert (Hframe : balances s' = balances s1).
  { change s' with (Ok tt, s').2. rewrite <- Hrest.
    generalize s1. change (preserves balances
      (Exit sp ;;
       hulunbeier <- IsUpgraded Hulunbeier ;;
       (if hulunbeier then
          EmitTypedEvents (EventCompleteStorageProviderExit
            (StorageProvider.Id sp) (MsgCompleteStorageProviderExit.Operator msg)
            (StorageProvider.OperatorAddress sp) (StorageProvider.TotalDeposit sp)
            (negb (bool_decide (StorageProvider.Status sp = STATUS_GRACEFUL_EXITING))))
        else
          EmitTypedEvents (EventCompleteStorageProviderExit
            (StorageProvider.Id sp) (StorageProvider.OperatorAddress sp) ""
            (StorageProvider.TotalDeposit sp) false)) ;;
       ret tt)).
    apply preserves_bind; [apply Exit_preserves_balances | intros ?]. frame. }
  rewrite Hframe. exact Hmoved.
Qed.

Lemma finishExit_succeeds (msg : MsgCompleteStorageProviderExit.t)
    (sp : StorageProvider.t) (s : State) (registry : gmap Z StorageProvider.t) :
  0 <= StorageProvider.TotalDeposit sp
       <= balanceOf (balances s) (ModuleAccount SpModuleName) (spDepositDenom s) ->
  spKeeperExit (sps s) sp = inr registry ->
  exists s', finishExit msg sp s = (Ok tt, s').
Proof.
  intros Hfunds Hexit. unfold finishExit.
  rewrite (bind_Ok _ _ s (spDepositDenom s) s) by reflexivity.
  assert (Hsend : exists b',
    sendAmount (ModuleAccount SpModuleName) (UserAccount (depositRecipient sp))
      (spDepositDenom s) (StorageProvider.TotalDeposit sp) s = (Ok tt, set_balances b' s)).
  { destruct (Z.eq_dec (StorageProvider.TotalDeposit sp) 0) as [Hz | Hnz].
    - rewrite Hz, sendAmount_zero. exists (balances s).
      rewrite set_balances_same. reflexivity.
    - destruct (sendAmount_sufficient (ModuleAccount SpModuleName)
                  (UserAccount (depositRecipient sp)) (spDepositDenom s)
                  (StorageProvider.TotalDeposit sp) s) as (b' & Hb' & _);
        [discriminate | lia | lia |].
      exists b'. exact Hb'. }
  destruct Hsend as (b' & Hsend).
  rewrite (bind_Ok _ _ _ _ _ Hsend).
  unfold bind, Exit, IsUpgraded, EmitTypedEvents, gets, modify, ret. simpl.
  rewrite Hexit. simpl.
  destruct (upgraded s Hulunbeier); eexists; reflexivity.
Qed.

End CompleteExitProperties.

(** C8: a successful CompleteStorageProviderExit moved the provider's full
    TotalDeposit out of the provider module's pool: to the provider's own
    funding address when its status was GRACEFUL_EXITING, and to the
    governance account when it was FORCED_EXITING.  A provider in any other
    status makes the operation fail, and an exiting provider that may leave
    and whose deposit the pool holds makes it succeed. *)
Theorem CompleteStorageProviderExit_deposit
    `{Collaborators} (msg : MsgCompleteStorageProviderExit.t) (s : State)
    (sp : StorageProvider.t) :
  findByOperatorAddr (MsgCompleteStorageProviderExit.StorageProvider msg) (sps s) = Some sp ->
  let pool := ModuleAccount SpModuleName in
  (forall s', CompleteStorageProviderExit msg s = (Ok tt, s') ->
     (StorageProvider.Status sp = STATUS_GRACEFUL_EXITING
      /\ transferred (balances s) (balances s') pool
           (UserAccount (StorageProvider.FundingAddress sp))
           (spDepositDenom s) (StorageProvider.TotalDeposit sp))
     \/ (StorageProvider.Status sp = STATUS_FORCED_EXITING
         /\ transferred (balances s) (balances s') pool
              (UserAccount GovernanceAddress)
              (spDepositDenom s) (StorageProvider.TotalDeposit sp)))
  /\ (StorageProvider.Status sp <> STATUS_GRACEFUL_EXITING ->
      StorageProvider.Status sp <> STATUS_FORCED_EXITING ->
      CompleteStorageProviderExit msg s = (Err ErrStorageProviderExitFailed, s))
  /\ (forall registry,
        StorageProvider.Status sp = STATUS_GRACEFUL_EXITING
        \/ StorageProvider.Status sp = STATUS_FORCED_EXITING ->
        StorageProviderExitable s (StorageProvider.Id sp) = None ->
        0 <= StorageProvider.TotalDeposit sp
             <= balanceOf (balances s) pool (spDepositDenom s) ->
        spKeeperExit (sps s) sp = inr registry ->
        exists s', CompleteStorageProviderExit msg s = (Ok tt, s')).
Proof.
  intros Hfound pool. split; [| split].
  - intros s' Hok.
    destruct (decide (StorageProvider.Status sp = STATUS_GRACEFUL_EXITING)) as [Hg | Hg].
    + left. split; [exact Hg |].
      rewrite (CompleteStorageProviderExit_run msg s sp Hfound (or_introl Hg)) in Hok.
      destruct (StorageProviderExitable s (StorageProvider.Id sp)); [discriminate |].
      apply finishExit_Ok in Hok. unfold depositRecipient in Hok.
      rewrite bool_decide_eq_true_2 in Hok by assumption. exact Hok.
    + destruct (decide (StorageProvider.Status sp = STATUS_FORCED_EXITING)) as [Hf | Hf].
      * right. split; [exact Hf |].
        rewrite (CompleteStorageProviderExit_run msg s sp Hfound (or_intror Hf)) in Hok.
        destruct (StorageProviderExitable s (StorageProvider.Id sp)); [discriminate |].
        apply finishExit_Ok in Hok. unfold depositRecipient in Hok.
        rewrite bool_decide_eq_false_2 in Hok by assumption. exact Hok.
      * rewrite (CompleteStorageProviderExit_not_exiting msg s sp Hfound Hg Hf) in Hok.
        discriminate.
  - apply CompleteStorageProviderExit_not_exiting. exact Hfound.
  - intros registry Hstatus Hexitable Hfunds Hexit.
    rewrite (CompleteStorageProviderExit_run msg s sp Hfound Hstatus), Hexitable.
    apply (finishExit_succeeds msg sp s registry); assumption.
Qed.

(** C8 on the chain with two exiting providers: provider 2, exiting
    gracefully, gets its deposit of 1000 back on its funding account. *)
Lemma CompleteStorageProviderExit_deposit_witness :
  exists s',
    @CompleteStorageProviderExit Scenario.keepers
       (MsgCompleteStorageProviderExit.mk "operator2" "operator2") Scenario.exitingChain
    = (Ok tt, s')
    /\ transferred (balances Scenario.exitingChain) (balances s')
         (ModuleAccount SpModuleName) (UserAccount "funding2") "BNB" 1000.
Proof.
  assert (Hfound : findByOperatorAddr "operator2" (sps Scenario.exitingChain)
                   = Some (withStatus STATUS_GRACEFUL_EXITING Scenario.sp2))
    by (vm_compute; reflexivity).
  destruct (@CompleteStorageProviderExit_deposit Scenario.keepers
              (MsgCompleteStorageProviderExit.mk "operator2" "operator2")
              Scenario.exitingChain _ Hfound) as (Hmoved & _ & Hsucceeds).
  destruct (Hsucceeds (delete 2 Scenario.exitingRegistry)) as (s' & Hok).
  - left. reflexivity.
  - reflexivity.
  - vm_compute. split; discriminate.
  - reflexivity.
  - exists s'. split; [exact Hok |].
    destruct (Hmoved s' Hok) as [[_ Hgraceful] | [Hforced _]];
      [exact Hgraceful | discriminate].
Defined.

(** ** CreateGlobalVirtualGroup *)

(** The scan of one stored group reports a duplicate exactly when the
    requested ids, from position [i] on, are the first ids of the stored
    group: it stops at the last requested id. *)
Lemma sameOrderScan_duplicate_at (existing requested : list Z) (i : nat) :
  sameOrderScan existing requested i = ScanDuplicate
  <-> (i < length requested)%nat
      /\ take (length requested - i) existing = drop i requested.
Proof.
  revert i. induction existing as [|x existing IH]; intros i; simpl.
  - split; [discriminate |]. intros [Hi Heq].
    rewrite take_nil in Heq. apply (f_equal length) in Heq.
    rewrite length_drop in Heq. simpl in Heq. lia.
  - destruct (requested !! i) as [y|] eqn:Hri.
    + pose proof (lookup_lt_Some _ _ _ Hri) as Hi.
      rewrite (drop_S _ _ _ Hri).
      replace (length requested - i)%nat with (S (length requested - S i)) by lia.
      simpl take.
      case_bool_decide as Hxy.
      * split; [discriminate |]. intros [_ Heq]. congruence.
      * subst y.
        case_bool_decide as Hlast.
        -- split; [| reflexivity]. intros _. split; [exact Hi |].
           replace (length requested - S i)%nat with 0%nat by lia.
           rewrite drop_ge by lia. reflexivity.
        -- rewrite IH. split.
           ++ intros [_ Heq]. split; [exact Hi |]. rewrite Heq. reflexivity.
           ++ intros [_ Heq]. split; [lia |]. congruence.
    + apply lookup_ge_None in Hri. split; [discriminate | lia].
Qed.

(** So a request is refused as a duplicate of a stored group exactly when it
    is a non-empty prefix of it. *)
Lemma sameOrderScan_duplicate_iff (existing requested : list Z) :
  sameOrderScan existing requested 0 = ScanDuplicate
  <-> requested <> [] /\ requested `prefix_of` existing.
Proof.
  rewrite sameOrderScan_duplicate_at. rewrite Nat.sub_0_r. simpl drop. split.
  - intros [Hlen Heq]. split.
    + intros ->. simpl in Hlen. lia.
    + exists (drop (length requested) existing).
      rewrite <- Heq at 1. symmetry. apply take_drop.
  - intros [Hne [tail ->]]. split.
    + destruct requested; [contradiction | simpl; lia].
    + rewrite take_app_length. reflexivity.
Qed.

(** Against a stored group of the same length, that is identity. *)
Lemma sameOrderScan_same_length (existing requested : list Z) :
  length existing = length requested -> requested <> [] ->
  sameOrderScan existing requested 0 = ScanDuplicate <-> existing = requested.
Proof.
  intros Hlen Hne. rewrite sameOrderScan_duplicate_iff. split.
  - intros [_ [tail ->]]. rewrite length_app in Hlen.
    destruct tail; [apply app_nil_r | simpl in Hlen; lia].
  - intros ->. split; [exact Hne | reflexivity].
Qed.

(** The indexing leaves the requested slice only when that slice is
    empty. *)
Lemma sameOrderScan_no_panic_at (existing requested : list Z) (i : nat) :
  (i < length requested)%nat -> sameOrderScan existing requested i <> ScanIndexPanic.
Proof.
  revert i. induction existing as [|x existing IH]; intros i Hi; simpl.
  - discriminate.
  - destruct (requested !! i) as [y|] eqn:Hri.
    + case_bool_decide as Hxy; [discriminate |].
      case_bool_decide as Hlast; [discriminate |].
      apply IH. lia.
    + apply lookup_ge_None in Hri. lia.
Qed.

Lemma sameOrderScan_panic_iff (existing requested : list Z) :
  sameOrderScan existing requested 0 = ScanIndexPanic
  <-> requested = [] /\ existing <> [].
Proof.
  split.
  - intros Hscan. destruct requested as [|r requested].
    + split; [reflexivity |]. intros ->. discriminate.
    + exfalso. apply (sameOrderScan_no_panic_at existing (r :: requested) 0);
        [simpl; lia | exact Hscan].
  - intros [-> Hne]. destruct existing; [contradiction | reflexivity].
Qed.

Lemma preserves_Ok {A B} (f : State -> B) (c : M A) (s s' : State) (o : Outcome A) :
  preserves f c -> c s = (o, s') -> f s' = f s.
Proof. intros Hc Hrun. specialize (Hc s). rewrite Hrun in Hc. exact Hc. Qed.

(** The loops of [CreateGlobalVirtualGroup] only read the state. *)
Lemma checkDuplicateSecondarySP_preserves {B} (f : State -> B) ids set :
  preserves f (checkDuplicateSecondarySP ids set).
Proof. revert set. induction ids as [|id ids IH]; intros set; simpl; frame. apply IH. Qed.

Lemma collectSecondarySPs_preserves {B} (f : State -> B) ids acc stats :
  preserves f (collectSecondarySPs ids acc stats).
Proof.
  revert acc stats. induction ids as [|id ids IH]; intros acc stats; simpl; frame.
  apply IH.
Qed.

Lemma checkDuplicateGVG_preserves {B} (f : State -> B) gvgIDs ids :
  preserves f (checkDuplicateGVG gvgIDs ids).
Proof. induction gvgIDs as [|id gvgIDs IH]; simpl; frame. apply IH. Qed.

(** A step that reads the state, or draws the next group id. *)
Ltac read_step H :=
  cbv [IsUpgraded GetStorageProviderByOperatorAddr GetOrCreateGVGStatisticsWithinSP
       MaxGlobalVirtualGroupNumPerFamily DepositDenomForGVG GenNextGVGID gets] in H;
  injection H as <- <-.

Section CreateProperties.

Context `{Collaborators}.

(** A creation in an existing family succeeds only when the number of
    groups the family already holds is at most the cap; the family then
    holds one group more. *)
Lemma CreateGlobalVirtualGroup_existing_family
    (req : MsgCreateGlobalVirtualGroup.t) (s s' : State) :
  MsgCreateGlobalVirtualGroup.FamilyId req <> NoSpecifiedFamilyId ->
  CreateGlobalVirtualGroup req s = (Ok tt, s') ->
  exists family gvgID,
    families s !! MsgCreateGlobalVirtualGroup.FamilyId req = Some family
    /\ uint32 (Z.of_nat (length (GlobalVirtualGroupFamily.GlobalVirtualGroupIds family)))
       <= Params.MaxGlobalVirtualGroupNumPerFamily (params s)
    /\ families s'
       = <[GlobalVirtualGroupFamily.Id family :=
             GlobalVirtualGroupFamily.AppendGVG family gvgID]> (families s).
Proof.
  intros Hfamily Hok. unfold CreateGlobalVirtualGroup in Hok.
  apply bind_inv_Ok in Hok as (pampas & s1 & Hstep & Hok).
  read_step Hstep.
  apply bind_inv_Ok in Hok as ([] & s1 & Hstep & Hok).
  apply (preserves_Ok (fun s => s)) in Hstep;
    [| destruct (upgraded s Pampas); frame; apply checkDuplicateSecondarySP_preserves].
  subst s1.
  apply bind_inv_Ok in Hok as (found & s1 & Hstep & Hok).
  read_step Hstep.
  destruct (findByOperatorAddr _ (sps s)) as [sp|]; [| discriminate].
  destruct (negb _ && negb _); [discriminate |].
  apply bind_inv_Ok in Hok as (stat & s1 & Hstep & Hok).
  read_step Hstep.
  apply bind_inv_Ok in Hok as (collected & s1 & Hstep & Hok).
  apply (preserves_Ok (fun s => s)) in Hstep;
    [| apply collectSecondarySPs_preserves].
  subst s1.
  apply bind_inv_Ok in Hok as (family & s1 & Hstep & Hok).
  unfold GetOrCreateEmptyGVGFamily in Hstep.
  rewrite (proj2 (Z.eqb_neq _ _) Hfamily) in Hstep.
  apply bind_inv_Ok in Hstep as (foundFamily & s0 & Hget & Hstep).
  unfold GetGVGFamily, gets in Hget. injection Hget as <- <-.
  destruct (families s !! _) as [family'|] eqn:Hlookup; [| discriminate].
  destruct (negb _); [discriminate |].
  inversion Hstep; subst family' s1; clear Hstep.
  apply bind_inv_Ok in Hok as (manchurian & s1 & Hstep & Hok).
  read_step Hstep.
  apply bind_inv_Ok in Hok as ([] & s1 & Hstep & Hok).
  apply (preserves_Ok (fun s => s)) in Hstep;
    [| destruct (upgraded s Manchurian); frame; apply checkDuplicateGVG_preserves].
  subst s1.
  apply bind_inv_Ok in Hok as (maxNum & s1 & Hstep & Hok).
  read_step Hstep.
  destruct (_ <? _) eqn:Hlimit; [discriminate |].
  apply Z.ltb_ge in Hlimit.
  apply bind_inv_Ok in Hok as (denom & s1 & Hstep & Hok).
  read_step Hstep.
  apply bind_inv_Ok in Hok as (coins & s1 & Hstep & Hok).
  apply (preserves_Ok (fun s => s)) in Hstep; [| apply NewCoins_preserves].
  subst s1.
  apply bind_inv_Ok in Hok as ([] & s1 & Hstep & Hok).
  apply (preserves_Ok families) in Hstep; [| frame].
  rename Hstep into Hfam1.
  apply bind_inv_Ok in Hok as (gvgID & s2 & Hstep & Hok).
  read_step Hstep.
  eexists family, _. split; [reflexivity |]. split; [exact Hlimit |].
  unfold bind, SetGVG, SetGVGFamily, BatchSetGVGStatisticsWithinSP, EmitTypedEvents,
    modify, ret in Hok. simpl in Hok.
  destruct (_ =? NoSpecifiedFamilyId); inversion Hok; simpl; rewrite Hfam1; reflexivity.
Qed.
End CreateProperties.

(** C2 fails on the code.  The cap is 1 and family 1 already holds one
    group; the creation of another group in family 1 succeeds and leaves
    the family with two groups.  Only the creation after that one is
    refused with the limit error: the check compares the cap with the
    number of groups before the new one is appended, and with [<]. *)
Theorem CreateGlobalVirtualGroup_exceeds_family_cap :
  let create := fun ids =>
    @CreateGlobalVirtualGroup Scenario.keepers
      (MsgCreateGlobalVirtualGroup.mk "operator1" 1 ids (Coin.mk "BNB" 5)) in
  let second := create [3; 2] Scenario.chain in
  let third := create [4; 2] second.2 in
  Params.MaxGlobalVirtualGroupNumPerFamily (params Scenario.chain) = 1
  /\ groupCount Scenario.chain 1 = 1
  /\ second.1 = Ok tt
  /\ groupCount second.2 1 = 2
  /\ third.1 = Err ErrLimitationExceed.
Proof. vm_compute. repeat split. Qed.

(** C3 fails on the code.  Before the upgrades, when the number of
    secondaries is not checked, a group with the secondaries 3, 4, 2 is
    created in family 1, next to the group with the secondaries 2, 3, under
    a cap of ten groups.  With
    all upgrades active, the request for the secondaries 3, 4 is refused as
    a duplicate, although no group of the family has the secondaries 3, 4:
    the scan stops at the last requested id and never compares lengths. *)
Theorem CreateGlobalVirtualGroup_duplicate_on_prefix :
  let create := fun ids =>
    @CreateGlobalVirtualGroup Scenario.keepers
      (MsgCreateGlobalVirtualGroup.mk "operator1" 1 ids (Coin.mk "BNB" 5)) in
  let before := create [3; 4; 2] Scenario.roomyOldChain in
  let upgradedChain := set_upgraded (fun _ => true) before.2 in
  let after := create [3; 4] upgradedChain in
  before.1 = Ok tt
  /\ hasGroupWithSecondaries upgradedChain 1 [2; 3] = true
  /\ hasGroupWithSecondaries upgradedChain 1 [3; 4; 2] = true
  /\ hasGroupWithSecondaries upgradedChain 1 [3; 4] = false
  /\ after.1 = Err ErrDuplicateGVG.
Proof. vm_compute. repeat split. Qed.

(** ** Settle *)

Lemma foldl_insert_elem (ids : list Z) (acc : gset Z) (x : Z) :
  x ∈ foldl (fun m gvgID => {[gvgID]} ∪ m) acc ids <-> x ∈ acc \/ x ∈ ids.
Proof.
  revert acc. induction ids as [|id ids IH]; intros acc; simpl.
  - rewrite elem_of_nil. tauto.
  - rewrite IH, elem_of_union, elem_of_singleton, elem_of_cons. tauto.
Qed.

Lemma buildIdSet_elem (ids : list Z) (x : Z) : x ∈ buildIdSet ids <-> x ∈ ids.
Proof.
  unfold buildIdSet. rewrite foldl_insert_elem, elem_of_empty. tauto.
Qed.

(** Every requested id is visited, and visited once. *)
Lemma rangeOrder_dedup (ids order : list Z) :
  rangeOrder (buildIdSet ids) order ->
  NoDup order /\ forall id, id ∈ order <-> id ∈ ids.
Proof.
  unfold rangeOrder. intros Hperm. split.
  - rewrite Hperm. apply NoDup_elements.
  - intros id. rewrite Hperm, elem_of_elements. apply buildIdSet_elem.
Qed.

Lemma permitted_elem (l : list Z) (x : Z) : permitted l x = true <-> x ∈ l.
Proof.
  induction l as [|y l IH]; simpl.
  - rewrite elem_of_nil. split; [discriminate | tauto].
  - rewrite elem_of_cons. destruct (Z.eqb_spec y x) as [-> | Hne].
    + split; [left; reflexivity | reflexivity].
    + rewrite IH. split; [tauto | intros [Heq | Hin]; [congruence | exact Hin]].
Qed.

Section SettleProperties.

Context `{Collaborators}.

Lemma reportAs_Ok {A} (e : Error) (c : M A) (s : State) (a : A) (s' : State) :
  reportAs e c s = (Ok a, s') <-> c s = (Ok a, s').
Proof.
  unfold reportAs. destruct (c s) as [[a'|e'|msg] s1]; split; intros Hr;
    first [exact Hr | discriminate].
Qed.

Lemma reportAs_Err {A} (e e' : Error) (c : M A) (s s' : State) :
  c s = (Err e', s') -> reportAs e c s = (Err e, s').
Proof. unfold reportAs. intros ->. reflexivity. Qed.

Lemma reportAs_Err_inv {A} (e e' : Error) (c : M A) (s s' : State) :
  reportAs e c s = (Err e', s') -> e' = e.
Proof.
  unfold reportAs. destruct (c s) as [[a|e0|msg] s1]; intros Hr; inversion Hr.
  reflexivity.
Qed.

(** One round of the loop of [settleGVGs]. *)
Lemma settleGVGs_cons (p : bool) (sp : option StorageProvider.t)
    (gvgID : Z) (rest : list Z) (s : State) (gvg : GlobalVirtualGroup.t) :
  gvgs s !! gvgID = Some gvg ->
  p = true
  \/ (exists sp', sp = Some sp'
        /\ StorageProvider.Id sp' ∈ GlobalVirtualGroup.SecondarySpIds gvg) ->
  settleGVGs p sp (gvgID :: rest) s =
    (reportAs ErrSettleFailed (SettleAndDistributeGVG gvg) ;;
     settleGVGs p sp rest) s.
Proof.
  intros Hgvg Hpermitted. simpl.
  unfold bind at 1. unfold GetGVG, gets. rewrite Hgvg.
  destruct Hpermitted as [-> | (sp' & -> & Hin)].
  - reflexivity.
  - apply permitted_elem in Hin.
    destruct p; simpl; [reflexivity |]. rewrite Hin. reflexivity.
Qed.

(** The run over a list of ids that starts with a run that succeeded. *)
Lemma settleGVGs_app (p : bool) (sp : option StorageProvider.t)
    (l1 l2 : list Z) (s s1 : State) :
  settleGVGs p sp l1 s = (Ok tt, s1) ->
  settleGVGs p sp (l1 ++ l2) s = settleGVGs p sp l2 s1.
Proof.
  revert s. induction l1 as [|id l1 IH]; intros s Hrun.
  - simpl in Hrun. inversion Hrun. reflexivity.
  - simpl in *.
    apply bind_inv_Ok in Hrun as (found & s0 & Hget & Hrun).
    rewrite (bind_Ok _ _ _ _ _ Hget).
    destruct found as [gvg|]; [| discriminate].
    apply bind_inv_Ok in Hrun as ([] & s2 & Hcheck & Hrun).
    rewrite (bind_Ok _ _ _ _ _ Hcheck).
    apply bind_inv_Ok in Hrun as ([] & s3 & Hsettle & Hrun).
    rewrite (bind_Ok _ _ _ _ _ Hsettle).
    apply IH. exact Hrun.
Qed.

(** Before the upgrade a run succeeds only over groups that exist and have
    the caller's provider among their secondaries. *)
Lemma settleGVGs_Ok_permitted (sp : StorageProvider.t) (order : list Z) (s s' : State) :
  (forall g, preserves gvgs (SettleAndDistributeGVG g)) ->
  settleGVGs false (Some sp) order s = (Ok tt, s') ->
  forall id, id ∈ order ->
    exists gvg, gvgs s !! id = Some gvg
                /\ StorageProvider.Id sp ∈ GlobalVirtualGroup.SecondarySpIds gvg.
Proof.
  intros Hframe. revert s.
  induction order as [|gvgID order IH]; intros s Hrun id Hin.
  - apply elem_of_nil in Hin. contradiction.
  - simpl in Hrun. unfold bind at 1 in Hrun. unfold GetGVG, gets in Hrun.
    destruct (gvgs s !! gvgID) as [gvg|] eqn:Hgvg; [| discriminate].
    unfold bind at 1 in Hrun. simpl in Hrun.
    destruct (permitted (GlobalVirtualGroup.SecondarySpIds gvg) (StorageProvider.Id sp))
      eqn:Hpermitted; [| discriminate].
    simpl in Hrun. unfold bind at 1 in Hrun.
    destruct (reportAs ErrSettleFailed (SettleAndDistributeGVG gvg) s)
      as [[[]|e|msg] s1] eqn:Hsettle; try discriminate.
    apply elem_of_cons in Hin as [-> | Hin].
    + exists gvg. split; [exact Hgvg |]. apply permitted_elem. exact Hpermitted.
    + apply reportAs_Ok in Hsettle.
      pose proof (Hframe gvg s) as Hkeep. rewrite Hsettle in Hkeep. simpl in Hkeep.
      rewrite <- Hkeep. apply (IH s1 Hrun id Hin).
Qed.

(** After the upgrade the provider pointer is not read. *)
Lemma settleGVGs_upgraded_any_sp (sp sp' : option StorageProvider.t) (order : list Z) :
  settleGVGs true sp order = settleGVGs true sp' order.
Proof.
  induction order as [|gvgID order IH]; simpl; [reflexivity |].
  rewrite IH. reflexivity.
Qed.

(** The errors a run can return. *)
Lemma settleGVGs_Err (p : bool) (sp : option StorageProvider.t)
    (order : list Z) (s s' : State) (e : Error) :
  settleGVGs p sp order s = (Err e, s') -> e = ErrGVGNotExist \/ e = ErrSettleFailed.
Proof.
  revert s. induction order as [|gvgID order IH]; intros s Hrun.
  - discriminate.
  - simpl in Hrun.
    apply bind_inv_Err in Hrun as [Hget | (found & s0 & Hget & Hrun)];
      [discriminate |].
    destruct found as [gvg|]; [| inversion Hrun; left; reflexivity].
    apply bind_inv_Err in Hrun as [Hcheck | ([] & s1 & Hcheck & Hrun)].
    + right. destruct p; simpl in Hcheck; [discriminate |].
      destruct sp as [sp0|]; [| discriminate].
      destruct (permitted _ _); inversion Hcheck. reflexivity.
    + apply bind_inv_Err in Hrun as [Hsettle | ([] & s2 & Hsettle & Hrun)].
      * right. apply (reportAs_Err_inv _ _ _ _ _ Hsettle).
      * apply (IH s2 Hrun).
Qed.

(** [Settle] on an explicit group-id set. *)
Lemma Settle_group_set_run (order : list Z) (req : MsgSettle.t) (s : State) :
  MsgSettle.GlobalVirtualGroupFamilyId req = NoSpecifiedFamilyId ->
  Settle order req s =
    if upgraded s Pampas then settleGVGs true None order s
    else match resolveProvider s (MsgSettle.StorageProvider req) with
         | None => (Err ErrStorageProviderNotFound, s)
         | Some sp => settleGVGs false (Some sp) order s
         end.
Proof.
  intros Hfamily. unfold Settle. unfold bind at 1. unfold IsUpgraded, gets.
  rewrite Hfamily. simpl negb.
  destruct (upgraded s Pampas); simpl.
  - reflexivity.
  - unfold bind. rewrite lookupByOperatorOrFunding_resolves.
    destruct (resolveProvider s (MsgSettle.StorageProvider req)); reflexivity.
Qed.

End SettleProperties.

(** C9: Settle over an explicit group-id set, for any order in which the
    runtime ranges over the id map.  Every requested id is visited exactly
    once.  Before the Pampas upgrade a success means that the caller
    resolved to a provider that is a secondary provider of every named
    group.  After the upgrade the caller is not looked at.  When the
    settlement of one group fails, the handler returns SettleFailed at
    once, and the only errors it ever returns are provider-not-found,
    group-not-found and SettleFailed. *)
Theorem Settle_group_set
    `{Collaborators} (req : MsgSettle.t) (s : State) (order : list Z) :
  MsgSettle.GlobalVirtualGroupFamilyId req = NoSpecifiedFamilyId ->
  rangeOrder (buildIdSet (MsgSettle.GlobalVirtualGroupIds req)) order ->
  (NoDup order /\ forall id, id ∈ order <-> id ∈ MsgSettle.GlobalVirtualGroupIds req)
  /\ (upgraded s Pampas = false ->
      (forall g, preserves gvgs (SettleAndDistributeGVG g)) ->
      forall s', Settle order req s = (Ok tt, s') ->
      exists sp,
        resolveProvider s (MsgSettle.StorageProvider req) = Some sp
        /\ forall id, id ∈ MsgSettle.GlobalVirtualGroupIds req ->
             exists gvg,
               gvgs s !! id = Some gvg
               /\ StorageProvider.Id sp ∈ GlobalVirtualGroup.SecondarySpIds gvg)
  /\ (upgraded s Pampas = true ->
      forall caller,
        Settle order
          (MsgSettle.mk caller (MsgSettle.GlobalVirtualGroupFamilyId req)
             (MsgSettle.GlobalVirtualGroupIds req)) s
        = Settle order req s)
  /\ (forall done gvgID todo s1 gvg e s2,
        order = done ++ gvgID :: todo ->
        Settle done req s = (Ok tt, s1) ->
        gvgs s1 !! gvgID = Some gvg ->
        upgraded s Pampas = true
        \/ (exists sp,
              resolveProvider s (MsgSettle.StorageProvider req) = Some sp
              /\ StorageProvider.Id sp ∈ GlobalVirtualGroup.SecondarySpIds gvg) ->
        SettleAndDistributeGVG gvg s1 = (Err e, s2) ->
        Settle order req s = (Err ErrSettleFailed, s2))
  /\ (forall e s', Settle order req s = (Err e, s') ->
        e = ErrStorageProviderNotFound \/ e = ErrGVGNotExist \/ e = ErrSettleFailed).
Proof.
  intros Hfamily Horder.
  split; [| split; [| split; [| split]]].
  - apply rangeOrder_dedup. exact Horder.
  - intros Hold Hframe s' Hok.
    rewrite (Settle_group_set_run order req s Hfamily), Hold in Hok.
    destruct (resolveProvider s (MsgSettle.StorageProvider req)) as [sp|];
      [| discriminate].
    exists sp. split; [reflexivity |].
    intros id Hin. apply (settleGVGs_Ok_permitted sp order s s' Hframe Hok).
    apply (rangeOrder_dedup _ _ Horder). exact Hin.
  - intros Hnew caller.
    rewrite !Settle_group_set_run by assumption. rewrite Hnew. reflexivity.
  - intros done gvgID todo s1 gvg e s2 -> Hdone Hgvg Hpermitted Hsettle.
    rewrite (Settle_group_set_run _ req s Hfamily).
    rewrite (Settle_group_set_run done req s Hfamily) in Hdone.
    destruct (upgraded s Pampas) eqn:Hup.
    + rewrite (settleGVGs_app _ _ _ _ _ _ Hdone).
      rewrite (settleGVGs_cons _ _ _ _ _ gvg Hgvg) by (left; reflexivity).
      apply bind_Err. apply (reportAs_Err _ e). exact Hsettle.
    + destruct Hpermitted as [Habsurd | (sp & Hsp & Hin)]; [discriminate |].
      rewrite Hsp in *.
      rewrite (settleGVGs_app _ _ _ _ _ _ Hdone).
      rewrite (settleGVGs_cons _ _ _ _ _ gvg Hgvg) by (right; exists sp; tauto).
      apply bind_Err. apply (reportAs_Err _ e). exact Hsettle.
  - intros e s' Herr.
    rewrite (Settle_group_set_run order req s Hfamily) in Herr.
    destruct (upgraded s Pampas).
    + right. apply (settleGVGs_Err _ _ _ _ _ _ Herr).
    + destruct (resolveProvider s (MsgSettle.StorageProvider req)).
      * right. apply (settleGVGs_Err _ _ _ _ _ _ Herr).
      * inversion Herr. left. reflexivity.
Qed.

(** C9 on the old chain with a group whose settlement fails: the caller,
    provider 2, is a secondary provider of both groups and names group 1
    twice; group 1 is settled, the settlement of group 2 fails, and the
    handler returns SettleFailed. *)
Lemma Settle_group_set_witness :
  @Settle Scenario.keepers [1; 2] (MsgSettle.mk "operator2" 0 [1; 2; 1])
     Scenario.settleChain
  = (Err ErrSettleFailed, Scenario.settleChain).
Proof.
  assert (Horder : rangeOrder (buildIdSet [1; 2; 1]) [1; 2]).
  { unfold rangeOrder.
    replace (elements (buildIdSet [1; 2; 1])) with [2; 1] by (vm_compute; reflexivity).
    apply perm_swap. }
  destruct (@Settle_group_set Scenario.keepers
              (MsgSettle.mk "operator2" 0 [1; 2; 1]) Scenario.settleChain [1; 2]
              eq_refl Horder) as (_ & _ & _ & Habort & _).
  apply (Habort [1] 2 [] Scenario.settleChain Scenario.gvg2
           (ErrCollaborator "nothing to distribute")).
  - reflexivity.
  - vm_compute. reflexivity.
  - vm_compute. reflexivity.
  - right. exists Scenario.sp2. split; [vm_compute; reflexivity |].
    simpl. apply elem_of_cons. left. reflexivity.
  - reflexivity.
Defined.

(** * Further properties of the handlers *)

(** ** Errors and what they leave behind *)

Section ErrorReasoning.

Lemma fails_only_ret {A} (P : Error -> Prop) (a : A) : fails_only P (ret a).
Proof. intros s e s' Hrun. discriminate. Qed.

Lemma fails_only_panic {A} (P : Error -> Prop) (msg : string) : fails_only P (@panic A msg).
Proof. intros s e s' Hrun. discriminate. Qed.

Lemma fails_only_gets {A} (P : Error -> Prop) (g : State -> A) : fails_only P (gets g).
Proof. intros s e s' Hrun. discriminate. Qed.

Lemma fails_only_modify (P : Error -> Prop) (g : State -> State) : fails_only P (modify g).
Proof. intros s e s' Hrun. discriminate. Qed.

Lemma fails_only_fail {A} (P : Error -> Prop) (e : Error) : P e -> fails_only P (@fail A e).
Proof. intros HP s e' s' Hrun. inversion Hrun; subst. exact HP. Qed.

Lemma fails_only_bind {A C} (P : Error -> Prop) (c : M A) (k : A -> M C) :
  fails_only P c -> (forall a, fails_only P (k a)) -> fails_only P (bind c k).
Proof.
  intros Hc Hk s e s' Hrun.
  apply bind_inv_Err in Hrun as [Hrun | (a & s1 & _ & Hrun)].
  - apply (Hc _ _ _ Hrun).
  - apply (Hk _ _ _ _ Hrun).
Qed.

Lemma fails_only_weaken {A} (P Q : Error -> Prop) (c : M A) :
  (forall e, P e -> Q e) -> fails_only P c -> fails_only Q c.
Proof. intros HPQ Hc s e s' Hrun. apply HPQ, (Hc _ _ _ Hrun). Qed.

Lemma keeps_on_error_of_preserves {A B} (f : State -> B) (c : M A) :
  preserves f c -> keeps_on_error f c.
Proof. intros Hc s e s' Hrun. apply (preserves_Ok f c s s' _ Hc Hrun). Qed.

(** An error after a step that kept [f]. *)
Lemma keeps_on_error_bind {A B C} (f : State -> B) (c : M A) (k : A -> M C) :
  preserves f c -> (forall a, keeps_on_error f (k a)) -> keeps_on_error f (bind c k).
Proof.
  intros Hc Hk s e s' Hrun.
  apply bind_inv_Err in Hrun as [Hrun | (a & s1 & Hstep & Hrun)].
  - apply (preserves_Ok f c s s' _ Hc Hrun).
  - rewrite (Hk _ _ _ _ Hrun). apply (preserves_Ok f c s s1 _ Hc Hstep).
Qed.

(** A step that may write, followed by steps that return no error. *)
Lemma keeps_on_error_last {A B C} (f : State -> B) (c : M A) (k : A -> M C) :
  keeps_on_error f c -> (forall a, fails_only (fun _ => False) (k a)) ->
  keeps_on_error f (bind c k).
Proof.
  intros Hc Hk s e s' Hrun.
  apply bind_inv_Err in Hrun as [Hrun | (a & s1 & _ & Hrun)].
  - apply (Hc _ _ _ Hrun).
  - destruct (Hk _ _ _ _ Hrun).
Qed.

End ErrorReasoning.

Lemma NewCoins_fails_only (P : Error -> Prop) (denom : string) (amount : Z) :
  fails_only P (NewCoins denom amount).
Proof.
  unfold NewCoins. destruct (amount <? 0); [apply fails_only_panic |].
  destruct (amount =? 0); apply fails_only_ret.
Qed.

Lemma sendCoins_error (from to : Account) (coins : list Coin.t)
    (b : gmap (Account * string) Z) (e : Error) :
  sendCoins from to coins b = inl e -> e = ErrInsufficientFunds.
Proof.
  revert b. induction coins as [|c coins IH]; intros b; simpl; [discriminate |].
  destruct (sendCoin from to c b) as [e'|b1] eqn:Hsend.
  - intros Heq. inversion Heq; subst e'. unfold sendCoin in Hsend.
    destruct (_ <? _); inversion Hsend. reflexivity.
  - apply IH.
Qed.

Lemma SendCoins_fails_only (P : Error -> Prop) (from to : Account) (coins : list Coin.t) :
  P ErrInsufficientFunds -> fails_only P (SendCoins from to coins).
Proof.
  intros HP s e s'. unfold SendCoins.
  destruct (sendCoins from to coins (balances s)) as [e'|b] eqn:Hsend; [| discriminate].
  intros Heq. inversion Heq; subst. rewrite (sendCoins_error _ _ _ _ _ Hsend). exact HP.
Qed.

Lemma SendCoins_atomic (from to : Account) (coins : list Coin.t) :
  keeps_on_error (fun s => s) (SendCoins from to coins).
Proof.
  intros s e s'. unfold SendCoins.
  destruct (sendCoins from to coins (balances s)); [| discriminate].
  intros Heq. inversion Heq. reflexivity.
Qed.

Lemma EmitTypedEvents_fails_only (P : Error -> Prop) (e : Event) :
  fails_only P (EmitTypedEvents e).
Proof. apply fails_only_modify. Qed.

(** Walks down a handler and leaves the errors it can return to be shown
    to satisfy the predicate. *)
Ltac errors :=
  repeat first
    [ apply fails_only_ret | apply fails_only_panic | apply fails_only_gets
    | apply fails_only_modify | apply NewCoins_fails_only
    | apply SendCoins_fails_only
    | apply fails_only_fail
    | apply fails_only_bind; [| intros ?]
    | match goal with
      | |- fails_only _ (if ?b then _ else _) => destruct b
      | |- fails_only _ (match ?x with _ => _ end) => destruct x
      end ].

(** ** Deposit: refusals and escrow *)

Lemma Deposit_no_provider (req : MsgDeposit.t) (s : State) :
  resolveProvider s (MsgDeposit.StorageProvider req) = None ->
  Deposit req s = (Err ErrStorageProviderNotFound, s).
Proof.
  intros Hsp. unfold Deposit.
  rewrite (bind_Ok _ _ _ _ _ (lookupByOperatorOrFunding_resolves _ s)), Hsp.
  reflexivity.
Qed.

Lemma Deposit_no_group (req : MsgDeposit.t) (s : State) (sp : StorageProvider.t) :
  resolveProvider s (MsgDeposit.StorageProvider req) = Some sp ->
  gvgs s !! MsgDeposit.GlobalVirtualGroupId req = None ->
  Deposit req s = (Err ErrGVGNotExist, s).
Proof.
  intros Hsp Hgvg. unfold Deposit.
  rewrite (bind_Ok _ _ _ _ _ (lookupByOperatorOrFunding_resolves _ s)), Hsp.
  unfold bind, GetGVG, gets. rewrite Hgvg. reflexivity.
Qed.

Lemma Deposit_wrong_denom (req : MsgDeposit.t) (s : State)
    (sp : StorageProvider.t) (gvg : GlobalVirtualGroup.t) :
  resolveProvider s (MsgDeposit.StorageProvider req) = Some sp ->
  gvgs s !! MsgDeposit.GlobalVirtualGroupId req = Some gvg ->
  Params.DepositDenom (params s) <> Coin.Denom (MsgDeposit.Deposit req) ->
  Deposit req s = (Err ErrInvalidDenom, s).
Proof.
  intros Hsp Hgvg Hdenom. unfold Deposit.
  rewrite (bind_Ok _ _ _ _ _ (lookupByOperatorOrFunding_resolves _ s)), Hsp.
  unfold bind, GetGVG, DepositDenomForGVG, gets. rewrite Hgvg. cbn beta iota.
  rewrite (eqb_string_false _ _ Hdenom). reflexivity.
Qed.

(** The only error of the payment is the bank's, and it comes before any
    write. *)
Lemma payDeposit_Err (sp : StorageProvider.t) (gvg : GlobalVirtualGroup.t)
    (denom : string) (amount : Z) (s s' : State) (e : Error) :
  payDeposit sp gvg denom amount s = (Err e, s') ->
  e = ErrInsufficientFunds /\ s' = s /\ 0 < amount
  /\ balanceOf (balances s) (UserAccount (StorageProvider.FundingAddress sp)) denom < amount.
Proof.
  unfold payDeposit. intros Hrun.
  apply bind_inv_Err in Hrun as [Hsend | ([] & s1 & Hsend & Hrest)].
  - destruct (Z.lt_trichotomy amount 0) as [Hneg | [Hzero | Hpos]].
    + rewrite sendAmount_negative in Hsend by assumption. discriminate.
    + subst amount. rewrite sendAmount_zero in Hsend. discriminate.
    + destruct (Z.lt_ge_cases
                  (balanceOf (balances s) (UserAccount (StorageProvider.FundingAddress sp)) denom)
                  amount) as [Hlow | Hhigh].
      * rewrite sendAmount_insufficient in Hsend by assumption.
        injection Hsend as <- <-. split; [reflexivity |]. split; [reflexivity |].
        split; [exact Hpos | exact Hlow].
      * destruct (sendAmount_sufficient
                    (UserAccount (StorageProvider.FundingAddress sp))
                    (ModuleAccount ModuleName) denom amount s)
          as (b' & Hok & _); [discriminate | assumption | assumption |].
        rewrite Hok in Hsend. discriminate.
  - exfalso. revert Hrest. unfold bind, IntAdd.
    destruct (fitsInt _); simpl; discriminate.
Qed.

(** X1: Deposit checks, in this order, that the caller resolves to a
    provider, that the group exists, that the coin has the deposit
    denomination and that the funding account holds the amount; each
    failure has its own error, and whatever error Deposit returns, the
    state is exactly as it was before the call. *)
Theorem Deposit_refusals (req : MsgDeposit.t) (s : State) :
  (resolveProvider s (MsgDeposit.StorageProvider req) = None ->
     Deposit req s = (Err ErrStorageProviderNotFound, s))
  /\ (forall sp,
        resolveProvider s (MsgDeposit.StorageProvider req) = Some sp ->
        (gvgs s !! MsgDeposit.GlobalVirtualGroupId req = None ->
           Deposit req s = (Err ErrGVGNotExist, s))
        /\ (forall gvg,
              gvgs s !! MsgDeposit.GlobalVirtualGroupId req = Some gvg ->
              (Params.DepositDenom (params s) <> Coin.Denom (MsgDeposit.Deposit req) ->
                 Deposit req s = (Err ErrInvalidDenom, s))
              /\ (Params.DepositDenom (params s) = Coin.Denom (MsgDeposit.Deposit req) ->
                  0 < Coin.Amount (MsgDeposit.Deposit req) ->
                  balanceOf (balances s)
                    (UserAccount (StorageProvider.FundingAddress sp))
                    (Params.DepositDenom (params s))
                  < Coin.Amount (MsgDeposit.Deposit req) ->
                  Deposit req s = (Err ErrInsufficientFunds, s))))
  /\ (forall e s',
        Deposit req s = (Err e, s') ->
        s' = s
        /\ (e = ErrStorageProviderNotFound \/ e = ErrGVGNotExist
            \/ e = ErrInvalidDenom \/ e = ErrInsufficientFunds)).
Proof.
  split; [apply Deposit_no_provider |]. split.
  - intros sp Hsp. split; [apply (Deposit_no_group req s sp Hsp) |].
    intros gvg Hgvg. split; [apply (Deposit_wrong_denom req s sp gvg Hsp Hgvg) |].
    intros Hdenom Hpos Hlow.
    rewrite (Deposit_run req s sp gvg Hsp Hgvg Hdenom).
    unfold payDeposit.
    apply bind_Err. apply sendAmount_insufficient; assumption.
  - intros e s' Herr.
    destruct (resolveProvider s (MsgDeposit.StorageProvider req)) as [sp|] eqn:Hsp.
    + destruct (gvgs s !! MsgDeposit.GlobalVirtualGroupId req) as [gvg|] eqn:Hgvg.
      * destruct (decide (Params.DepositDenom (params s)
                          = Coin.Denom (MsgDeposit.Deposit req))) as [Hdenom | Hdenom].
        -- rewrite (Deposit_run req s sp gvg Hsp Hgvg Hdenom) in Herr.
           apply payDeposit_Err in Herr as (-> & -> & _). tauto.
        -- rewrite (Deposit_wrong_denom req s sp gvg Hsp Hgvg Hdenom) in Herr.
           inversion Herr. tauto.
      * rewrite (Deposit_no_group req s sp Hsp Hgvg) in Herr. inversion Herr. tauto.
    + rewrite (Deposit_no_provider req s Hsp) in Herr. inversion Herr. tauto.
Qed.

Lemma payDeposit_Ok (sp : StorageProvider.t) (gvg : GlobalVirtualGroup.t)
    (denom : string) (amount : Z) (s s' : State) :
  payDeposit sp gvg denom amount s = (Ok tt, s') ->
  exists b',
    transferred (balances s) b'
      (UserAccount (StorageProvider.FundingAddress sp)) (ModuleAccount ModuleName)
      denom amount
    /\ s' = set_events
              (events s ++
               [EventUpdateGlobalVirtualGroup
                  (GlobalVirtualGroup.Id gvg) (GlobalVirtualGroup.PrimarySpId gvg)
                  (GlobalVirtualGroup.StoredSize gvg)
                  (GlobalVirtualGroup.TotalDeposit gvg + amount)
                  (GlobalVirtualGroup.SecondarySpIds gvg)])
              (set_gvgs
                 (<[GlobalVirtualGroup.Id gvg :=
                      GlobalVirtualGroup.withTotalDeposit
                        (GlobalVirtualGroup.TotalDeposit gvg + amount) gvg]> (gvgs s))
                 (set_balances b' s)).
Proof.
  unfold payDeposit. intros Hrun.
  apply bind_inv_Ok in Hrun as ([] & s1 & Hsend & Hrest).
  apply sendAmount_Ok in Hsend as (_ & Hs1 & Hmoved); [| discriminate].
  exists (balances s1). split; [exact Hmoved |].
  revert Hrest. unfold bind, IntAdd.
  destruct (fitsInt _); simpl; [| discriminate].
  intros Heq. inversion Heq. rewrite Hs1. reflexivity.
Qed.

(** X2: a successful Deposit moves exactly the deposited amount from the
    provider's funding account to the module pool, adds the same amount to
    the recorded total deposit of the group, appends one update event that
    carries the new total, and changes nothing else. *)
Theorem Deposit_escrow (req : MsgDeposit.t) (s s' : State) :
  Deposit req s = (Ok tt, s') ->
  exists sp gvg b',
    resolveProvider s (MsgDeposit.StorageProvider req) = Some sp
    /\ gvgs s !! MsgDeposit.GlobalVirtualGroupId req = Some gvg
    /\ transferred (balances s) b'
         (UserAccount (StorageProvider.FundingAddress sp)) (ModuleAccount ModuleName)
         (Params.DepositDenom (params s)) (Coin.Amount (MsgDeposit.Deposit req))
    /\ s' = set_events
              (events s ++
               [EventUpdateGlobalVirtualGroup
                  (GlobalVirtualGroup.Id gvg) (GlobalVirtualGroup.PrimarySpId gvg)
                  (GlobalVirtualGroup.StoredSize gvg)
                  (GlobalVirtualGroup.TotalDeposit gvg
                   + Coin.Amount (MsgDeposit.Deposit req))
                  (GlobalVirtualGroup.SecondarySpIds gvg)])
              (set_gvgs
                 (<[GlobalVirtualGroup.Id gvg :=
                      GlobalVirtualGroup.withTotalDeposit
                        (GlobalVirtualGroup.TotalDeposit gvg
                         + Coin.Amount (MsgDeposit.Deposit req)) gvg]> (gvgs s))
                 (set_balances b' s)).
Proof.
  intros Hok.
  assert (Hok1 : (Deposit req s).1 = Ok tt) by (rewrite Hok; reflexivity).
  destruct (Deposit_Ok_inv req s Hok1) as (sp & gvg & Hsp & Hgvg & Hdenom).
  rewrite (Deposit_run req s sp gvg Hsp Hgvg Hdenom) in Hok.
  apply payDeposit_Ok in Hok as (b' & Hmoved & Hs').
  exists sp, gvg, b'. split; [exact Hsp |]. split; [exact Hgvg |].
  split; [exact Hmoved | exact Hs'].
Qed.

(** ** Withdraw: refusals and frame *)

(** As [frame], for a component given by its two frame equations. *)
Ltac frame_by Hbalances Hevents :=
  repeat first
    [ apply preserves_ret | apply preserves_fail | apply preserves_panic
    | apply preserves_gets | apply NewCoins_preserves
    | apply SendCoins_preserves; exact Hbalances
    | apply EmitTypedEvents_preserves; exact Hevents
    | apply preserves_bind; [| intros ?]
    | match goal with
      | |- preserves _ (if ?b then _ else _) => destruct b
      | |- preserves _ (match ?x with _ => _ end) => destruct x
      end ].

Lemma state_but_balances_and_events (s s' : State) :
  set_events [] (set_balances ∅ s') = set_events [] (set_balances ∅ s) ->
  s' = set_events (events s') (set_balances (balances s') s).
Proof.
  destruct s, s'. simpl. intros Heq. inversion Heq. reflexivity.
Qed.

Section WithdrawFurther.

Context `{Collaborators}.

Lemma Withdraw_keeps {B} (f : State -> B) (req : MsgWithdraw.t) :
  (forall b s, f (set_balances b s) = f s) ->
  (forall l s, f (set_events l s) = f s) ->
  preserves f (Withdraw req).
Proof.
  intros Hbalances Hevents. unfold Withdraw, lookupByOperatorOrFunding.
  frame_by Hbalances Hevents.
Qed.

Lemma payWithdrawal_Err (req : MsgWithdraw.t) (sp : StorageProvider.t)
    (gvg : GlobalVirtualGroup.t) (denom : string) (w : Z) (s s' : State) (e : Error) :
  payWithdrawal req sp gvg denom w s = (Err e, s') ->
  e = ErrInsufficientFunds /\ s' = s.
Proof.
  unfold payWithdrawal. intros Hrun.
  apply bind_inv_Err in Hrun as [Hsend | ([] & s1 & _ & Hrest)]; [| discriminate].
  unfold sendAmount in Hsend.
  apply bind_inv_Err in Hsend as [Hcoins | (coins & s1 & Hcoins & Hsend)].
  - exfalso. apply (NewCoins_fails_only (fun _ => False) _ _ _ _ _ Hcoins).
  - pose proof (preserves_Ok (fun s => s) _ _ _ _ (NewCoins_preserves _ _ _) Hcoins) as Hs1.
    simpl in Hs1. subst s1. split.
    + apply (SendCoins_fails_only (fun e => e = ErrInsufficientFunds) _ _ _ eq_refl _ _ _ Hsend).
    + apply (SendCoins_atomic _ _ _ _ _ _ Hsend).
Qed.

Lemma Withdraw_not_primary (req : MsgWithdraw.t) (s : State)
    (sp : StorageProvider.t) (gvg : GlobalVirtualGroup.t) :
  resolveProvider s (MsgWithdraw.StorageProvider req) = Some sp ->
  gvgs s !! MsgWithdraw.GlobalVirtualGroupId req = Some gvg ->
  GlobalVirtualGroup.PrimarySpId gvg <> StorageProvider.Id sp ->
  Withdraw req s = (Err ErrWithdrawFailed, s).
Proof.
  intros Hsp Hgvg Hprimary. unfold Withdraw.
  rewrite (bind_Ok _ _ _ _ _ (lookupByOperatorOrFunding_resolves _ s)), Hsp.
  unfold bind, GetGVG, gets. rewrite Hgvg.
  rewrite (proj2 (Z.eqb_neq _ _) Hprimary). reflexivity.
Qed.

Lemma Withdraw_wrong_denom (req : MsgWithdraw.t) (s : State)
    (sp : StorageProvider.t) (gvg : GlobalVirtualGroup.t) :
  resolveProvider s (MsgWithdraw.StorageProvider req) = Some sp ->
  gvgs s !! MsgWithdraw.GlobalVirtualGroupId req = Some gvg ->
  GlobalVirtualGroup.PrimarySpId gvg = StorageProvider.Id sp ->
  Coin.Denom (MsgWithdraw.Withdraw req) <> Params.DepositDenom (params s) ->
  Withdraw req s = (Err ErrInvalidDenom, s).
Proof.
  intros Hsp Hgvg Hprimary Hdenom. unfold Withdraw.
  rewrite (bind_Ok _ _ _ _ _ (lookupByOperatorOrFunding_resolves _ s)), Hsp.
  unfold bind, GetGVG, DepositDenomForGVG, gets. rewrite Hgvg.
  rewrite Hprimary, Z.eqb_refl. cbn beta iota delta [negb].
  rewrite (eqb_string_false _ _ Hdenom). reflexivity.
Qed.

Lemma Withdraw_no_provider (req : MsgWithdraw.t) (s : State) :
  resolveProvider s (MsgWithdraw.StorageProvider req) = None ->
  Withdraw req s = (Err ErrStorageProviderNotFound, s).
Proof.
  intros Hsp. unfold Withdraw.
  rewrite (bind_Ok _ _ _ _ _ (lookupByOperatorOrFunding_resolves _ s)), Hsp.
  reflexivity.
Qed.

Lemma Withdraw_no_group (req : MsgWithdraw.t) (s : State) (sp : StorageProvider.t) :
  resolveProvider s (MsgWithdraw.StorageProvider req) = Some sp ->
  gvgs s !! MsgWithdraw.GlobalVirtualGroupId req = None ->
  Withdraw req s = (Err ErrGVGNotExist, s).
Proof.
  intros Hsp Hgvg. unfold Withdraw.
  rewrite (bind_Ok _ _ _ _ _ (lookupByOperatorOrFunding_resolves _ s)), Hsp.
  unfold bind, GetGVG, gets. rewrite Hgvg. reflexivity.
Qed.

End WithdrawFurther.

(** X3: Withdraw refuses a caller that resolves to no provider, a group that
    does not exist, a provider that is not the primary provider of the
    group (a secondary provider included) and a coin of another
    denomination, each with its own error; and whatever error Withdraw
    returns, the state is exactly as it was before the call. *)
Theorem Withdraw_refusals `{Collaborators} (req : MsgWithdraw.t) (s : State) :
  (resolveProvider s (MsgWithdraw.StorageProvider req) = None ->
     Withdraw req s = (Err ErrStorageProviderNotFound, s))
  /\ (forall sp,
        resolveProvider s (MsgWithdraw.StorageProvider req) = Some sp ->
        (gvgs s !! MsgWithdraw.GlobalVirtualGroupId req = None ->
           Withdraw req s = (Err ErrGVGNotExist, s))
        /\ (forall gvg,
              gvgs s !! MsgWithdraw.GlobalVirtualGroupId req = Some gvg ->
              (GlobalVirtualGroup.PrimarySpId gvg <> StorageProvider.Id sp ->
                 Withdraw req s = (Err ErrWithdrawFailed, s))
              /\ (GlobalVirtualGroup.PrimarySpId gvg = StorageProvider.Id sp ->
                  Coin.Denom (MsgWithdraw.Withdraw req) <> Params.DepositDenom (params s) ->
                  Withdraw req s = (Err ErrInvalidDenom, s))))
  /\ (forall e s',
        Withdraw req s = (Err e, s') ->
        s' = s
        /\ (e = ErrStorageProviderNotFound \/ e = ErrGVGNotExist
            \/ e = ErrWithdrawFailed \/ e = ErrInvalidDenom
            \/ e = ErrWithdrawAmountTooLarge \/ e = ErrInsufficientFunds)).
Proof.
  split; [apply Withdraw_no_provider |]. split.
  - intros sp Hsp. split; [apply (Withdraw_no_group req s sp Hsp) |].
    intros gvg Hgvg. split.
    + apply (Withdraw_not_primary req s sp gvg Hsp Hgvg).
    + apply (Withdraw_wrong_denom req s sp gvg Hsp Hgvg).
  - intros e s' Herr.
    destruct (resolveProvider s (MsgWithdraw.StorageProvider req)) as [sp|] eqn:Hsp;
      [| rewrite (Withdraw_no_provider req s Hsp) in Herr; inversion Herr; tauto].
    destruct (gvgs s !! MsgWithdraw.GlobalVirtualGroupId req) as [gvg|] eqn:Hgvg;
      [| rewrite (Withdraw_no_group req s sp Hsp Hgvg) in Herr; inversion Herr; tauto].
    destruct (decide (GlobalVirtualGroup.PrimarySpId gvg = StorageProvider.Id sp))
      as [Hprimary | Hprimary];
      [| rewrite (Withdraw_not_primary req s sp gvg Hsp Hgvg Hprimary) in Herr;
         inversion Herr; tauto].
    destruct (decide (Coin.Denom (MsgWithdraw.Withdraw req)
                      = Params.DepositDenom (params s))) as [Hdenom | Hdenom];
      [| rewrite (Withdraw_wrong_denom req s sp gvg Hsp Hgvg Hprimary Hdenom) in Herr;
         inversion Herr; tauto].
    rewrite (Withdraw_run req s sp gvg Hsp Hgvg Hprimary Hdenom) in Herr.
    destruct (availableTokens s gvg <? 0); [discriminate |].
    destruct (Coin.Amount (MsgWithdraw.Withdraw req) =? 0).
    + apply payWithdrawal_Err in Herr as [-> ->]. tauto.
    + destruct (availableTokens s gvg <? Coin.Amount (MsgWithdraw.Withdraw req)).
      * inversion Herr. tauto.
      * apply payWithdrawal_Err in Herr as [-> ->]. tauto.
Qed.

(** X4: on every path, successful or not, Withdraw writes nothing but
    balances and events: the groups, the families, the statistics, the
    provider registry, the parameters and the id sequences are as before. *)
Theorem Withdraw_writes_only_balances_and_events
    `{Collaborators} (req : MsgWithdraw.t) (s : State) :
  (Withdraw req s).2
  = set_events (events (Withdraw req s).2)
      (set_balances (balances (Withdraw req s).2) s).
Proof.
  apply state_but_balances_and_events.
  apply (Withdraw_keeps (fun s => set_events [] (set_balances ∅ s)) req);
    intros; reflexivity.
Qed.

(** ** UpdateParams: all or nothing *)

(** X5: UpdateParams is all or nothing and never panics.  An error leaves
    the state exactly as it was.  A success means that the request came
    from the authority, kept the DepositDenom and passed the validation;
    the stored parameters are then exactly the requested ones, and the only
    other change is one event carrying them, emitted once the Nagqu upgrade
    is active. *)
Theorem UpdateParams_all_or_nothing
    `{Collaborators} (req : MsgUpdateParams.t) (s : State) :
  (forall e s', UpdateParams req s = (Err e, s') -> s' = s)
  /\ (forall s', UpdateParams req s = (Ok tt, s') ->
        authority s = MsgUpdateParams.Authority req
        /\ Params.DepositDenom (MsgUpdateParams.Params req) = Params.DepositDenom (params s)
        /\ validateParams (MsgUpdateParams.Params req) = None
        /\ s' = (if upgraded s Nagqu
                 then set_events (events s ++ [EventParams (MsgUpdateParams.Params req)])
                        (set_params (MsgUpdateParams.Params req) s)
                 else set_params (MsgUpdateParams.Params req) s))
  /\ (authority s = MsgUpdateParams.Authority req ->
      Params.DepositDenom (MsgUpdateParams.Params req) = Params.DepositDenom (params s) ->
      validateParams (MsgUpdateParams.Params req) = None ->
      exists s', UpdateParams req s = (Ok tt, s'))
  /\ (forall msg s', UpdateParams req s <> (Panic msg, s')).
Proof.
  destruct (decide (authority s = MsgUpdateParams.Authority req)) as [Hauth | Hauth].
  2: { rewrite (UpdateParams_wrong_authority req s Hauth).
       split; [intros e s' Heq; inversion Heq; reflexivity |].
       split; [discriminate |]. split; [contradiction | discriminate]. }
  destruct (decide (Params.DepositDenom (MsgUpdateParams.Params req)
                    = Params.DepositDenom (params s))) as [Hdenom | Hdenom].
  2: { rewrite (UpdateParams_denom_differs req s Hauth Hdenom).
       split; [intros e s' Heq; inversion Heq; reflexivity |].
       split; [discriminate |]. split; [contradiction | discriminate]. }
  assert (Hrun : UpdateParams req s =
    match validateParams (MsgUpdateParams.Params req) with
    | Some e => (Err e, s)
    | None =>
        (Ok tt,
         if upgraded s Nagqu
         then set_events (events s ++ [EventParams (MsgUpdateParams.Params req)])
                (set_params (MsgUpdateParams.Params req) s)
         else set_params (MsgUpdateParams.Params req) s)
    end).
  { unfold UpdateParams, bind, GetAuthority, GetParams, SetParams, IsUpgraded,
      EmitTypedEvents, gets, modify, fail, ret. simpl.
    rewrite Hauth, String.eqb_refl. simpl. rewrite Hdenom, String.eqb_refl. simpl.
    destruct (validateParams (MsgUpdateParams.Params req)); simpl; [reflexivity |].
    destruct (upgraded s Nagqu); reflexivity. }
  rewrite Hrun.
  destruct (validateParams (MsgUpdateParams.Params req)) as [err|].
  - split; [intros e s' Heq; inversion Heq; reflexivity |].
    split; [discriminate |]. split; [discriminate | discriminate].
  - split; [discriminate |].
    split; [intros s' Heq; inversion Heq; repeat split; assumption |].
    split; [intros _ _ _; eexists; reflexivity | discriminate].
Qed.

(** ** Exit requests and the number of exiting providers *)


Lemma countExiting_Permutation (l1 l2 : list StorageProvider.t) :
  l1 ≡ₚ l2 -> countExiting l1 = countExiting l2.
Proof. intros Hperm. unfold countExiting. rewrite Hperm. reflexivity. Qed.

Lemma countExiting_values_insert (m : gmap Z StorageProvider.t) (k : Z)
    (sp : StorageProvider.t) :
  m !! k = None ->
  countExiting (map_to_list (<[k := sp]> m)).*2
  = exitingWeight sp + countExiting (map_to_list m).*2.
Proof.
  intros Hfresh.
  rewrite (countExiting_Permutation _ (sp :: (map_to_list m).*2)).
  - rewrite countExiting_cons. reflexivity.
  - rewrite (map_to_list_insert m k sp Hfresh). reflexivity.
Qed.

(** Storing a provider under a key that is taken replaces what the old
    record added to the count by what the new one adds. *)
Lemma countExiting_replace (m : gmap Z StorageProvider.t) (k : Z)
    (old new : StorageProvider.t) :
  m !! k = Some old ->
  countExiting (map_to_list (<[k := new]> m)).*2
  = countExiting (map_to_list m).*2 - exitingWeight old + exitingWeight new.
Proof.
  intros Hold.
  rewrite <- (insert_delete_eq m k new).
  rewrite countExiting_values_insert by apply lookup_delete_eq.
  rewrite <- (insert_delete_id m k old Hold) at 2.
  rewrite countExiting_values_insert by apply lookup_delete_eq.
  lia.
Qed.

Lemma findByOperatorAddr_stored (addr : AccAddress) (m : gmap Z StorageProvider.t)
    (sp : StorageProvider.t) :
  findByOperatorAddr addr m = Some sp ->
  StorageProvider.OperatorAddress sp = addr /\ exists k, m !! k = Some sp.
Proof.
  unfold findByOperatorAddr. intros Hfind.
  destruct (list_find _ _) as [[i sp']|] eqn:Hlist; [| discriminate].
  simpl in Hfind. inversion Hfind; subst sp'.
  apply list_find_Some in Hlist as (Hi & Haddr & _).
  split; [exact Haddr |].
  apply list_elem_of_lookup_2 in Hi.
  apply list_elem_of_fmap in Hi as ([k sp'] & -> & Hin).
  exists k. apply elem_of_map_to_list. exact Hin.
Qed.

Lemma exitCapReached_none_exiting (l : list StorageProvider.t) (n cap : Z) :
  countExiting l = 0 -> exitCapReached l n cap = false.
Proof.
  induction l as [|sp l IH]; [reflexivity |].
  rewrite countExiting_cons. pose proof (countExiting_nonneg l) as Hl.
  simpl. destruct (isExiting sp); [lia |]. intros Hzero. apply IH. lia.
Qed.

(** X6: after an exit request that was granted, the number of exiting
    providers has grown by exactly what the provider's change of status
    adds, and it is at most the cap (at most 1 under a cap of 0): for
    StorageProviderForcedExit, and for StorageProviderExit once the
    Hulunbeier upgrade is active. *)
Theorem exit_requests_respect_cap (s s' : State) :
  registryKeyed s ->
  0 <= Params.SpConcurrentExitNum (params s) < 2 ^ 32 ->
  (forall msg,
     StorageProviderForcedExit msg s = (Ok tt, s') ->
     exists sp,
       findByOperatorAddr (MsgStorageProviderForcedExit.StorageProvider msg) (sps s) = Some sp
       /\ exitingCount s' = exitingCount s - exitingWeight sp + 1
       /\ exitingCount s' <= Z.max 1 (Params.SpConcurrentExitNum (params s)))
  /\ (forall msg,
        StorageProviderExit msg s = (Ok tt, s') ->
        exists sp,
          findByOperatorAddr (MsgStorageProviderExit.StorageProvider msg) (sps s) = Some sp
          /\ exitingCount s' = exitingCount s + 1
          /\ (upgraded s Hulunbeier = true ->
              exitingCount s' <= Z.max 1 (Params.SpConcurrentExitNum (params s)))).
Proof.
  intros Hkeyed Hcap.
  pose proof (exitCapReached_iff (map_to_list (sps s)).*2 _ Hcap) as Hiff.
  fold (exitingCount s) in Hiff.
  split.
  - intros msg Hok.
    destruct (decide (authority s = MsgStorageProviderForcedExit.Authority msg))
      as [Hauth | Hauth];
      [| rewrite (StorageProviderForcedExit_wrong_authority msg s Hauth) in Hok;
         discriminate].
    destruct (findByOperatorAddr (MsgStorageProviderForcedExit.StorageProvider msg) (sps s))
      as [sp|] eqn:Hfound.
    + rewrite (StorageProviderForcedExit_run msg s sp Hauth Hfound) in Hok.
      destruct (exitCapReached _ 0 _) eqn:Hloop; [discriminate |].
      inversion Hok; subst s'; clear Hok.
      exists sp. split; [reflexivity |].
      destruct (findByOperatorAddr_stored _ _ _ Hfound) as (_ & k & Hk).
      pose proof (Hkeyed k sp Hk) as Hid. subst k.
      assert (Hcount : exitingCount
                (afterExitRequest sp STATUS_FORCED_EXITING
                   (EventStorageProviderForcedExit (StorageProvider.Id sp)) s)
              = exitingCount s - exitingWeight sp + 1).
      { unfold exitingCount. simpl.
        rewrite (countExiting_replace _ _ sp _ Hk). reflexivity. }
      split; [exact Hcount |]. rewrite Hcount.
      assert (Hnot : ~ (1 <= exitingCount s
                        /\ Params.SpConcurrentExitNum (params s) <= exitingCount s)).
      { intros Hmet. apply Hiff in Hmet. congruence. }
      assert (Hweight : 0 <= exitingWeight sp <= 1)
        by (unfold exitingWeight; destruct (isExiting sp); lia).
      assert (Hle : exitingWeight sp <= exitingCount s).
      { unfold exitingCount.
        rewrite <- (insert_id (sps s) _ _ Hk).
        rewrite (countExiting_replace _ _ sp sp Hk).
        pose proof (countExiting_nonneg (map_to_list (sps s)).*2).
        rewrite <- (insert_delete_id (sps s) _ sp Hk).
        rewrite countExiting_values_insert by apply lookup_delete_eq.
        pose proof (countExiting_nonneg (map_to_list (delete (StorageProvider.Id sp) (sps s))).*2).
        lia. }
      pose proof (countExiting_nonneg (map_to_list (sps s)).*2) as Hnonneg.
      fold (exitingCount s) in Hnonneg. lia.
    + exfalso. revert Hok.
      unfold StorageProviderForcedExit, bind, GetAuthority,
        GetStorageProviderByOperatorAddr, gets, fail. simpl.
      rewrite Hauth, String.eqb_refl. simpl. rewrite Hfound. discriminate.
  - intros msg Hok.
    destruct (findByOperatorAddr (MsgStorageProviderExit.StorageProvider msg) (sps s))
      as [sp|] eqn:Hfound.
    + destruct (decide (StorageProvider.Status sp = STATUS_IN_SERVICE)) as [Hstatus | Hstatus];
        [| rewrite (StorageProviderExit_not_in_service msg s sp Hfound Hstatus) in Hok;
           discriminate].
      rewrite (StorageProviderExit_run msg s sp Hfound Hstatus) in Hok.
      destruct (findByOperatorAddr_stored _ _ _ Hfound) as (_ & k & Hk).
      pose proof (Hkeyed k sp Hk) as Hid. subst k.
      assert (Hweight : exitingWeight sp = 0).
      { unfold exitingWeight, isExiting. rewrite Hstatus. reflexivity. }
      assert (Hcount : exitingCount
                (afterExitRequest sp STATUS_GRACEFUL_EXITING
                   (EventStorageProviderExit (StorageProvider.Id sp)
                      (StorageProvider.OperatorAddress sp)) s)
              = exitingCount s + 1).
      { unfold exitingCount. simpl.
        rewrite (countExiting_replace _ _ sp _ Hk), Hweight.
        change (exitingWeight (withStatus STATUS_GRACEFUL_EXITING sp)) with 1. lia. }
      exists sp. split; [reflexivity |].
      pose proof (countExiting_nonneg (map_to_list (sps s)).*2) as Hnonneg.
      fold (exitingCount s) in Hnonneg.
      destruct (upgraded s Hulunbeier).
      * destruct (negb _); [discriminate |].
        destruct (exitCapReached _ 0 _) eqn:Hloop; [discriminate |].
        inversion Hok; subst s'. split; [exact Hcount |].
        intros _. rewrite Hcount.
        assert (Hnot : ~ (1 <= exitingCount s
                          /\ Params.SpConcurrentExitNum (params s) <= exitingCount s)).
        { intros Hmet. apply Hiff in Hmet. congruence. }
        lia.
      * inversion Hok; subst s'. split; [exact Hcount | discriminate].
    + exfalso. revert Hok.
      unfold StorageProviderExit, bind, GetStorageProviderByOperatorAddr, gets, fail.
      simpl. rewrite Hfound. discriminate.
Qed.

(** X7: the cap is looked at only when an exiting provider is counted.  When
    no provider is exiting, no exit request is refused for concurrency,
    whatever the configured cap, a cap of zero included. *)
Theorem exit_cap_unused_without_exiting (s : State) :
  exitingCount s = 0 ->
  (forall msg sp,
     authority s = MsgStorageProviderForcedExit.Authority msg ->
     findByOperatorAddr (MsgStorageProviderForcedExit.StorageProvider msg) (sps s) = Some sp ->
     StorageProviderForcedExit msg s =
       (Ok tt, afterExitRequest sp STATUS_FORCED_EXITING
                 (EventStorageProviderForcedExit (StorageProvider.Id sp)) s))
  /\ (forall msg sp,
        findByOperatorAddr (MsgStorageProviderExit.StorageProvider msg) (sps s) = Some sp ->
        StorageProvider.Status sp = STATUS_IN_SERVICE ->
        redundancyBreakCount s (StorageProvider.Id sp) = 0 ->
        StorageProviderExit msg s =
          (Ok tt, afterExitRequest sp STATUS_GRACEFUL_EXITING
                    (EventStorageProviderExit (StorageProvider.Id sp)
                       (StorageProvider.OperatorAddress sp)) s)).
Proof.
  intros Hnone. unfold exitingCount in Hnone. split.
  - intros msg sp Hauth Hfound.
    rewrite (StorageProviderForcedExit_run msg s sp Hauth Hfound).
    rewrite (exitCapReached_none_exiting _ _ _ Hnone). reflexivity.
  - intros msg sp Hfound Hstatus Hbreak.
    rewrite (StorageProviderExit_run msg s sp Hfound Hstatus).
    rewrite Hbreak, (exitCapReached_none_exiting _ _ _ Hnone). simpl.
    destruct (upgraded s Hulunbeier); reflexivity.
Qed.

(** ** CompleteStorageProviderExit: what happens around the transfer *)

Section CompleteExitFurther.

Context `{Collaborators}.

(** The event of a completed exit: with the operator of the message and the
    forced flag once the Hulunbeier upgrade is active, without them
    before. *)
Lemma finishExit_after_transfer (msg : MsgCompleteStorageProviderExit.t)
    (sp : StorageProvider.t) (s : State) (b' : gmap (Account * string) Z) :
  sendAmount (ModuleAccount SpModuleName) (UserAccount (depositRecipient sp))
    (spDepositDenom s) (StorageProvider.TotalDeposit sp) s = (Ok tt, set_balances b' s) ->
  finishExit msg sp s =
    match spKeeperExit (sps s) sp with
    | inl e => (Err e, set_balances b' s)
    | inr registry =>
        (Ok tt,
         set_events
           (events s ++
            [if upgraded s Hulunbeier
             then EventCompleteStorageProviderExit
                    (StorageProvider.Id sp) (MsgCompleteStorageProviderExit.Operator msg)
                    (StorageProvider.OperatorAddress sp) (StorageProvider.TotalDeposit sp)
                    (negb (bool_decide
                             (StorageProvider.Status sp = STATUS_GRACEFUL_EXITING)))
             else EventCompleteStorageProviderExit
                    (StorageProvider.Id sp) (StorageProvider.OperatorAddress sp) ""
                    (StorageProvider.TotalDeposit sp) false])
           (set_sps registry (set_balances b' s)))
    end.
Proof.
  intros Hsend. unfold finishExit.
  rewrite (bind_Ok _ _ s (spDepositDenom s) s) by reflexivity.
  rewrite (bind_Ok _ _ _ _ _ Hsend).
  unfold bind, Exit, IsUpgraded, EmitTypedEvents, gets, modify, ret. simpl.
  destruct (spKeeperExit (sps s) sp); [reflexivity |]. simpl.
  destruct (upgraded s Hulunbeier); reflexivity.
Qed.

Lemma finishExit_transfer (msg : MsgCompleteStorageProviderExit.t)
    (sp : StorageProvider.t) (s s' : State) (o : Outcome unit) :
  finishExit msg sp s = (o, s') ->
  (exists b',
     sendAmount (ModuleAccount SpModuleName) (UserAccount (depositRecipient sp))
       (spDepositDenom s) (StorageProvider.TotalDeposit sp) s = (Ok tt, set_balances b' s)
     /\ transferred (balances s) b'
          (ModuleAccount SpModuleName) (UserAccount (depositRecipient sp))
          (spDepositDenom s) (StorageProvider.TotalDeposit sp))
  \/ (s' = s /\ (o = Err ErrInsufficientFunds \/ o = Panic "negative coin amount")).
Proof.
  intros Hrun.
  destruct (Z.lt_trichotomy (StorageProvider.TotalDeposit sp) 0) as [Hneg | [Hzero | Hpos]].
  - right. unfold finishExit in Hrun.
    rewrite (bind_Ok _ _ s (spDepositDenom s) s) in Hrun by reflexivity.
    rewrite (bind_Panic _ _ _ _ _ (sendAmount_negative _ _ _ _ s Hneg)) in Hrun.
    inversion Hrun. tauto.
  - left. exists (balances s). rewrite Hzero, sendAmount_zero, set_balances_same.
    split; [reflexivity | apply transferred_nothing].
  - destruct (Z.lt_ge_cases
                (balanceOf (balances s) (ModuleAccount SpModuleName) (spDepositDenom s))
                (StorageProvider.TotalDeposit sp)) as [Hlow | Hhigh].
    + right. unfold finishExit in Hrun.
      rewrite (bind_Ok _ _ s (spDepositDenom s) s) in Hrun by reflexivity.
      rewrite (bind_Err _ _ _ _ _ (sendAmount_insufficient _ _ _ _ s Hpos Hlow)) in Hrun.
      inversion Hrun. tauto.
    + left. apply sendAmount_sufficient; [discriminate | assumption | assumption].
Qed.

End CompleteExitFurther.

(** X8: CompleteStorageProviderExit, for a provider in one of the two
    exiting statuses.  The error of the exitability check is returned as it
    is, with the state unchanged.  On success the registry is the one the
    provider keeper's Exit returned, and exactly one event is appended: with
    the operator of the message and the forced flag once the Hulunbeier
    upgrade is active, with the provider's own operator address and no flag
    before.  When the provider keeper's Exit fails, its error is returned
    after the deposit has left the pool: the transfer stays in the
    context. *)
Theorem CompleteStorageProviderExit_outcomes
    `{Collaborators} (msg : MsgCompleteStorageProviderExit.t) (s : State)
    (sp : StorageProvider.t) :
  findByOperatorAddr (MsgCompleteStorageProviderExit.StorageProvider msg) (sps s) = Some sp ->
  StorageProvider.Status sp = STATUS_GRACEFUL_EXITING
  \/ StorageProvider.Status sp = STATUS_FORCED_EXITING ->
  (forall err,
     StorageProviderExitable s (StorageProvider.Id sp) = Some err ->
     CompleteStorageProviderExit msg s = (Err err, s))
  /\ (forall s',
        CompleteStorageProviderExit msg s = (Ok tt, s') ->
        StorageProviderExitable s (StorageProvider.Id sp) = None
        /\ spKeeperExit (sps s) sp = inr (sps s')
        /\ events s'
           = events s ++
             [if upgraded s Hulunbeier
              then EventCompleteStorageProviderExit
                     (StorageProvider.Id sp) (MsgCompleteStorageProviderExit.Operator msg)
                     (StorageProvider.OperatorAddress sp) (StorageProvider.TotalDeposit sp)
                     (bool_decide (StorageProvider.Status sp = STATUS_FORCED_EXITING))
              else EventCompleteStorageProviderExit
                     (StorageProvider.Id sp) (StorageProvider.OperatorAddress sp) ""
                     (StorageProvider.TotalDeposit sp) false])
  /\ (forall e,
        StorageProviderExitable s (StorageProvider.Id sp) = None ->
        spKeeperExit (sps s) sp = inl e ->
        0 <= StorageProvider.TotalDeposit sp
             <= balanceOf (balances s) (ModuleAccount SpModuleName) (spDepositDenom s) ->
        exists s1,
          CompleteStorageProviderExit msg s = (Err e, s1)
          /\ transferred (balances s) (balances s1)
               (ModuleAccount SpModuleName) (UserAccount (depositRecipient sp))
               (spDepositDenom s) (StorageProvider.TotalDeposit sp)
          /\ sps s1 = sps s /\ events s1 = events s).
Proof.
  intros Hfound Hstatus.
  pose proof (CompleteStorageProviderExit_run msg s sp Hfound Hstatus) as Hrun.
  assert (Hflag :
    negb (bool_decide (StorageProvider.Status sp = STATUS_GRACEFUL_EXITING))
    = bool_decide (StorageProvider.Status sp = STATUS_FORCED_EXITING)).
  { destruct Hstatus as [-> | ->]; reflexivity. }
  split; [| split].
  - intros err Hexitable. rewrite Hrun, Hexitable. reflexivity.
  - intros s' Hok. rewrite Hrun in Hok.
    destruct (StorageProviderExitable s (StorageProvider.Id sp)); [discriminate |].
    split; [reflexivity |].
    destruct (finishExit_transfer msg sp s s' _ Hok)
      as [(b' & Hsend & _) | (_ & [Habs | Habs])]; try discriminate.
    rewrite (finishExit_after_transfer msg sp s b' Hsend) in Hok.
    destruct (spKeeperExit (sps s) sp) as [e|registry]; [discriminate |].
    inversion Hok. simpl. rewrite Hflag. split; reflexivity.
  - intros e Hexitable Hexit Hfunds. rewrite Hrun, Hexitable.
    assert (Hsend : exists b',
      sendAmount (ModuleAccount SpModuleName) (UserAccount (depositRecipient sp))
        (spDepositDenom s) (StorageProvider.TotalDeposit sp) s = (Ok tt, set_balances b' s)
      /\ transferred (balances s) b'
           (ModuleAccount SpModuleName) (UserAccount (depositRecipient sp))
           (spDepositDenom s) (StorageProvider.TotalDeposit sp)).
    { destruct (Z.eq_dec (StorageProvider.TotalDeposit sp) 0) as [Hz | Hnz].
      - exists (balances s). rewrite Hz, sendAmount_zero, set_balances_same.
        split; [reflexivity | apply transferred_nothing].
      - apply sendAmount_sufficient; [discriminate | lia | lia]. }
    destruct Hsend as (b' & Hsend & Hmoved).
    rewrite (finishExit_after_transfer msg sp s b' Hsend), Hexit.
    eexists. split; [reflexivity |]. simpl. split; [exact Hmoved |]. split; reflexivity.
Qed.

(** ** Settle: the family branch and the edges of the group-set branch *)

Section SettleFurther.

Context `{Collaborators}.

Lemma reportAs_fails_only {A} (e : Error) (c : M A) :
  fails_only (fun e' => e' = e) (reportAs e c).
Proof. intros s e' s' Hrun. apply (reportAs_Err_inv _ _ _ _ _ Hrun). Qed.

(** [Settle] on a family. *)
Lemma Settle_family_run (order : list Z) (req : MsgSettle.t) (s : State) :
  MsgSettle.GlobalVirtualGroupFamilyId req <> NoSpecifiedFamilyId ->
  Settle order req s =
    if upgraded s Pampas then
      match families s !! MsgSettle.GlobalVirtualGroupFamilyId req with
      | None => (Err ErrGVGFamilyNotExist, s)
      | Some family =>
          match sps s !! GlobalVirtualGroupFamily.PrimarySpId family with
          | None => (Err ErrStorageProviderNotFound, s)
          | Some sp => reportAs ErrSettleFailed (SettleAndDistributeGVGFamily sp family) s
          end
      end
    else
      match resolveProvider s (MsgSettle.StorageProvider req) with
      | None => (Err ErrStorageProviderNotFound, s)
      | Some sp =>
          match families s !! MsgSettle.GlobalVirtualGroupFamilyId req with
          | None => (Err ErrGVGFamilyNotExist, s)
          | Some family =>
              reportAs ErrSettleFailed (SettleAndDistributeGVGFamily sp family) s
          end
      end.
Proof.
  intros Hfamily. unfold Settle. unfold bind at 1. unfold IsUpgraded, gets.
  rewrite (proj2 (Z.eqb_neq _ _) Hfamily). simpl negb. cbv iota.
  destruct (upgraded s Pampas); simpl.
  - unfold bind, GetGVGFamily, GetStorageProvider, gets, fail, ret. simpl.
    destruct (families s !! _) as [family|]; [| reflexivity].
    destruct (sps s !! _) as [sp|]; [| reflexivity].
    destruct (reportAs _ _ s) as [[[]|e|msg] s1]; reflexivity.
  - unfold bind at 1. unfold bind at 1.
    rewrite lookupByOperatorOrFunding_resolves.
    destruct (resolveProvider s (MsgSettle.StorageProvider req)) as [sp|]; [| reflexivity].
    unfold bind, GetGVGFamily, gets, fail, ret. simpl.
    destruct (families s !! _) as [family|]; [| reflexivity].
    destruct (reportAs _ _ s) as [[[]|e|msg] s1]; reflexivity.
Qed.

End SettleFurther.

(** X9: Settle on a family.  The group ids of the request and the iteration
    order play no part.  Before the Pampas upgrade the distribution runs
    for the provider the caller resolves to, and a caller that resolves to
    none is refused even when the family exists; after the upgrade it runs
    for the family's recorded primary provider, whoever calls.  A success
    is a success of the distribution routine, and the only errors returned
    are provider-not-found, family-not-found and SettleFailed. *)
Theorem Settle_family
    `{Collaborators} (req : MsgSettle.t) (s : State) (order : list Z) :
  MsgSettle.GlobalVirtualGroupFamilyId req <> NoSpecifiedFamilyId ->
  (forall order' ids',
     Settle order'
       (MsgSettle.mk (MsgSettle.StorageProvider req)
          (MsgSettle.GlobalVirtualGroupFamilyId req) ids') s
     = Settle order req s)
  /\ (upgraded s Pampas = false ->
      (resolveProvider s (MsgSettle.StorageProvider req) = None ->
         Settle order req s = (Err ErrStorageProviderNotFound, s))
      /\ (forall s', Settle order req s = (Ok tt, s') ->
            exists sp family,
              resolveProvider s (MsgSettle.StorageProvider req) = Some sp
              /\ families s !! MsgSettle.GlobalVirtualGroupFamilyId req = Some family
              /\ SettleAndDistributeGVGFamily sp family s = (Ok tt, s')))
  /\ (upgraded s Pampas = true ->
      (forall caller,
         Settle order
           (MsgSettle.mk caller (MsgSettle.GlobalVirtualGroupFamilyId req)
              (MsgSettle.GlobalVirtualGroupIds req)) s
         = Settle order req s)
      /\ (forall s', Settle order req s = (Ok tt, s') ->
            exists family sp,
              families s !! MsgSettle.GlobalVirtualGroupFamilyId req = Some family
              /\ sps s !! GlobalVirtualGroupFamily.PrimarySpId family = Some sp
              /\ SettleAndDistributeGVGFamily sp family s = (Ok tt, s')))
  /\ (forall e s', Settle order req s = (Err e, s') ->
        e = ErrStorageProviderNotFound \/ e = ErrGVGFamilyNotExist \/ e = ErrSettleFailed).
Proof.
  intros Hfamily.
  pose proof (Settle_family_run order req s Hfamily) as Hrun.
  split; [| split; [| split]].
  - intros order' ids'. rewrite Hrun.
    rewrite (Settle_family_run order' _ s) by exact Hfamily. reflexivity.
  - intros Hold. rewrite Hold in Hrun. split.
    + intros Hnone. rewrite Hrun, Hnone. reflexivity.
    + intros s' Hok. rewrite Hrun in Hok.
      destruct (resolveProvider s (MsgSettle.StorageProvider req)) as [sp|] eqn:Hsp;
        [| discriminate].
      destruct (families s !! _) as [family|] eqn:Hfam; [| discriminate].
      exists sp, family. split; [reflexivity |]. split; [first [reflexivity | exact Hfam] |].
      apply reportAs_Ok in Hok. exact Hok.
  - intros Hnew. rewrite Hnew in Hrun. split.
    + intros caller. rewrite Hrun.
      rewrite (Settle_family_run order _ s) by exact Hfamily. rewrite Hnew. reflexivity.
    + intros s' Hok. rewrite Hrun in Hok.
      destruct (families s !! _) as [family|] eqn:Hfam; [| discriminate].
      destruct (sps s !! _) as [sp|] eqn:Hsp; [| discriminate].
      exists family, sp. split; [first [reflexivity | exact Hfam] |]. split; [first [reflexivity | exact Hsp] |].
      apply reportAs_Ok in Hok. exact Hok.
  - intros e s' Herr. rewrite Hrun in Herr.
    destruct (upgraded s Pampas).
    + destruct (families s !! _) as [family|]; [| inversion Herr; tauto].
      destruct (sps s !! _) as [sp|]; [| inversion Herr; tauto].
      right. right. apply (reportAs_Err_inv _ _ _ _ _ Herr).
    + destruct (resolveProvider s (MsgSettle.StorageProvider req)) as [sp|];
        [| inversion Herr; tauto].
      destruct (families s !! _) as [family|]; [| inversion Herr; tauto].
      right. right. apply (reportAs_Err_inv _ _ _ _ _ Herr).
Qed.

(** X10: the edges of Settle over group ids.  With no family and no group
    id the handler is a no-op: it succeeds and leaves the state as it was,
    for any caller after the Pampas upgrade and for a caller that resolves
    to a provider before it.  And a requested id under which no group is
    stored fails the batch with the group-not-found error, once the groups
    visited before it have been settled. *)
Theorem Settle_group_set_edges
    `{Collaborators} (req : MsgSettle.t) (s : State) (order : list Z) :
  MsgSettle.GlobalVirtualGroupFamilyId req = NoSpecifiedFamilyId ->
  rangeOrder (buildIdSet (MsgSettle.GlobalVirtualGroupIds req)) order ->
  (MsgSettle.GlobalVirtualGroupIds req = [] ->
     order = []
     /\ Settle order req s =
          if upgraded s Pampas then (Ok tt, s)
          else match resolveProvider s (MsgSettle.StorageProvider req) with
               | Some _ => (Ok tt, s)
               | None => (Err ErrStorageProviderNotFound, s)
               end)
  /\ (forall done gvgID todo s1,
        order = done ++ gvgID :: todo ->
        Settle done req s = (Ok tt, s1) ->
        gvgs s1 !! gvgID = None ->
        Settle order req s = (Err ErrGVGNotExist, s1)).
Proof.
  intros Hfamily Horder. split.
  - intros Hempty. rewrite Hempty in Horder. unfold rangeOrder in Horder.
    assert (Hnil : order = []).
    { apply Permutation_nil_r. rewrite Horder.
      change (buildIdSet []) with (∅ : gset Z). rewrite elements_empty. reflexivity. }
    split; [exact Hnil |].
    rewrite (Settle_group_set_run order req s Hfamily), Hnil. simpl.
    destruct (upgraded s Pampas); [reflexivity |].
    destruct (resolveProvider s (MsgSettle.StorageProvider req)); reflexivity.
  - intros done gvgID todo s1 -> Hdone Hgvg.
    rewrite (Settle_group_set_run _ req s Hfamily).
    rewrite (Settle_group_set_run done req s Hfamily) in Hdone.
    assert (Hloop : forall p sp,
      settleGVGs p sp done s = (Ok tt, s1) ->
      settleGVGs p sp (done ++ gvgID :: todo) s = (Err ErrGVGNotExist, s1)).
    { intros p sp Hprefix. rewrite (settleGVGs_app _ _ _ _ _ _ Hprefix). simpl.
      unfold bind at 1. unfold GetGVG, gets. rewrite Hgvg. reflexivity. }
    destruct (upgraded s Pampas); [apply Hloop; exact Hdone |].
    destruct (resolveProvider s (MsgSettle.StorageProvider req)) as [sp|];
      [apply Hloop; exact Hdone | discriminate].
Qed.

(** ** The delete and swap handlers *)

(** A call followed by [ret tt] is the call. *)
Lemma then_ret (c : M unit) (s : State) : (c ;; ret tt) s = c s.
Proof. unfold bind, ret. destruct (c s) as [[[]|e|msg] s1]; reflexivity. Qed.

(** A call followed by one event. *)
Lemma then_emit (c : M unit) (e : Event) (s : State) :
  (c ;; EmitTypedEvents e ;; ret tt) s =
    match c s with
    | (Ok _, s1) => (Ok tt, set_events (events s1 ++ [e]) s1)
    | (Err err, s1) => (Err err, s1)
    | (Panic msg, s1) => (Panic msg, s1)
    end.
Proof. unfold bind, EmitTypedEvents, modify, ret. destruct (c s) as [[[]|err|msg] s1]; reflexivity. Qed.

Lemma int64_small (z : Z) : - 2 ^ 63 <= z < 2 ^ 63 -> int64 z = z.
Proof. intros Hz. unfold int64. rewrite Z.mod_small; lia. Qed.

Lemma int64_wrap (z : Z) : 2 ^ 63 <= z < 2 ^ 63 + 2 ^ 64 -> int64 z = z - 2 ^ 64.
Proof.
  intros Hz. unfold int64.
  replace (z + 2 ^ 63) with ((z + 2 ^ 63 - 2 ^ 64) + 1 * 2 ^ 64) by lia.
  rewrite Z.mod_add by lia. rewrite Z.mod_small; lia.
Qed.

(** The expiration time [ReserveSwapIn] computes. *)
Lemma expiration_cases (now period : Z) :
  0 <= now < 2 ^ 63 -> 0 <= period < 2 ^ 64 ->
  int64 (now + int64 period) =
    if now + period <? 2 ^ 63 then now + period else now + period - 2 ^ 64.
Proof.
  intros Hnow Hperiod.
  destruct (Z.ltb_spec (now + period) (2 ^ 63)) as [Hfits|Hover].
  - rewrite (int64_small period) by lia. apply int64_small. lia.
  - destruct (Z.lt_ge_cases period (2 ^ 63)) as [Hp|Hp].
    + rewrite (int64_small period) by lia. apply int64_wrap. lia.
    + rewrite (int64_wrap period) by lia.
      rewrite int64_small by lia. lia.
Qed.

Section SwapFurther.

Context `{SwapKeepers}.

Lemma DeleteGlobalVirtualGroup_run (req : MsgDeleteGlobalVirtualGroup.t) (s : State) :
  DeleteGlobalVirtualGroup req s =
    match findByOperatorAddr (MsgDeleteGlobalVirtualGroup.StorageProvider req) (sps s) with
    | None => (Err ErrStorageProviderNotFound, s)
    | Some sp =>
        match DeleteGVG sp (MsgDeleteGlobalVirtualGroup.GlobalVirtualGroupId req) s with
        | (Ok _, s1) =>
            (Ok tt, set_events (events s1 ++
               [EventDeleteGlobalVirtualGroup
                  (MsgDeleteGlobalVirtualGroup.GlobalVirtualGroupId req)
                  (StorageProvider.Id sp)]) s1)
        | (Err err, s1) => (Err err, s1)
        | (Panic msg, s1) => (Panic msg, s1)
        end
    end.
Proof.
  unfold DeleteGlobalVirtualGroup. unfold bind at 1.
  unfold GetStorageProviderByOperatorAddr, gets.
  destruct (findByOperatorAddr _ (sps s)) as [sp|]; [| reflexivity].
  apply then_emit.
Qed.

Lemma SwapOut_run (msg : MsgSwapOut.t) (s : State) :
  SwapOut msg s =
    match findByOperatorAddr (MsgSwapOut.StorageProvider msg) (sps s) with
    | None => (Err ErrStorageProviderNotFound, s)
    | Some sp =>
        match sps s !! MsgSwapOut.SuccessorSpId msg with
        | None => (Err ErrStorageProviderNotFound, s)
        | Some successorSP =>
            if StorageProvider.IsInService successorSP then
              match VerifySignature (StorageProvider.ApprovalAddress successorSP)
                      (Keccak256 (GetApprovalBytes msg))
                      (MsgSwapOut.SuccessorSpApprovalSig msg) with
              | Some err => (Err err, s)
              | None =>
                  match SetSwapOutInfo (MsgSwapOut.GlobalVirtualGroupFamilyId msg)
                          (MsgSwapOut.GlobalVirtualGroupIds msg)
                          (StorageProvider.Id sp) (StorageProvider.Id successorSP) s with
                  | (Ok _, s1) =>
                      (Ok tt, set_events (events s1 ++
                         [EventSwapOut (StorageProvider.Id sp)
                            (MsgSwapOut.GlobalVirtualGroupFamilyId msg)
                            (MsgSwapOut.GlobalVirtualGroupIds msg)
                            (StorageProvider.Id successorSP)]) s1)
                  | (Err err, s1) => (Err err, s1)
                  | (Panic m, s1) => (Panic m, s1)
                  end
              end
            else (Err ErrStorageProviderNotInService, s)
        end
    end.
Proof.
  unfold SwapOut. unfold bind at 1.
  unfold GetStorageProviderByOperatorAddr, gets.
  destruct (findByOperatorAddr _ (sps s)) as [sp|]; [| reflexivity].
  unfold bind at 1. unfold GetStorageProvider, gets.
  destruct (sps s !! _) as [successorSP|]; [| reflexivity].
  destruct (StorageProvider.IsInService successorSP); [| reflexivity].
  simpl negb. cbv iota.
  destruct (VerifySignature _ _ _) as [err|]; [reflexivity |].
  apply then_emit.
Qed.

Lemma ReserveSwapIn_run (msg : MsgReserveSwapIn.t) (s : State) :
  ReserveSwapIn msg s =
    match findByOperatorAddr (MsgReserveSwapIn.StorageProvider msg) (sps s) with
    | None => (Err ErrStorageProviderNotFound, s)
    | Some successorSP =>
        if StorageProvider.Id successorSP =? MsgReserveSwapIn.TargetSpId msg
        then (Err ErrSwapInFailed, s)
        else
          match sps s !! MsgReserveSwapIn.TargetSpId msg with
          | None => (Err ErrStorageProviderNotFound, s)
          | Some targetSP =>
              let expirationTime :=
                int64 (blockTime s + int64 (Params.SwapInValidityPeriod (params s))) in
              match SwapIn (MsgReserveSwapIn.GlobalVirtualGroupFamilyId msg)
                      (MsgReserveSwapIn.GlobalVirtualGroupId msg)
                      (StorageProvider.Id successorSP) targetSP expirationTime s with
              | (Ok _, s1) =>
                  (Ok tt, set_events (events s1 ++
                     [EventReserveSwapIn (StorageProvider.Id successorSP)
                        (MsgReserveSwapIn.GlobalVirtualGroupFamilyId msg)
                        (MsgReserveSwapIn.GlobalVirtualGroupId msg)
                        (MsgReserveSwapIn.TargetSpId msg) (uint64 expirationTime)]) s1)
              | (Err err, s1) => (Err err, s1)
              | (Panic m, s1) => (Panic m, s1)
              end
          end
    end.
Proof.
  unfold ReserveSwapIn. unfold bind at 1.
  unfold GetStorageProviderByOperatorAddr, gets.
  destruct (findByOperatorAddr _ (sps s)) as [successorSP|]; [| reflexivity].
  destruct (StorageProvider.Id successorSP =? _); [reflexivity |].
  unfold bind at 1. unfold GetStorageProvider, gets.
  destruct (sps s !! _) as [targetSP|]; [| reflexivity].
  unfold bind at 1. unfold bind at 1. unfold SwapInValidityPeriod, gets.
  apply then_emit.
Qed.

End SwapFurther.

(** X11: the handlers of the swap-out side resolve their sender by operator
    address only; an address that is no provider's operator address, a
    funding address included, gets the provider-not-found error and leaves
    the state as it was.  CancelSwapOut and CompleteSwapOut do nothing else
    than call the keeper for the provider found, the first with the
    provider's id and the second with the provider: the result of the
    handler is the result of that call, with no event added. *)
Theorem swap_out_senders `{SwapKeepers} (s : State) :
  (forall msg,
     CancelSwapOut msg s =
       match findByOperatorAddr (MsgCancelSwapOut.StorageProvider msg) (sps s) with
       | None => (Err ErrStorageProviderNotFound, s)
       | Some sp =>
           DeleteSwapOutInfo (MsgCancelSwapOut.GlobalVirtualGroupFamilyId msg)
             (MsgCancelSwapOut.GlobalVirtualGroupIds msg) (StorageProvider.Id sp) s
       end)
  /\ (forall msg,
        CompleteSwapOut msg s =
          match findByOperatorAddr (MsgCompleteSwapOut.StorageProvider msg) (sps s) with
          | None => (Err ErrStorageProviderNotFound, s)
          | Some sp =>
              KeeperCompleteSwapOut (MsgCompleteSwapOut.GlobalVirtualGroupFamilyId msg)
                (MsgCompleteSwapOut.GlobalVirtualGroupIds msg) sp s
          end)
  /\ (forall msg,
        findByOperatorAddr (MsgDeleteGlobalVirtualGroup.StorageProvider msg) (sps s) = None ->
        DeleteGlobalVirtualGroup msg s = (Err ErrStorageProviderNotFound, s))
  /\ (forall msg,
        findByOperatorAddr (MsgSwapOut.StorageProvider msg) (sps s) = None ->
        SwapOut msg s = (Err ErrStorageProviderNotFound, s)).
Proof.
  split; [| split; [| split]].
  - intros msg. unfold CancelSwapOut. unfold bind at 1.
    unfold GetStorageProviderByOperatorAddr, gets.
    destruct (findByOperatorAddr _ (sps s)) as [sp|]; [apply then_ret | reflexivity].
  - intros msg. unfold CompleteSwapOut. unfold bind at 1.
    unfold GetStorageProviderByOperatorAddr, gets.
    destruct (findByOperatorAddr _ (sps s)) as [sp|]; [apply then_ret | reflexivity].
  - intros msg Hnone. rewrite DeleteGlobalVirtualGroup_run, Hnone. reflexivity.
  - intros msg Hnone. rewrite SwapOut_run, Hnone. reflexivity.
Qed.

(** X12: the handlers of the swap-in side resolve their sender by operator
    address only, with the provider-not-found error and an unchanged state
    for any other address.  CancelSwapIn and CompleteSwapIn do nothing else
    than call the keeper for the provider found, the first with the
    provider's id and the second with the provider: the result of the
    handler is the result of that call, with no event added. *)
Theorem swap_in_senders `{SwapKeepers} (s : State) :
  (forall msg,
     CancelSwapIn msg s =
       match findByOperatorAddr (MsgCancelSwapIn.StorageProvider msg) (sps s) with
       | None => (Err ErrStorageProviderNotFound, s)
       | Some successorSP =>
           DeleteSwapInInfo (MsgCancelSwapIn.GlobalVirtualGroupFamilyId msg)
             (MsgCancelSwapIn.GlobalVirtualGroupId msg) (StorageProvider.Id successorSP) s
       end)
  /\ (forall msg,
        CompleteSwapIn msg s =
          match findByOperatorAddr (MsgCompleteSwapIn.StorageProvider msg) (sps s) with
          | None => (Err ErrStorageProviderNotFound, s)
          | Some successorSP =>
              KeeperCompleteSwapIn (MsgCompleteSwapIn.GlobalVirtualGroupFamilyId msg)
                (MsgCompleteSwapIn.GlobalVirtualGroupId msg) successorSP s
          end)
  /\ (forall msg,
        findByOperatorAddr (MsgReserveSwapIn.StorageProvider msg) (sps s) = None ->
        ReserveSwapIn msg s = (Err ErrStorageProviderNotFound, s)).
Proof.
  split; [| split].
  - intros msg. unfold CancelSwapIn. unfold bind at 1.
    unfold GetStorageProviderByOperatorAddr, gets.
    destruct (findByOperatorAddr _ (sps s)) as [sp|]; [apply then_ret | reflexivity].
  - intros msg. unfold CompleteSwapIn. unfold bind at 1.
    unfold GetStorageProviderByOperatorAddr, gets.
    destruct (findByOperatorAddr _ (sps s)) as [sp|]; [apply then_ret | reflexivity].
  - intros msg Hnone. rewrite ReserveSwapIn_run, Hnone. reflexivity.
Qed.

(** X13: what SwapOut checks before it records anything.  The successor
    must be registered and in service (a successor in maintenance is
    refused), and the approval signature must verify against the
    successor's approval address; each refusal leaves the state as it was.
    A SwapOut that succeeds has passed these checks, has recorded the swap
    for the sender's and the successor's ids, and has emitted one event. *)
Theorem SwapOut_outcomes `{SwapKeepers} (msg : MsgSwapOut.t) (s : State) :
  (forall sp,
     findByOperatorAddr (MsgSwapOut.StorageProvider msg) (sps s) = Some sp ->
     (sps s !! MsgSwapOut.SuccessorSpId msg = None ->
        SwapOut msg s = (Err ErrStorageProviderNotFound, s))
     /\ (forall successorSP,
           sps s !! MsgSwapOut.SuccessorSpId msg = Some successorSP ->
           (StorageProvider.Status successorSP <> STATUS_IN_SERVICE ->
              SwapOut msg s = (Err ErrStorageProviderNotInService, s))
           /\ (forall err,
                 StorageProvider.Status successorSP = STATUS_IN_SERVICE ->
                 VerifySignature (StorageProvider.ApprovalAddress successorSP)
                   (Keccak256 (GetApprovalBytes msg))
                   (MsgSwapOut.SuccessorSpApprovalSig msg) = Some err ->
                 SwapOut msg s = (Err err, s))))
  /\ (forall s',
        SwapOut msg s = (Ok tt, s') ->
        exists sp successorSP s1,
          findByOperatorAddr (MsgSwapOut.StorageProvider msg) (sps s) = Some sp
          /\ sps s !! MsgSwapOut.SuccessorSpId msg = Some successorSP
          /\ StorageProvider.Status successorSP = STATUS_IN_SERVICE
          /\ VerifySignature (StorageProvider.ApprovalAddress successorSP)
               (Keccak256 (GetApprovalBytes msg))
               (MsgSwapOut.SuccessorSpApprovalSig msg) = None
          /\ SetSwapOutInfo (MsgSwapOut.GlobalVirtualGroupFamilyId msg)
               (MsgSwapOut.GlobalVirtualGroupIds msg)
               (StorageProvider.Id sp) (StorageProvider.Id successorSP) s = (Ok tt, s1)
          /\ s' = set_events (events s1 ++
                    [EventSwapOut (StorageProvider.Id sp)
                       (MsgSwapOut.GlobalVirtualGroupFamilyId msg)
                       (MsgSwapOut.GlobalVirtualGroupIds msg)
                       (StorageProvider.Id successorSP)]) s1).
Proof.
  split.
  - intros sp Hsp. split.
    + intros Hnone. rewrite SwapOut_run, Hsp, Hnone. reflexivity.
    + intros successorSP Hsucc. split.
      * intros Hstatus. rewrite SwapOut_run, Hsp, Hsucc.
        unfold StorageProvider.IsInService.
        rewrite bool_decide_eq_false_2 by exact Hstatus. reflexivity.
      * intros err Hstatus Hsig. rewrite SwapOut_run, Hsp, Hsucc.
        unfold StorageProvider.IsInService.
        rewrite bool_decide_eq_true_2 by exact Hstatus. rewrite Hsig. reflexivity.
  - intros s' Hok. rewrite SwapOut_run in Hok.
    destruct (findByOperatorAddr _ (sps s)) as [sp|]; [| discriminate].
    destruct (sps s !! _) as [successorSP|]; [| discriminate].
    unfold StorageProvider.IsInService in Hok.
    case_bool_decide as Hstatus; [| discriminate].
    destruct (VerifySignature _ _ _) as [err|] eqn:Hsig; [discriminate |].
    destruct (SetSwapOutInfo _ _ _ _ s) as [[[]|err|m] s1] eqn:Hset; try discriminate.
    injection Hok as <-.
    exists sp, successorSP, s1.
    split; [reflexivity |]. split; [reflexivity |]. split; [exact Hstatus |].
    split; [first [reflexivity | exact Hsig] |].
    split; [first [reflexivity | exact Hset] | reflexivity].
Qed.

(** X14: what ReserveSwapIn refuses.  A provider cannot reserve a swap
    with itself as the target (the swap-in-failed error, whether or not the
    target is registered otherwise), and the target must be registered;
    both refusals leave the state as it was.  A reservation that succeeds
    was made by a registered provider for a registered target other than
    itself. *)
Theorem ReserveSwapIn_refusals `{SwapKeepers} (msg : MsgReserveSwapIn.t) (s : State) :
  (forall successorSP,
     findByOperatorAddr (MsgReserveSwapIn.StorageProvider msg) (sps s) = Some successorSP ->
     (StorageProvider.Id successorSP = MsgReserveSwapIn.TargetSpId msg ->
        ReserveSwapIn msg s = (Err ErrSwapInFailed, s))
     /\ (StorageProvider.Id successorSP <> MsgReserveSwapIn.TargetSpId msg ->
         sps s !! MsgReserveSwapIn.TargetSpId msg = None ->
         ReserveSwapIn msg s = (Err ErrStorageProviderNotFound, s)))
  /\ (forall s',
        ReserveSwapIn msg s = (Ok tt, s') ->
        exists successorSP targetSP,
          findByOperatorAddr (MsgReserveSwapIn.StorageProvider msg) (sps s)
            = Some successorSP
          /\ StorageProvider.Id successorSP <> MsgReserveSwapIn.TargetSpId msg
          /\ sps s !! MsgReserveSwapIn.TargetSpId msg = Some targetSP).
Proof.
  split.
  - intros successorSP Hsp. split.
    + intros Hself. rewrite ReserveSwapIn_run, Hsp.
      rewrite (proj2 (Z.eqb_eq _ _) Hself). reflexivity.
    + intros Hother Hnone. rewrite ReserveSwapIn_run, Hsp.
      rewrite (proj2 (Z.eqb_neq _ _) Hother), Hnone. reflexivity.
  - intros s' Hok. rewrite ReserveSwapIn_run in Hok.
    destruct (findByOperatorAddr _ (sps s)) as [successorSP|]; [| discriminate].
    destruct (Z.eqb_spec (StorageProvider.Id successorSP)
                (MsgReserveSwapIn.TargetSpId msg)) as [Hself|Hother]; [discriminate |].
    destruct (sps s !! _) as [targetSP|]; [| discriminate].
    exists successorSP, targetSP.
    split; [reflexivity |]. split; [exact Hother | reflexivity].
Qed.

(** X15: the expiration time of a reservation.  ReserveSwapIn hands the
    keeper the block time plus the validity period, computed in int64:
    when the sum fits in int64 the reservation and the event carry exactly
    that sum; when it does not, the time handed over has wrapped around by
    2^64 and lies before the block time.  The handler succeeds exactly when
    the keeper's SwapIn does, and then adds one event to the keeper's
    state; an error of SwapIn is returned as it is. *)
Theorem ReserveSwapIn_expiration
    `{SwapKeepers} (msg : MsgReserveSwapIn.t) (s : State)
    (successorSP targetSP : StorageProvider.t) :
  findByOperatorAddr (MsgReserveSwapIn.StorageProvider msg) (sps s) = Some successorSP ->
  StorageProvider.Id successorSP <> MsgReserveSwapIn.TargetSpId msg ->
  sps s !! MsgReserveSwapIn.TargetSpId msg = Some targetSP ->
  0 <= blockTime s < 2 ^ 63 ->
  0 <= Params.SwapInValidityPeriod (params s) < 2 ^ 64 ->
  exists expirationTime,
    (blockTime s + Params.SwapInValidityPeriod (params s) < 2 ^ 63 ->
       expirationTime = blockTime s + Params.SwapInValidityPeriod (params s)
       /\ uint64 expirationTime = blockTime s + Params.SwapInValidityPeriod (params s))
    /\ (2 ^ 63 <= blockTime s + Params.SwapInValidityPeriod (params s) ->
        expirationTime = blockTime s + Params.SwapInValidityPeriod (params s) - 2 ^ 64
        /\ expirationTime < blockTime s)
    /\ (forall s',
          ReserveSwapIn msg s = (Ok tt, s') <->
          exists s1,
            SwapIn (MsgReserveSwapIn.GlobalVirtualGroupFamilyId msg)
              (MsgReserveSwapIn.GlobalVirtualGroupId msg)
              (StorageProvider.Id successorSP) targetSP expirationTime s = (Ok tt, s1)
            /\ s' = set_events (events s1 ++
                      [EventReserveSwapIn (StorageProvider.Id successorSP)
                         (MsgReserveSwapIn.GlobalVirtualGroupFamilyId msg)
                         (MsgReserveSwapIn.GlobalVirtualGroupId msg)
                         (MsgReserveSwapIn.TargetSpId msg) (uint64 expirationTime)]) s1)
    /\ (forall e s',
          ReserveSwapIn msg s = (Err e, s') <->
          SwapIn (MsgReserveSwapIn.GlobalVirtualGroupFamilyId msg)
            (MsgReserveSwapIn.GlobalVirtualGroupId msg)
            (StorageProvider.Id successorSP) targetSP expirationTime s = (Err e, s')).
Proof.
  intros Hsp Hother Htarget Hnow Hperiod.
  exists (int64 (blockTime s + int64 (Params.SwapInValidityPeriod (params s)))).
  pose proof (expiration_cases _ _ Hnow Hperiod) as Hexp.
  pose proof (ReserveSwapIn_run msg s) as Hrun.
  rewrite Hsp, (proj2 (Z.eqb_neq _ _) Hother), Htarget in Hrun. cbv zeta in Hrun.
  split; [| split; [| split]].
  - intros Hfits. rewrite Hexp.
    rewrite (proj2 (Z.ltb_lt _ _)) by exact Hfits.
    split; [reflexivity |]. unfold uint64. apply Z.mod_small. lia.
  - intros Hover. rewrite Hexp.
    rewrite (proj2 (Z.ltb_ge _ _)) by exact Hover.
    split; [reflexivity | lia].
  - intros s'. rewrite Hrun.
    destruct (SwapIn _ _ _ _ _ s) as [[[]|err|m] s1]; split.
    + intros Hok. injection Hok as <-. exists s1. split; reflexivity.
    + intros (s2 & Hs2 & ->). injection Hs2 as <-. reflexivity.
    + discriminate.
    + intros (s2 & Hs2 & _). discriminate.
    + discriminate.
    + intros (s2 & Hs2 & _). discriminate.
  - intros e s'. rewrite Hrun.
    destruct (SwapIn _ _ _ _ _ s) as [[[]|err|m] s1]; split;
      first [discriminate | intros Heq; exact Heq].
Qed.

(** X16: DeleteGlobalVirtualGroup deletes through the keeper on behalf of
    the provider whose operator address sent the message.  It succeeds
    exactly when the keeper's DeleteGVG does and then adds one event,
    carrying the requested group id and that provider's id, to the
    keeper's state; an error of DeleteGVG is returned as it is, with no
    event added by the handler. *)
Theorem DeleteGlobalVirtualGroup_outcomes
    `{SwapKeepers} (req : MsgDeleteGlobalVirtualGroup.t) (s : State)
    (sp : StorageProvider.t) :
  findByOperatorAddr (MsgDeleteGlobalVirtualGroup.StorageProvider req) (sps s) = Some sp ->
  (forall s',
     DeleteGlobalVirtualGroup req s = (Ok tt, s') <->
     exists s1,
       DeleteGVG sp (MsgDeleteGlobalVirtualGroup.GlobalVirtualGroupId req) s = (Ok tt, s1)
       /\ s' = set_events (events s1 ++
                 [EventDeleteGlobalVirtualGroup
                    (MsgDeleteGlobalVirtualGroup.GlobalVirtualGroupId req)
                    (StorageProvider.Id sp)]) s1)
  /\ (forall e s',
        DeleteGlobalVirtualGroup req s = (Err e, s') <->
        DeleteGVG sp (MsgDeleteGlobalVirtualGroup.GlobalVirtualGroupId req) s = (Err e, s')).
Proof.
  intros Hsp. pose proof (DeleteGlobalVirtualGroup_run req s) as Hrun.
  rewrite Hsp in Hrun. split.
  - intros s'. rewrite Hrun.
    destruct (DeleteGVG _ _ s) as [[[]|err|m] s1]; split.
    + intros Hok. injection Hok as <-. exists s1. split; reflexivity.
    + intros (s2 & Hs2 & ->). injection Hs2 as <-. reflexivity.
    + discriminate.
    + intros (s2 & Hs2 & _). discriminate.
    + discriminate.
    + intros (s2 & Hs2 & _). discriminate.
  - intros e s'. rewrite Hrun.
    destruct (DeleteGVG _ _ s) as [[[]|err|m] s1]; split;
      first [discriminate | intros Heq; exact Heq].
Qed.

(** ** CreateGlobalVirtualGroup: validation, effects and refusals *)

(** The set-based scan of the secondary ids succeeds exactly on a list
    without repetition (and without an id of the set it starts from);
    otherwise it reports a duplicate.  It never writes. *)
Lemma checkDuplicateSecondarySP_Ok_iff (ids : list Z) (spIdSet : gset Z) (s : State) :
  checkDuplicateSecondarySP ids spIdSet s = (Ok tt, s)
  <-> NoDup ids /\ forall id, id ∈ ids -> id ∉ spIdSet.
Proof.
  revert spIdSet. induction ids as [|id ids IH]; intros spIdSet; simpl.
  - split; [| reflexivity]. intros _. split; [constructor |].
    intros id Hin. apply elem_of_nil in Hin. destruct Hin.
  - case_bool_decide as Hseen.
    + split; [discriminate |]. intros [_ Hfresh]. exfalso.
      apply (Hfresh id); [left | exact Hseen].
    + rewrite IH. split.
      * intros [Hnodup Hfresh]. split.
        -- constructor; [| exact Hnodup]. intros Hin.
           apply (Hfresh id Hin). apply elem_of_union. left.
           apply elem_of_singleton. reflexivity.
        -- intros x Hx. apply elem_of_cons in Hx as [-> | Hx]; [exact Hseen |].
           intros Hin. apply (Hfresh x Hx). apply elem_of_union. right. exact Hin.
      * intros [Hnodup Hfresh]. apply NoDup_cons in Hnodup as [Hnotin Hnodup].
        split; [exact Hnodup |]. intros x Hx Hin.
        apply elem_of_union in Hin as [Hin | Hin].
        -- apply elem_of_singleton in Hin. subst x. contradiction.
        -- apply (Hfresh x); [right; exact Hx | exact Hin].
Qed.

Lemma checkDuplicateSecondarySP_cases (ids : list Z) (spIdSet : gset Z) (s : State) :
  checkDuplicateSecondarySP ids spIdSet s = (Ok tt, s)
  \/ checkDuplicateSecondarySP ids spIdSet s = (Err ErrDuplicateSecondarySP, s).
Proof.
  revert spIdSet. induction ids as [|id ids IH]; intros spIdSet; simpl.
  - left. reflexivity.
  - case_bool_decide; [right; reflexivity | apply IH].
Qed.

Lemma mayServe_iff (sp : StorageProvider.t) :
  negb (StorageProvider.IsInService sp) && negb (StorageProvider.IsInMaintenance sp) = false
  <-> mayServe sp.
Proof.
  unfold StorageProvider.IsInService, StorageProvider.IsInMaintenance, mayServe.
  repeat case_bool_decide; simpl; split; intros Hx; try tauto; try discriminate.
Qed.

(** The loop over the secondary ids succeeds exactly when every id is
    registered with a provider that may serve; it returns the ids of those
    providers and, for each, its counters with one more secondary. *)
Lemma collectSecondarySPs_Ok_inv (ids acc : list Z) (sts : list GVGStatisticsWithinSP.t)
    (s s' : State) (r : list Z * list GVGStatisticsWithinSP.t) :
  collectSecondarySPs ids acc sts s = (Ok r, s') ->
  s' = s
  /\ exists ssps,
       Forall2 (fun id ssp => sps s !! id = Some ssp /\ mayServe ssp) ids ssps
       /\ r = (acc ++ map StorageProvider.Id ssps,
               sts ++ map (fun ssp => GVGStatisticsWithinSP.incSecondaryCount
                                        (statOrNew s (StorageProvider.Id ssp))) ssps).
Proof.
  revert acc sts. induction ids as [|id ids IH]; intros acc sts; simpl.
  - intros Hrun. inversion Hrun; subst. split; [reflexivity |].
    exists []. split; [constructor |]. simpl. rewrite !app_nil_r. reflexivity.
  - unfold bind at 1. unfold GetStorageProvider, gets.
    destruct (sps s !! id) as [ssp|] eqn:Hssp; [| discriminate].
    destruct (negb _ && negb _) eqn:Hserve; [discriminate |].
    unfold bind at 1. unfold GetOrCreateGVGStatisticsWithinSP, gets.
    intros Hrun. destruct (IH _ _ Hrun) as (Hs & ssps & Hall & Hr).
    split; [exact Hs |]. exists (ssp :: ssps). split.
    + constructor; [| exact Hall]. split; [exact Hssp | apply mayServe_iff, Hserve].
    + rewrite Hr. simpl. rewrite <- !app_assoc. reflexivity.
Qed.

Lemma collectSecondarySPs_Ok (ids acc : list Z) (sts : list GVGStatisticsWithinSP.t)
    (s : State) (ssps : list StorageProvider.t) :
  Forall2 (fun id ssp => sps s !! id = Some ssp /\ mayServe ssp) ids ssps ->
  collectSecondarySPs ids acc sts s
  = (Ok (acc ++ map StorageProvider.Id ssps,
         sts ++ map (fun ssp => GVGStatisticsWithinSP.incSecondaryCount
                                  (statOrNew s (StorageProvider.Id ssp))) ssps), s).
Proof.
  intros Hall. revert acc sts.
  induction Hall as [|id ssp ids ssps [Hssp Hserve] Hall IH]; intros acc sts; simpl.
  - rewrite !app_nil_r. reflexivity.
  - unfold bind at 1. unfold GetStorageProvider, gets. rewrite Hssp.
    rewrite (proj2 (mayServe_iff ssp) Hserve).
    unfold bind at 1. unfold GetOrCreateGVGStatisticsWithinSP, gets.
    rewrite IH. rewrite <- !app_assoc. reflexivity.
Qed.

(** The first secondary id that is not registered, or is registered with a
    provider that may not serve, decides the error of the loop. *)
Lemma collectSecondarySPs_Err (good : list Z) (bad : Z) (rest acc : list Z)
    (sts : list GVGStatisticsWithinSP.t) (s : State) (ssps : list StorageProvider.t) :
  Forall2 (fun id ssp => sps s !! id = Some ssp /\ mayServe ssp) good ssps ->
  collectSecondarySPs (good ++ bad :: rest) acc sts s =
    match sps s !! bad with
    | None => (Err ErrStorageProviderNotFound, s)
    | Some ssp =>
        if negb (StorageProvider.IsInService ssp) && negb (StorageProvider.IsInMaintenance ssp)
        then (Err ErrStorageProviderNotInService, s)
        else collectSecondarySPs rest
               (acc ++ map StorageProvider.Id ssps ++ [StorageProvider.Id ssp])
               (sts ++ map (fun ssp => GVGStatisticsWithinSP.incSecondaryCount
                                         (statOrNew s (StorageProvider.Id ssp))) ssps
                    ++ [GVGStatisticsWithinSP.incSecondaryCount
                          (statOrNew s (StorageProvider.Id ssp))]) s
    end.
Proof.
  intros Hall. revert acc sts.
  induction Hall as [|id ssp ids ssps [Hssp Hserve] Hall IH]; intros acc sts; simpl.
  - unfold bind at 1. unfold GetStorageProvider, gets.
    destruct (sps s !! bad) as [ssp|]; [| reflexivity].
    destruct (negb _ && negb _); [reflexivity |].
    unfold bind at 1. unfold GetOrCreateGVGStatisticsWithinSP, gets. reflexivity.
  - unfold bind at 1. unfold GetStorageProvider, gets. rewrite Hssp.
    rewrite (proj2 (mayServe_iff ssp) Hserve).
    unfold bind at 1. unfold GetOrCreateGVGStatisticsWithinSP, gets.
    rewrite IH. destruct (sps s !! bad) as [bsp|]; [| reflexivity].
    destruct (negb _ && negb _); [reflexivity |].
    rewrite <- !app_assoc. reflexivity.
Qed.

Lemma collectSecondarySPs_fails_only (ids acc : list Z) (sts : list GVGStatisticsWithinSP.t) :
  fails_only (fun e => e = ErrStorageProviderNotFound \/ e = ErrStorageProviderNotInService)
    (collectSecondarySPs ids acc sts).
Proof.
  revert acc sts. induction ids as [|id ids IH]; intros acc sts; simpl; errors;
    first [left; reflexivity | right; reflexivity | apply IH].
Qed.

(** In a registry that stores each provider under its own id, the ids the
    loop returns are the requested ones. *)
Lemma registered_ids (s : State) (ids : list Z) (ssps : list StorageProvider.t) :
  registryKeyed s ->
  Forall2 (fun id ssp => sps s !! id = Some ssp /\ mayServe ssp) ids ssps ->
  map StorageProvider.Id ssps = ids.
Proof.
  intros Hkeyed Hall. induction Hall as [|id ssp ids ssps [Hssp _] Hall IH]; simpl.
  - reflexivity.
  - rewrite IH, (Hkeyed _ _ Hssp). reflexivity.
Qed.

Section CreateFurther.

Context `{Collaborators}.

(** What [GetOrCreateEmptyGVGFamily] returns: a fresh, empty family under
    the next family id, or the stored family of the given primary. *)
Lemma GetOrCreateEmptyGVGFamily_Ok (familyID primarySPID : Z) (s s1 : State)
    (family : GlobalVirtualGroupFamily.t) :
  GetOrCreateEmptyGVGFamily familyID primarySPID s = (Ok family, s1) ->
  (familyID = NoSpecifiedFamilyId
   /\ family = GlobalVirtualGroupFamily.mk (familySequence s + 1) primarySPID []
                 (DeriveVirtualPaymentAccount GVGFamilyName (familySequence s + 1))
   /\ s1 = set_familySequence (familySequence s + 1) s)
  \/ (familyID <> NoSpecifiedFamilyId
      /\ families s !! familyID = Some family
      /\ GlobalVirtualGroupFamily.PrimarySpId family = primarySPID
      /\ s1 = s).
Proof.
  unfold GetOrCreateEmptyGVGFamily.
  destruct (Z.eqb_spec familyID NoSpecifiedFamilyId) as [Hnew|Hold].
  - intros Hrun. left. unfold bind, GenNextGVGFamilyID, ret in Hrun.
    inversion Hrun. split; [exact Hnew |]. split; reflexivity.
  - intros Hrun. right. unfold bind, GetGVGFamily, gets in Hrun.
    destruct (families s !! familyID) as [stored|]; [| discriminate].
    destruct (Z.eqb_spec (GlobalVirtualGroupFamily.PrimarySpId stored) primarySPID)
      as [Hown|Hother]; [| discriminate].
    inversion Hrun; subst. split; [exact Hold |]. split; [reflexivity |].
    split; reflexivity.
Qed.

(** Everything a successful creation has checked and written. *)
Lemma CreateGlobalVirtualGroup_Ok_inv
    (req : MsgCreateGlobalVirtualGroup.t) (s s' : State) :
  CreateGlobalVirtualGroup req s = (Ok tt, s') ->
  exists sp ssps family s1 b',
    (upgraded s Pampas = true ->
       Z.of_nat (length (MsgCreateGlobalVirtualGroup.SecondarySpIds req))
         = GetExpectSecondarySPNumForECObject s (blockTime s)
       /\ NoDup (MsgCreateGlobalVirtualGroup.SecondarySpIds req))
    /\ findByOperatorAddr (MsgCreateGlobalVirtualGroup.StorageProvider req) (sps s)
         = Some sp
    /\ mayServe sp
    /\ Forall2 (fun id ssp => sps s !! id = Some ssp /\ mayServe ssp)
         (MsgCreateGlobalVirtualGroup.SecondarySpIds req) ssps
    /\ GetOrCreateEmptyGVGFamily (MsgCreateGlobalVirtualGroup.FamilyId req)
         (StorageProvider.Id sp) s = (Ok family, s1)
    /\ (upgraded s Manchurian = true ->
          checkDuplicateGVG (GlobalVirtualGroupFamily.GlobalVirtualGroupIds family)
            (map StorageProvider.Id ssps) s1 = (Ok tt, s1))
    /\ uint32 (Z.of_nat (length (GlobalVirtualGroupFamily.GlobalVirtualGroupIds family)))
         <= Params.MaxGlobalVirtualGroupNumPerFamily (params s)
    /\ 0 <= Coin.Amount (MsgCreateGlobalVirtualGroup.Deposit req)
    /\ transferred (balances s) b'
         (UserAccount (StorageProvider.FundingAddress sp)) (ModuleAccount ModuleName)
         (Params.DepositDenom (params s))
         (Coin.Amount (MsgCreateGlobalVirtualGroup.Deposit req))
    /\ s' =
       set_events
         (events s ++
          EventCreateGlobalVirtualGroup
            (gvgSequence s + 1) (GlobalVirtualGroupFamily.Id family)
            (StorageProvider.Id sp) (map StorageProvider.Id ssps) 0
            (DeriveVirtualPaymentAccount GVGVirtualPaymentAccountName (gvgSequence s + 1))
            (Coin.Amount (MsgCreateGlobalVirtualGroup.Deposit req))
          :: (if MsgCreateGlobalVirtualGroup.FamilyId req =? NoSpecifiedFamilyId
              then [EventCreateGlobalVirtualGroupFamily
                      (GlobalVirtualGroupFamily.Id family)
                      (GlobalVirtualGroupFamily.PrimarySpId family)
                      (GlobalVirtualGroupFamily.VirtualPaymentAddress family)]
              else []))
         (set_stats
            (foldl (fun m st => <[GVGStatisticsWithinSP.StorageProviderId st := st]> m)
               (stats s)
               (GVGStatisticsWithinSP.incPrimaryCount (statOrNew s (StorageProvider.Id sp))
                :: map (fun ssp => GVGStatisticsWithinSP.incSecondaryCount
                                     (statOrNew s (StorageProvider.Id ssp))) ssps))
            (set_families
               (<[GlobalVirtualGroupFamily.Id family :=
                    GlobalVirtualGroupFamily.AppendGVG family (gvgSequence s + 1)]>
                  (families s))
               (set_gvgs
                  (<[gvgSequence s + 1 :=
                       GlobalVirtualGroup.mk
                         (gvgSequence s + 1) (GlobalVirtualGroupFamily.Id family)
                         (StorageProvider.Id sp) (map StorageProvider.Id ssps) 0
                         (DeriveVirtualPaymentAccount GVGVirtualPaymentAccountName
                            (gvgSequence s + 1))
                         (Coin.Amount (MsgCreateGlobalVirtualGroup.Deposit req))]>
                     (gvgs s))
                  (set_gvgSequence (gvgSequence s + 1) (set_balances b' s1))))).
Proof.
  intros Hok. unfold CreateGlobalVirtualGroup in Hok.
  apply bind_inv_Ok in Hok as (pampas & s0 & Hstep & Hok).
  read_step Hstep.
  apply bind_inv_Ok in Hok as ([] & s0 & Hvalid & Hok).
  assert (Hs0 : s0 = s).
  { apply (preserves_Ok (fun s => s)) in Hvalid; [exact Hvalid |].
    destruct (upgraded s Pampas); frame; apply checkDuplicateSecondarySP_preserves. }
  subst s0.
  apply bind_inv_Ok in Hok as (found & s0 & Hstep & Hok).
  read_step Hstep.
  destruct (findByOperatorAddr _ (sps s)) as [sp|] eqn:Hsp; [| discriminate].
  destruct (negb _ && negb _) eqn:Hserve; [discriminate |].
  apply bind_inv_Ok in Hok as (stat & s0 & Hstep & Hok).
  read_step Hstep.
  apply bind_inv_Ok in Hok as (collected & s0 & Hcollect & Hok).
  apply collectSecondarySPs_Ok_inv in Hcollect as (-> & ssps & Hall & ->).
  cbn [fst snd app] in Hok.
  apply bind_inv_Ok in Hok as (family & s1 & Hfamily & Hok).
  apply bind_inv_Ok in Hok as (manchurian & s0 & Hstep & Hok).
  read_step Hstep.
  apply bind_inv_Ok in Hok as ([] & s0 & Hscan & Hok).
  assert (Hs0 : s0 = s1).
  { apply (preserves_Ok (fun s => s)) in Hscan; [exact Hscan |].
    destruct (upgraded s1 Manchurian); frame; apply checkDuplicateGVG_preserves. }
  subst s0.
  apply bind_inv_Ok in Hok as (maxNum & s0 & Hstep & Hok).
  read_step Hstep.
  destruct (_ <? _) eqn:Hlimit; [discriminate |].
  apply Z.ltb_ge in Hlimit.
  apply bind_inv_Ok in Hok as (denom & s0 & Hstep & Hok).
  read_step Hstep.
  apply bind_inv_Ok in Hok as (coins & s0 & Hcoins & Hok).
  apply bind_inv_Ok in Hok as ([] & s2 & Hsend & Hok).
  assert (Hpay : sendAmount (UserAccount (StorageProvider.FundingAddress sp))
                   (ModuleAccount ModuleName) (Params.DepositDenom (params s1))
                   (Coin.Amount (MsgCreateGlobalVirtualGroup.Deposit req)) s1
                 = (Ok tt, s2)).
  { unfold sendAmount. rewrite (bind_Ok _ _ _ _ _ Hcoins). exact Hsend. }
  apply sendAmount_Ok in Hpay as (Hamount & Hs2 & Hmoved); [| discriminate].
  apply bind_inv_Ok in Hok as (gvgID & s3 & Hstep & Hok).
  read_step Hstep.
  assert (Hsame : upgraded s1 = upgraded s /\ params s1 = params s
                  /\ balances s1 = balances s /\ events s1 = events s
                  /\ stats s1 = stats s /\ families s1 = families s
                  /\ gvgs s1 = gvgs s /\ gvgSequence s1 = gvgSequence s).
  { destruct (GetOrCreateEmptyGVGFamily_Ok _ _ _ _ _ Hfamily)
      as [(_ & _ & ->) | (_ & _ & _ & ->)]; repeat split; reflexivity. }
  destruct Hsame as (Hup & Hparams & Hbal & Hev & Hstats & Hfams & Hgvgs & Hseq).
  exists sp, ssps, family, s1, (balances s2).
  split.
  { intros Hpampas. rewrite Hpampas in Hvalid.
    unfold bind at 1 in Hvalid. unfold gets in Hvalid.
    destruct (Z.eqb_spec
                (Z.of_nat (length (MsgCreateGlobalVirtualGroup.SecondarySpIds req)))
                (GetExpectSecondarySPNumForECObject s (blockTime s))) as [Hlen|Hlen];
      [| discriminate].
    split; [exact Hlen |].
    apply (proj1 (checkDuplicateSecondarySP_Ok_iff _ _ _) Hvalid). }
  split; [reflexivity |].
  split; [apply mayServe_iff, Hserve |].
  split; [exact Hall |].
  split; [exact Hfamily |].
  split.
  { intros Hman. rewrite Hup, Hman in Hscan. exact Hscan. }
  split; [rewrite <- Hparams; exact Hlimit |].
  split; [exact Hamount |].
  split; [rewrite <- Hbal, <- Hparams; exact Hmoved |].
  unfold bind, SetGVG, SetGVGFamily, BatchSetGVGStatisticsWithinSP, EmitTypedEvents,
    modify, ret in Hok.
  rewrite Hs2 in Hok. clear Hs2 Hmoved Hsend.
  destruct (_ =? NoSpecifiedFamilyId); inversion Hok; subst s'; clear Hok;
    destruct s1; simpl in *; subst; rewrite <- ?app_assoc; reflexivity.
Qed.

End CreateFurther.

Section CreateRefusals.

Context `{Collaborators}.

Variable req : MsgCreateGlobalVirtualGroup.t.
Variable s : State.

(** The request passes the checks of lines 57-69. *)
Hypothesis Hvalid :
  upgraded s Pampas = true ->
  Z.of_nat (length (MsgCreateGlobalVirtualGroup.SecondarySpIds req))
    = GetExpectSecondarySPNumForECObject s (blockTime s)
  /\ NoDup (MsgCreateGlobalVirtualGroup.SecondarySpIds req).

Lemma Create_validation_passes :
  (if upgraded s Pampas then
     expectSecondarySPNum <-
       gets (fun s => GetExpectSecondarySPNumForECObject s (blockTime s)) ;;
     if negb (Z.of_nat (length (MsgCreateGlobalVirtualGroup.SecondarySpIds req))
              =? expectSecondarySPNum)
     then fail ErrInvalidSecondarySPCount
     else checkDuplicateSecondarySP (MsgCreateGlobalVirtualGroup.SecondarySpIds req) ∅
   else ret tt) s = (Ok tt, s).
Proof.
  destruct (upgraded s Pampas); [| reflexivity].
  destruct (Hvalid eq_refl) as [Hlen Hnodup].
  unfold bind at 1. unfold gets. rewrite (proj2 (Z.eqb_eq _ _) Hlen). simpl negb. cbv iota.
  apply checkDuplicateSecondarySP_Ok_iff. split; [exact Hnodup |].
  intros id _. apply not_elem_of_empty.
Qed.

Lemma Create_no_provider :
  findByOperatorAddr (MsgCreateGlobalVirtualGroup.StorageProvider req) (sps s) = None ->
  CreateGlobalVirtualGroup req s = (Err ErrStorageProviderNotFound, s).
Proof.
  intros Hsp. unfold CreateGlobalVirtualGroup.
  rewrite (bind_Ok _ _ s (upgraded s Pampas) s) by reflexivity.
  rewrite (bind_Ok _ _ _ _ _ Create_validation_passes).
  rewrite (bind_Ok _ _ s None s)
    by (unfold GetStorageProviderByOperatorAddr, gets; rewrite Hsp; reflexivity).
  reflexivity.
Qed.

Lemma Create_provider_not_serving (sp : StorageProvider.t) :
  findByOperatorAddr (MsgCreateGlobalVirtualGroup.StorageProvider req) (sps s) = Some sp ->
  ~ mayServe sp ->
  CreateGlobalVirtualGroup req s = (Err ErrStorageProviderNotInService, s).
Proof.
  intros Hsp Hserve. unfold CreateGlobalVirtualGroup.
  rewrite (bind_Ok _ _ s (upgraded s Pampas) s) by reflexivity.
  rewrite (bind_Ok _ _ _ _ _ Create_validation_passes).
  rewrite (bind_Ok _ _ s (Some sp) s)
    by (unfold GetStorageProviderByOperatorAddr, gets; rewrite Hsp; reflexivity).
  destruct (negb _ && negb _) eqn:Hstatus; [reflexivity |].
  apply mayServe_iff in Hstatus. contradiction.
Qed.

(** The run up to the loop over the secondary ids, for a sender that
    resolves to a provider that may serve: the error of the loop is the
    error of the handler. *)
Lemma Create_secondaries_Err (sp : StorageProvider.t) (e : Error) (s1 : State) :
  findByOperatorAddr (MsgCreateGlobalVirtualGroup.StorageProvider req) (sps s) = Some sp ->
  mayServe sp ->
  collectSecondarySPs (MsgCreateGlobalVirtualGroup.SecondarySpIds req) []
    [GVGStatisticsWithinSP.incPrimaryCount (statOrNew s (StorageProvider.Id sp))] s
  = (Err e, s1) ->
  CreateGlobalVirtualGroup req s = (Err e, s1).
Proof.
  intros Hsp Hserve Hcollect. unfold CreateGlobalVirtualGroup.
  rewrite (bind_Ok _ _ s (upgraded s Pampas) s) by reflexivity.
  rewrite (bind_Ok _ _ _ _ _ Create_validation_passes).
  rewrite (bind_Ok _ _ s (Some sp) s)
    by (unfold GetStorageProviderByOperatorAddr, gets; rewrite Hsp; reflexivity).
  rewrite (proj2 (mayServe_iff sp) Hserve).
  rewrite (bind_Ok _ _ s (statOrNew s (StorageProvider.Id sp)) s) by reflexivity.
  apply bind_Err. exact Hcollect.
Qed.

(** The run up to the family lookup, for participants that may all
    serve. *)
Lemma Create_family_Err (sp : StorageProvider.t) (ssps : list StorageProvider.t)
    (e : Error) (s1 : State) :
  findByOperatorAddr (MsgCreateGlobalVirtualGroup.StorageProvider req) (sps s) = Some sp ->
  mayServe sp ->
  Forall2 (fun id ssp => sps s !! id = Some ssp /\ mayServe ssp)
    (MsgCreateGlobalVirtualGroup.SecondarySpIds req) ssps ->
  GetOrCreateEmptyGVGFamily (MsgCreateGlobalVirtualGroup.FamilyId req)
    (StorageProvider.Id sp) s = (Err e, s1) ->
  CreateGlobalVirtualGroup req s = (Err e, s1).
Proof.
  intros Hsp Hserve Hall Hfamily. unfold CreateGlobalVirtualGroup.
  rewrite (bind_Ok _ _ s (upgraded s Pampas) s) by reflexivity.
  rewrite (bind_Ok _ _ _ _ _ Create_validation_passes).
  rewrite (bind_Ok _ _ s (Some sp) s)
    by (unfold GetStorageProviderByOperatorAddr, gets; rewrite Hsp; reflexivity).
  rewrite (proj2 (mayServe_iff sp) Hserve).
  rewrite (bind_Ok _ _ s (statOrNew s (StorageProvider.Id sp)) s) by reflexivity.
  rewrite (bind_Ok _ _ _ _ _ (collectSecondarySPs_Ok _ _ _ _ _ Hall)).
  apply bind_Err. exact Hfamily.
Qed.

End CreateRefusals.

Section CreateValidation.

Context `{Collaborators}.

Lemma Create_wrong_count (req : MsgCreateGlobalVirtualGroup.t) (s : State) :
  upgraded s Pampas = true ->
  Z.of_nat (length (MsgCreateGlobalVirtualGroup.SecondarySpIds req))
    <> GetExpectSecondarySPNumForECObject s (blockTime s) ->
  CreateGlobalVirtualGroup req s = (Err ErrInvalidSecondarySPCount, s).
Proof.
  intros Hpampas Hlen. unfold CreateGlobalVirtualGroup.
  rewrite (bind_Ok _ _ s (upgraded s Pampas) s) by reflexivity.
  rewrite Hpampas. apply bind_Err.
  unfold bind, gets. rewrite (proj2 (Z.eqb_neq _ _) Hlen). reflexivity.
Qed.

Lemma Create_repeated_id (req : MsgCreateGlobalVirtualGroup.t) (s : State) :
  upgraded s Pampas = true ->
  Z.of_nat (length (MsgCreateGlobalVirtualGroup.SecondarySpIds req))
    = GetExpectSecondarySPNumForECObject s (blockTime s) ->
  ~ NoDup (MsgCreateGlobalVirtualGroup.SecondarySpIds req) ->
  CreateGlobalVirtualGroup req s = (Err ErrDuplicateSecondarySP, s).
Proof.
  intros Hpampas Hlen Hdup. unfold CreateGlobalVirtualGroup.
  rewrite (bind_Ok _ _ s (upgraded s Pampas) s) by reflexivity.
  rewrite Hpampas. apply bind_Err.
  unfold bind at 1. unfold gets. rewrite (proj2 (Z.eqb_eq _ _) Hlen). simpl negb. cbv iota.
  destruct (checkDuplicateSecondarySP_cases
              (MsgCreateGlobalVirtualGroup.SecondarySpIds req) ∅ s) as [Hok | Herr];
    [| exact Herr].
  exfalso. apply Hdup. apply (proj1 (checkDuplicateSecondarySP_Ok_iff _ _ _) Hok).
Qed.

Lemma GenNextGVGID_fails_only (P : Error -> Prop) : fails_only P GenNextGVGID.
Proof. intros s e s' Hrun. discriminate. Qed.

Lemma GetOrCreateEmptyGVGFamily_preserves {B} (f : State -> B) (familyID primarySPID : Z) :
  (forall n s, f (set_familySequence n s) = f s) ->
  preserves f (GetOrCreateEmptyGVGFamily familyID primarySPID).
Proof.
  intros Hf s. unfold GetOrCreateEmptyGVGFamily.
  destruct (familyID =? NoSpecifiedFamilyId).
  - unfold bind, GenNextGVGFamilyID, ret. simpl. apply Hf.
  - unfold bind, GetGVGFamily, gets. destruct (families s !! familyID) as [family|];
      [| reflexivity].
    destruct (negb _); reflexivity.
Qed.

Lemma GetOrCreateEmptyGVGFamily_stored {B} (f : State -> B) (familyID primarySPID : Z) :
  familyID <> NoSpecifiedFamilyId ->
  preserves f (GetOrCreateEmptyGVGFamily familyID primarySPID).
Proof.
  intros Hstored s. unfold GetOrCreateEmptyGVGFamily.
  rewrite (proj2 (Z.eqb_neq _ _) Hstored).
  unfold bind, GetGVGFamily, gets. destruct (families s !! familyID) as [family|];
    [| reflexivity].
  destruct (negb _); reflexivity.
Qed.

(** Whatever the family lookup leaves alone is as it was when the creation
    returns an error: the checks before the transfer only read, a failed
    transfer changes nothing, and nothing after the transfer can fail. *)
Lemma Create_keeps_on_error {B} (f : State -> B) (req : MsgCreateGlobalVirtualGroup.t) :
  (forall primarySPID,
     preserves f (GetOrCreateEmptyGVGFamily
                    (MsgCreateGlobalVirtualGroup.FamilyId req) primarySPID)) ->
  keeps_on_error f (CreateGlobalVirtualGroup req).
Proof.
  intros Hfamily. unfold CreateGlobalVirtualGroup.
  apply keeps_on_error_bind; [frame | intros pampas].
  apply keeps_on_error_bind;
    [destruct pampas; frame; apply checkDuplicateSecondarySP_preserves | intros _].
  apply keeps_on_error_bind; [frame | intros found].
  destruct found as [sp|]; [| apply keeps_on_error_of_preserves; frame].
  destruct (negb _ && negb _); [apply keeps_on_error_of_preserves; frame |].
  apply keeps_on_error_bind; [frame | intros stat].
  apply keeps_on_error_bind; [apply collectSecondarySPs_preserves | intros collected].
  apply keeps_on_error_bind; [apply Hfamily | intros gvgFamily].
  apply keeps_on_error_bind; [frame | intros manchurian].
  apply keeps_on_error_bind;
    [destruct manchurian; frame; apply checkDuplicateGVG_preserves | intros _].
  apply keeps_on_error_bind; [frame | intros maxNum].
  destruct (_ <? _); [apply keeps_on_error_of_preserves; frame |].
  apply keeps_on_error_bind; [frame | intros denom].
  apply keeps_on_error_bind; [apply NewCoins_preserves | intros coins].
  apply keeps_on_error_last.
  - intros s e s' Hrun. rewrite (SendCoins_atomic _ _ _ _ _ _ Hrun). reflexivity.
  - intros _. apply fails_only_bind; [apply GenNextGVGID_fails_only | intros gvgID].
    cbv zeta. errors.
Qed.

(** The errors a creation can return. *)
Lemma Create_fails_only (req : MsgCreateGlobalVirtualGroup.t) :
  fails_only
    (fun e => In e [ErrInvalidSecondarySPCount; ErrDuplicateSecondarySP;
                    ErrStorageProviderNotFound; ErrStorageProviderNotInService;
                    ErrGVGFamilyNotExist; ErrFamilyNotOwned; ErrGVGNotExist;
                    ErrDuplicateGVG; ErrLimitationExceed; ErrInsufficientFunds])
    (CreateGlobalVirtualGroup req).
Proof.
  assert (Hdup : forall ids set P,
            P ErrDuplicateSecondarySP -> fails_only P (checkDuplicateSecondarySP ids set)).
  { intros ids set P HP. revert set.
    induction ids as [|id ids IH]; intros set; simpl; errors; [exact HP | apply IH]. }
  assert (Hscan : forall gvgIDs ids P,
            P ErrGVGNotExist -> P ErrDuplicateGVG ->
            fails_only P (checkDuplicateGVG gvgIDs ids)).
  { intros gvgIDs ids P HP1 HP2.
    induction gvgIDs as [|id gvgIDs IH]; simpl; errors; assumption. }
  unfold CreateGlobalVirtualGroup.
  apply fails_only_bind; [errors | intros pampas].
  apply fails_only_bind; [destruct pampas; errors; [simpl; tauto | apply Hdup; simpl; tauto] | intros _].
  apply fails_only_bind; [errors | intros found].
  destruct found as [sp|]; [| errors; simpl; tauto].
  destruct (negb _ && negb _); [errors; simpl; tauto |].
  apply fails_only_bind; [errors | intros stat].
  apply fails_only_bind; [| intros collected].
  { eapply fails_only_weaken; [| apply collectSecondarySPs_fails_only].
    intros e [-> | ->]; simpl; tauto. }
  apply fails_only_bind; [| intros gvgFamily].
  { unfold GetOrCreateEmptyGVGFamily. destruct (_ =? _).
    - apply fails_only_bind; [intros s e s' Hrun; discriminate | intros id; errors].
    - unfold GetGVGFamily. errors; simpl; tauto. }
  apply fails_only_bind; [errors | intros manchurian].
  apply fails_only_bind; [destruct manchurian; errors; apply Hscan; simpl; tauto | intros _].
  apply fails_only_bind; [errors | intros maxNum].
  destruct (_ <? _); [errors; simpl; tauto |].
  apply fails_only_bind; [errors | intros denom].
  apply fails_only_bind; [apply NewCoins_fails_only | intros coins].
  apply fails_only_bind; [apply SendCoins_fails_only; simpl; tauto | intros _].
  apply fails_only_bind; [apply GenNextGVGID_fails_only | intros gvgID].
  cbv zeta. errors.
Qed.

End CreateValidation.

(** The batch write of the counters: the last counters written under a key
    are the ones stored. *)
Lemma batch_lookup_other (m : gmap Z GVGStatisticsWithinSP.t)
    (l : list GVGStatisticsWithinSP.t) (k : Z) :
  (forall st, st ∈ l -> GVGStatisticsWithinSP.StorageProviderId st <> k) ->
  foldl (fun m st => <[GVGStatisticsWithinSP.StorageProviderId st := st]> m) m l !! k
  = m !! k.
Proof.
  revert m. induction l as [|a l IH]; intros m Hother; simpl; [reflexivity |].
  rewrite IH.
  - apply lookup_insert_ne. apply Hother. left.
  - intros st Hin. apply Hother. right. exact Hin.
Qed.

Lemma batch_lookup_same (m : gmap Z GVGStatisticsWithinSP.t)
    (l : list GVGStatisticsWithinSP.t) (k : Z) (v : GVGStatisticsWithinSP.t) :
  m !! k = Some v
  \/ (exists st, st ∈ l /\ GVGStatisticsWithinSP.StorageProviderId st = k) ->
  (forall st, st ∈ l -> GVGStatisticsWithinSP.StorageProviderId st = k -> st = v) ->
  foldl (fun m st => <[GVGStatisticsWithinSP.StorageProviderId st := st]> m) m l !! k
  = Some v.
Proof.
  revert m. induction l as [|a l IH]; intros m Hsome Hall; simpl.
  - destruct Hsome as [Hm | (st & Hin & _)]; [exact Hm |].
    apply elem_of_nil in Hin. destruct Hin.
  - apply IH.
    + destruct (decide (GVGStatisticsWithinSP.StorageProviderId a = k)) as [Hk | Hk].
      * left. rewrite Hk. rewrite (Hall a) by (left || exact Hk).
        apply lookup_insert_eq.
      * destruct Hsome as [Hm | (st & Hin & Hkey)].
        -- left. rewrite lookup_insert_ne by exact Hk. exact Hm.
        -- right. exists st. split; [| exact Hkey].
           apply elem_of_cons in Hin as [-> | Hin]; [contradiction | exact Hin].
    + intros st Hin. apply Hall. right. exact Hin.
Qed.

Lemma statOrNew_key (s : State) (id : Z) :
  ledgerKeyed s -> GVGStatisticsWithinSP.StorageProviderId (statOrNew s id) = id.
Proof.
  intros Hkeyed. unfold statOrNew.
  destruct (stats s !! id) as [st|] eqn:Hst; [apply (Hkeyed _ _ Hst) | reflexivity].
Qed.

(** The state after the family lookup differs from the state before it at
    most in the family sequence. *)
Lemma family_step_frame `{Collaborators} (familyID primarySPID : Z) (s s1 : State)
    (o : Outcome GlobalVirtualGroupFamily.t) :
  GetOrCreateEmptyGVGFamily familyID primarySPID s = (o, s1) ->
  s1 = set_familySequence (familySequence s1) s.
Proof.
  intros Hrun.
  pose proof (preserves_Ok (set_familySequence 0) _ _ _ _
                (GetOrCreateEmptyGVGFamily_preserves (set_familySequence 0)
                   familyID primarySPID (fun n s => eq_refl)) Hrun) as Hframe.
  destruct s, s1. simpl in *. inversion Hframe. reflexivity.
Qed.

(** X17: once the Pampas upgrade is active, CreateGlobalVirtualGroup first
    validates the list of secondary ids: a list whose length is not the
    expected number of secondaries is refused with the invalid-count
    error, and a list of the right length in which an id occurs twice is
    refused with the duplicate-secondary error, both without touching the
    state.  A creation that succeeds had a list of the expected length
    without repetition. *)
Theorem CreateGlobalVirtualGroup_secondary_ids_validated
    `{Collaborators} (req : MsgCreateGlobalVirtualGroup.t) (s : State) :
  upgraded s Pampas = true ->
  (Z.of_nat (length (MsgCreateGlobalVirtualGroup.SecondarySpIds req))
     <> GetExpectSecondarySPNumForECObject s (blockTime s) ->
   CreateGlobalVirtualGroup req s = (Err ErrInvalidSecondarySPCount, s))
  /\ (Z.of_nat (length (MsgCreateGlobalVirtualGroup.SecondarySpIds req))
        = GetExpectSecondarySPNumForECObject s (blockTime s) ->
      ~ NoDup (MsgCreateGlobalVirtualGroup.SecondarySpIds req) ->
      CreateGlobalVirtualGroup req s = (Err ErrDuplicateSecondarySP, s))
  /\ (forall s',
        CreateGlobalVirtualGroup req s = (Ok tt, s') ->
        Z.of_nat (length (MsgCreateGlobalVirtualGroup.SecondarySpIds req))
          = GetExpectSecondarySPNumForECObject s (blockTime s)
        /\ NoDup (MsgCreateGlobalVirtualGroup.SecondarySpIds req)).
Proof.
  intros Hpampas. split; [| split].
  - apply Create_wrong_count. exact Hpampas.
  - apply Create_repeated_id. exact Hpampas.
  - intros s' Hok.
    destruct (CreateGlobalVirtualGroup_Ok_inv req s s' Hok)
      as (sp & ssps & family & s1 & b' & Hvalid & _).
    apply Hvalid. exact Hpampas.
Qed.

(** X18: who may take part in a new group.  For a request that passes the
    validation of the secondary ids, the sender must be the operator
    address of a registered provider, and that provider and every
    secondary must be registered and in service or in maintenance.  The
    sender is checked first, then the secondaries in the order of the
    request: the first one that is missing gives the provider-not-found
    error, the first one in another status the not-in-service error.  Each
    refusal leaves the state as it was, and a creation that succeeds had
    all its participants registered and serving. *)
Theorem CreateGlobalVirtualGroup_participants
    `{Collaborators} (req : MsgCreateGlobalVirtualGroup.t) (s : State) :
  (upgraded s Pampas = true ->
     Z.of_nat (length (MsgCreateGlobalVirtualGroup.SecondarySpIds req))
       = GetExpectSecondarySPNumForECObject s (blockTime s)
     /\ NoDup (MsgCreateGlobalVirtualGroup.SecondarySpIds req)) ->
  (findByOperatorAddr (MsgCreateGlobalVirtualGroup.StorageProvider req) (sps s) = None ->
     CreateGlobalVirtualGroup req s = (Err ErrStorageProviderNotFound, s))
  /\ (forall sp,
        findByOperatorAddr (MsgCreateGlobalVirtualGroup.StorageProvider req) (sps s)
          = Some sp ->
        (~ mayServe sp ->
           CreateGlobalVirtualGroup req s = (Err ErrStorageProviderNotInService, s))
        /\ (mayServe sp ->
            forall good bad rest ssps,
              MsgCreateGlobalVirtualGroup.SecondarySpIds req = good ++ bad :: rest ->
              Forall2 (fun id ssp => sps s !! id = Some ssp /\ mayServe ssp) good ssps ->
              (sps s !! bad = None ->
                 CreateGlobalVirtualGroup req s = (Err ErrStorageProviderNotFound, s))
              /\ (forall ssp,
                    sps s !! bad = Some ssp -> ~ mayServe ssp ->
                    CreateGlobalVirtualGroup req s
                    = (Err ErrStorageProviderNotInService, s))))
  /\ (forall s',
        CreateGlobalVirtualGroup req s = (Ok tt, s') ->
        exists sp ssps,
          findByOperatorAddr (MsgCreateGlobalVirtualGroup.StorageProvider req) (sps s)
            = Some sp
          /\ mayServe sp
          /\ Forall2 (fun id ssp => sps s !! id = Some ssp /\ mayServe ssp)
               (MsgCreateGlobalVirtualGroup.SecondarySpIds req) ssps).
Proof.
  intros Hvalid. split; [| split].
  - apply Create_no_provider. exact Hvalid.
  - intros sp Hsp. split.
    + apply Create_provider_not_serving; assumption.
    + intros Hserve good bad rest ssps Hids Hgood. split.
      * intros Hbad. apply (Create_secondaries_Err req s Hvalid sp); [exact Hsp | exact Hserve |].
        rewrite Hids, (collectSecondarySPs_Err good bad rest _ _ s ssps Hgood), Hbad.
        reflexivity.
      * intros ssp Hbad Hstatus.
        apply (Create_secondaries_Err req s Hvalid sp); [exact Hsp | exact Hserve |].
        rewrite Hids, (collectSecondarySPs_Err good bad rest _ _ s ssps Hgood), Hbad.
        destruct (negb _ && negb _) eqn:Hcheck; [reflexivity |].
        apply mayServe_iff in Hcheck. contradiction.
  - intros s' Hok.
    destruct (CreateGlobalVirtualGroup_Ok_inv req s s' Hok)
      as (sp & ssps & family & s1 & b' & _ & Hsp & Hserve & Hall & _).
    exists sp, ssps. split; [exact Hsp |]. split; [exact Hserve | exact Hall].
Qed.

(** X19: what a successful creation stores and escrows.  The new group is
    stored under the next id of the group sequence, with the sender's
    provider as primary, no stored size, the derived payment account and
    the request's deposit as its total deposit; in a registry that keys
    providers by their id its secondaries are the requested ids, in the
    requested order.  The deposit, which is not negative, has moved from
    the provider's funding account to the module account, no other balance
    has changed, no other group has been touched, and the registry and the
    parameters are as they were. *)
Theorem CreateGlobalVirtualGroup_stores_group
    `{Collaborators} (req : MsgCreateGlobalVirtualGroup.t) (s s' : State) :
  CreateGlobalVirtualGroup req s = (Ok tt, s') ->
  exists sp gvg,
    findByOperatorAddr (MsgCreateGlobalVirtualGroup.StorageProvider req) (sps s) = Some sp
    /\ gvgSequence s' = gvgSequence s + 1
    /\ gvgs s' = <[gvgSequence s + 1 := gvg]> (gvgs s)
    /\ GlobalVirtualGroup.Id gvg = gvgSequence s + 1
    /\ GlobalVirtualGroup.PrimarySpId gvg = StorageProvider.Id sp
    /\ GlobalVirtualGroup.StoredSize gvg = 0
    /\ GlobalVirtualGroup.VirtualPaymentAddress gvg
       = DeriveVirtualPaymentAccount GVGVirtualPaymentAccountName (gvgSequence s + 1)
    /\ GlobalVirtualGroup.TotalDeposit gvg
       = Coin.Amount (MsgCreateGlobalVirtualGroup.Deposit req)
    /\ (registryKeyed s ->
        GlobalVirtualGroup.SecondarySpIds gvg
        = MsgCreateGlobalVirtualGroup.SecondarySpIds req)
    /\ 0 <= Coin.Amount (MsgCreateGlobalVirtualGroup.Deposit req)
    /\ transferred (balances s) (balances s')
         (UserAccount (StorageProvider.FundingAddress sp)) (ModuleAccount ModuleName)
         (Params.DepositDenom (params s))
         (Coin.Amount (MsgCreateGlobalVirtualGroup.Deposit req))
    /\ sps s' = sps s
    /\ params s' = params s.
Proof.
  intros Hok.
  destruct (CreateGlobalVirtualGroup_Ok_inv req s s' Hok)
    as (sp & ssps & family & s1 & b' & _ & Hsp & _ & Hall & Hfamily & _ & _
        & Hamount & Hmoved & Hs').
  apply family_step_frame in Hfamily.
  exists sp. eexists. split; [exact Hsp |].
  rewrite Hs', Hfamily. simpl.
  split; [reflexivity |]. split; [reflexivity |].
  simpl.
  split; [reflexivity |]. split; [reflexivity |]. split; [reflexivity |].
  split; [reflexivity |]. split; [reflexivity |].
  split; [intros Hkeyed; apply (registered_ids s _ _ Hkeyed Hall) |].
  split; [exact Hamount |]. split; [exact Hmoved |].
  split; reflexivity.
Qed.


(** X21: the counters after a successful creation, for a request whose
    secondary ids are distinct and do not include the primary, on a chain
    that keys providers and counters by provider id.  The primary
    provider's counters are the ones it had (zero if it had none) with the
    primary count incremented, each secondary's are the ones it had with
    the secondary count incremented (both in uint32), and the counters of
    every other provider are as they were. *)
Theorem CreateGlobalVirtualGroup_statistics
    `{Collaborators} (req : MsgCreateGlobalVirtualGroup.t) (s s' : State) :
  CreateGlobalVirtualGroup req s = (Ok tt, s') ->
  registryKeyed s -> ledgerKeyed s ->
  NoDup (MsgCreateGlobalVirtualGroup.SecondarySpIds req) ->
  exists sp,
    findByOperatorAddr (MsgCreateGlobalVirtualGroup.StorageProvider req) (sps s) = Some sp
    /\ (StorageProvider.Id sp ∉ MsgCreateGlobalVirtualGroup.SecondarySpIds req ->
        stats s' !! StorageProvider.Id sp
        = Some (GVGStatisticsWithinSP.incPrimaryCount (statOrNew s (StorageProvider.Id sp)))
        /\ (forall id,
              id ∈ MsgCreateGlobalVirtualGroup.SecondarySpIds req ->
              stats s' !! id
              = Some (GVGStatisticsWithinSP.incSecondaryCount (statOrNew s id))))
    /\ (forall id,
          id <> StorageProvider.Id sp ->
          id ∉ MsgCreateGlobalVirtualGroup.SecondarySpIds req ->
          stats s' !! id = stats s !! id).
Proof.
  intros Hok Hregistry Hledger Hnodup.
  destruct (CreateGlobalVirtualGroup_Ok_inv req s s' Hok)
    as (sp & ssps & family & s1 & b' & _ & Hsp & _ & Hall & _ & _ & _ & _ & _ & Hs').
  pose proof (registered_ids s _ _ Hregistry Hall) as Hids.
  assert (Hstats : stats s' =
            foldl (fun m st => <[GVGStatisticsWithinSP.StorageProviderId st := st]> m)
              (stats s)
              (GVGStatisticsWithinSP.incPrimaryCount (statOrNew s (StorageProvider.Id sp))
               :: map (fun id => GVGStatisticsWithinSP.incSecondaryCount (statOrNew s id))
                    (MsgCreateGlobalVirtualGroup.SecondarySpIds req))).
  { rewrite Hs'. simpl. rewrite <- Hids, map_map. reflexivity. }
  clear Hs'.
  assert (Hkey : forall st id,
            st ∈ map (fun id => GVGStatisticsWithinSP.incSecondaryCount (statOrNew s id))
                   (MsgCreateGlobalVirtualGroup.SecondarySpIds req) ->
            GVGStatisticsWithinSP.StorageProviderId st = id ->
            id ∈ MsgCreateGlobalVirtualGroup.SecondarySpIds req
            /\ st = GVGStatisticsWithinSP.incSecondaryCount (statOrNew s id)).
  { intros st id Hin Hst. apply list_elem_of_In, in_map_iff in Hin as (id' & <- & Hin).
    apply list_elem_of_In in Hin. simpl in Hst. rewrite (statOrNew_key s id' Hledger) in Hst. subst id'.
    split; [exact Hin | reflexivity]. }
  exists sp. split; [exact Hsp |]. split.
  - intros Hprimary. split.
    + rewrite Hstats. simpl. rewrite batch_lookup_other.
      * simpl. rewrite (statOrNew_key s _ Hledger). apply lookup_insert_eq.
      * intros st Hin Hst. apply Hprimary. apply (Hkey st _ Hin Hst).
    + intros id Hin. rewrite Hstats. simpl. apply batch_lookup_same.
      * right. exists (GVGStatisticsWithinSP.incSecondaryCount (statOrNew s id)).
        split; [| simpl; apply (statOrNew_key s id Hledger)].
        apply list_elem_of_In, in_map_iff. exists id.
        split; [reflexivity | apply list_elem_of_In; exact Hin].
      * intros st Hst Hid. apply (Hkey st id Hst Hid).
  - intros id Hne Hnotin. rewrite Hstats. simpl. rewrite batch_lookup_other.
    + apply lookup_insert_ne. simpl. rewrite (statOrNew_key s _ Hledger).
      intros Heq. apply Hne. symmetry. exact Heq.
    + intros st Hin Hst. apply Hnotin. apply (Hkey st _ Hin Hst).
Qed.

(** X22: a refused creation takes no deposit and stores nothing.  Whatever
    error CreateGlobalVirtualGroup returns, the state is as it was before
    the call except, at most, for the family sequence, and with a family id
    in the request not even that.  The error is one of the ten the handler
    and its callees have. *)
Theorem CreateGlobalVirtualGroup_refused
    `{Collaborators} (req : MsgCreateGlobalVirtualGroup.t) (s : State) :
  forall e s',
    CreateGlobalVirtualGroup req s = (Err e, s') ->
    s' = set_familySequence (familySequence s') s
    /\ (MsgCreateGlobalVirtualGroup.FamilyId req <> NoSpecifiedFamilyId -> s' = s)
    /\ In e [ErrInvalidSecondarySPCount; ErrDuplicateSecondarySP;
             ErrStorageProviderNotFound; ErrStorageProviderNotInService;
             ErrGVGFamilyNotExist; ErrFamilyNotOwned; ErrGVGNotExist;
             ErrDuplicateGVG; ErrLimitationExceed; ErrInsufficientFunds].
Proof.
  intros e s' Herr. split; [| split].
  - pose proof (Create_keeps_on_error (set_familySequence 0) req
                  (fun pid => GetOrCreateEmptyGVGFamily_preserves
                                (set_familySequence 0) _ pid (fun n s => eq_refl))
                  s e s' Herr) as Hframe.
    destruct s, s'. simpl in *. inversion Hframe. reflexivity.
  - intros Hstored.
    apply (Create_keeps_on_error (fun s => s) req
             (fun pid => GetOrCreateEmptyGVGFamily_stored (fun s => s) _ pid Hstored)
             s e s' Herr).
  - apply (Create_fails_only req s e s' Herr).
Qed.

(** The scan of the family's groups only reads the state. *)
Lemma checkDuplicateGVG_state (gvgIDs requested : list Z) (s : State) :
  (checkDuplicateGVG gvgIDs requested s).2 = s.
Proof. apply (checkDuplicateGVG_preserves (fun s => s)). Qed.

(** X23: the scan of a family for a group with the same secondaries.  For
    a request with at least one secondary id and a family whose groups are
    all stored, the scan returns the duplicate error exactly when the
    requested ids are the first secondary ids of one of the family's
    groups, and succeeds otherwise; it never writes.  For a request
    without secondary ids, the scan panics on an index out of range as soon
    as the first group of the family has a secondary. *)
Theorem checkDuplicateGVG_outcomes (gvgIDs requested : list Z) (s : State) :
  (requested <> [] ->
   (forall gvgID, gvgID ∈ gvgIDs -> is_Some (gvgs s !! gvgID)) ->
   (checkDuplicateGVG gvgIDs requested s = (Err ErrDuplicateGVG, s)
    <-> exists gvgID gvg,
          gvgID ∈ gvgIDs /\ gvgs s !! gvgID = Some gvg
          /\ requested `prefix_of` GlobalVirtualGroup.SecondarySpIds gvg)
   /\ (checkDuplicateGVG gvgIDs requested s = (Ok tt, s)
       <-> forall gvgID gvg,
             gvgID ∈ gvgIDs -> gvgs s !! gvgID = Some gvg ->
             ~ requested `prefix_of` GlobalVirtualGroup.SecondarySpIds gvg))
  /\ (requested = [] ->
      forall gvgID rest gvg,
        gvgIDs = gvgID :: rest ->
        gvgs s !! gvgID = Some gvg ->
        GlobalVirtualGroup.SecondarySpIds gvg <> [] ->
        checkDuplicateGVG gvgIDs requested s = (Panic "index out of range", s)).
Proof.
  split.
  - intros Hne. induction gvgIDs as [|gvgID gvgIDs IH]; intros Hstored.
    + simpl. split.
      * split; [discriminate |]. intros (gvgID & gvg & Hin & _).
        apply elem_of_nil in Hin. destruct Hin.
      * split; [| reflexivity]. intros _ gvgID gvg Hin.
        apply elem_of_nil in Hin. destruct Hin.
    + destruct (Hstored gvgID) as [gvg Hgvg]; [left |].
      assert (Hrest : forall id, id ∈ gvgIDs -> is_Some (gvgs s !! id))
        by (intros id Hin; apply Hstored; right; exact Hin).
      specialize (IH Hrest). destruct IH as [IHdup IHok].
      simpl. unfold bind at 1. unfold bind at 1. unfold GetGVG, gets. rewrite Hgvg.
      pose proof (sameOrderScan_duplicate_iff
                    (GlobalVirtualGroup.SecondarySpIds gvg) requested) as Hscan.
      pose proof (sameOrderScan_panic_iff
                    (GlobalVirtualGroup.SecondarySpIds gvg) requested) as Hpanic.
      destruct (sameOrderScan (GlobalVirtualGroup.SecondarySpIds gvg) requested 0).
      * assert (Hnot : ~ requested `prefix_of` GlobalVirtualGroup.SecondarySpIds gvg).
        { intros Hprefix. assert (Habs : ScanDone = ScanDuplicate)
            by (apply Hscan; split; assumption). discriminate. }
        split.
        -- rewrite IHdup. split.
           ++ intros (id & g & Hin & Hg & Hprefix). exists id, g.
              split; [right; exact Hin |]. split; assumption.
           ++ intros (id & g & Hin & Hg & Hprefix).
              apply elem_of_cons in Hin as [-> | Hin].
              ** rewrite Hgvg in Hg. injection Hg as <-. contradiction.
              ** exists id, g. split; [exact Hin |]. split; assumption.
        -- rewrite IHok. split.
           ++ intros Hall id g Hin Hg.
              apply elem_of_cons in Hin as [-> | Hin].
              ** rewrite Hgvg in Hg. injection Hg as <-. exact Hnot.
              ** apply (Hall id g Hin Hg).
           ++ intros Hall id g Hin Hg. apply (Hall id g); [right; exact Hin | exact Hg].
      * split.
        -- split; [| reflexivity]. intros _. exists gvgID, gvg.
           split; [left |]. split; [exact Hgvg |]. apply Hscan. reflexivity.
        -- split; [discriminate |]. intros Hall. exfalso.
           apply (Hall gvgID gvg); [left | exact Hgvg |]. apply Hscan. reflexivity.
      * exfalso. destruct (proj1 Hpanic eq_refl) as [Hempty _]. contradiction.
  - intros -> gvgID rest gvg -> Hgvg Hsecondaries. simpl.
    unfold bind at 1. unfold GetGVG, gets. rewrite Hgvg.
    rewrite (proj2 (sameOrderScan_panic_iff _ []) (conj eq_refl Hsecondaries)).
    reflexivity.
Qed.

(** ** When Deposit and Withdraw panic *)




(** * Worked cases of the further properties *)

Lemma chain_registryKeyed : registryKeyed Scenario.chain.
Proof.
  unfold registryKeyed.
  apply (proj1 (map_Forall_lookup (fun k sp => StorageProvider.Id sp = k)
                  (sps Scenario.chain))).
  refine (bool_decide_unpack _ _). vm_compute. exact I.
Qed.

Lemma chain_ledgerKeyed : ledgerKeyed Scenario.chain.
Proof. intros k st Hst. vm_compute in Hst. discriminate. Qed.

(** X2 on the small chain: provider 1 deposits 50 into group 1; the 50
    leave its funding account for the module account. *)
Lemma Deposit_escrow_witness :
  exists s' b',
    Deposit (MsgDeposit.mk "operator1" 1 (Coin.mk "BNB" 50)) Scenario.chain = (Ok tt, s')
    /\ transferred (balances Scenario.chain) b'
         (UserAccount "funding1") (ModuleAccount ModuleName) "BNB" 50
    /\ gvgs s' !! 1 = Some (GlobalVirtualGroup.withTotalDeposit 150 Scenario.gvg1).
Proof.
  pose (s' := (Deposit (MsgDeposit.mk "operator1" 1 (Coin.mk "BNB" 50)) Scenario.chain).2).
  assert (Hok : Deposit (MsgDeposit.mk "operator1" 1 (Coin.mk "BNB" 50)) Scenario.chain
                = (Ok tt, s')) by (vm_compute; reflexivity).
  destruct (Deposit_escrow _ _ _ Hok) as (sp & gvg & b' & Hsp & Hgvg & Hmoved & Hs').
  assert (Hsp1 : sp = Scenario.sp1).
  { assert (Hfound : resolveProvider Scenario.chain "operator1" = Some Scenario.sp1)
      by (vm_compute; reflexivity).
    simpl in Hsp. congruence. }
  exists s', b'. split; [exact Hok |]. split.
  - rewrite Hsp1 in Hmoved. exact Hmoved.
  - vm_compute. reflexivity.
Defined.

(** X6 on the small chain, all upgrades active and a cap of 1: the exit
    request of provider 1 is granted and makes it the one exiting
    provider. *)
Lemma exit_requests_respect_cap_witness :
  exists s',
    StorageProviderExit (MsgStorageProviderExit.mk "operator1") Scenario.chain = (Ok tt, s')
    /\ exitingCount s' = exitingCount Scenario.chain + 1
    /\ exitingCount s' <= 1.
Proof.
  pose (s' := (StorageProviderExit (MsgStorageProviderExit.mk "operator1")
                 Scenario.chain).2).
  assert (Hok : StorageProviderExit (MsgStorageProviderExit.mk "operator1") Scenario.chain
                = (Ok tt, s')) by (vm_compute; reflexivity).
  assert (Hcap : 0 <= Params.SpConcurrentExitNum (params Scenario.chain) < 2 ^ 32)
    by (vm_compute; split; [discriminate | reflexivity]).
  destruct (exit_requests_respect_cap Scenario.chain s' chain_registryKeyed Hcap)
    as [_ Hexit].
  destruct (Hexit _ Hok) as (sp & _ & Hcount & Hbound).
  exists s'. split; [exact Hok |]. split; [exact Hcount | exact (Hbound eq_refl)].
Defined.

(** X7 on the small chain with the cap set to zero: no provider is
    exiting, and the forced exit of provider 1 is granted. *)
Lemma exit_cap_unused_without_exiting_witness :
  StorageProviderForcedExit (MsgStorageProviderForcedExit.mk "gov" "operator1")
    (set_params (Params.mk "BNB" 1 100 0) Scenario.chain)
  = (Ok tt, afterExitRequest Scenario.sp1 STATUS_FORCED_EXITING
              (EventStorageProviderForcedExit 1)
              (set_params (Params.mk "BNB" 1 100 0) Scenario.chain)).
Proof.
  assert (Hnone : exitingCount (set_params (Params.mk "BNB" 1 100 0) Scenario.chain) = 0)
    by (vm_compute; reflexivity).
  destruct (exit_cap_unused_without_exiting _ Hnone) as [Hforced _].
  apply (Hforced (MsgStorageProviderForcedExit.mk "gov" "operator1") Scenario.sp1);
    [reflexivity | vm_compute; reflexivity].
Defined.

(** X8 on the chain with two exiting providers: provider 2 completes its
    graceful exit; it leaves the registry, and the one event names the
    operator of the message and carries no forced flag. *)
Lemma CompleteStorageProviderExit_outcomes_witness :
  exists s',
    @CompleteStorageProviderExit Scenario.keepers
       (MsgCompleteStorageProviderExit.mk "operator2" "operator2") Scenario.exitingChain
    = (Ok tt, s')
    /\ inr (delete 2 Scenario.exitingRegistry) = inr (A := Error) (sps s')
    /\ events s' = [EventCompleteStorageProviderExit 2 "operator2" "operator2" 1000 false].
Proof.
  pose (s' := (@CompleteStorageProviderExit Scenario.keepers
                 (MsgCompleteStorageProviderExit.mk "operator2" "operator2")
                 Scenario.exitingChain).2).
  assert (Hok : @CompleteStorageProviderExit Scenario.keepers
                  (MsgCompleteStorageProviderExit.mk "operator2" "operator2")
                  Scenario.exitingChain = (Ok tt, s')) by (vm_compute; reflexivity).
  assert (Hfound : findByOperatorAddr "operator2" (sps Scenario.exitingChain)
                   = Some (withStatus STATUS_GRACEFUL_EXITING Scenario.sp2))
    by (vm_compute; reflexivity).
  destruct (@CompleteStorageProviderExit_outcomes Scenario.keepers
              (MsgCompleteStorageProviderExit.mk "operator2" "operator2")
              Scenario.exitingChain _ Hfound (or_introl eq_refl)) as (_ & Hdone & _).
  destruct (Hdone s' Hok) as (_ & Hregistry & Hevents).
  exists s'. split; [exact Hok |]. split; [exact Hregistry | exact Hevents].
Defined.

(** X9 on the small chain, all upgrades active: the settlement of family 1
    is the same whoever asks for it. *)
Lemma Settle_family_witness :
  @Settle Scenario.keepers [] (MsgSettle.mk "nobody" 1 [1]) Scenario.chain
  = @Settle Scenario.keepers [] (MsgSettle.mk "operator1" 1 [1]) Scenario.chain.
Proof.
  assert (Hfamily : MsgSettle.GlobalVirtualGroupFamilyId (MsgSettle.mk "operator1" 1 [1])
                    <> NoSpecifiedFamilyId) by discriminate.
  destruct (@Settle_family Scenario.keepers (MsgSettle.mk "operator1" 1 [1])
              Scenario.chain [] Hfamily) as (_ & _ & Hnew & _).
  destruct (Hnew eq_refl) as [Hcaller _]. exact (Hcaller "nobody").
Defined.

(** X10 on the small chain: a settlement request that names nothing
    succeeds and changes nothing. *)
Lemma Settle_group_set_edges_witness :
  @Settle Scenario.keepers [] (MsgSettle.mk "nobody" 0 []) Scenario.chain
  = (Ok tt, Scenario.chain).
Proof.
  assert (Horder : rangeOrder (buildIdSet []) []).
  { unfold rangeOrder. change (buildIdSet []) with (∅ : gset Z).
    rewrite elements_empty. reflexivity. }
  destruct (@Settle_group_set_edges Scenario.keepers (MsgSettle.mk "nobody" 0 [])
              Scenario.chain [] eq_refl Horder) as [Hempty _].
  destruct (Hempty eq_refl) as [_ Hrun]. exact Hrun.
Defined.

(** X15 on the small chain: at block time 1700000000 and with a validity
    period of 100, the reservation of provider 1 expires at 1700000100. *)
Lemma ReserveSwapIn_expiration_witness :
  exists s',
    @ReserveSwapIn Cases.swapKeepers Cases.reservation Scenario.chain = (Ok tt, s')
    /\ events s' = [@EventReserveSwapIn Cases.swapKeepers 1 1 1 2 1700000100].
Proof.
  assert (Hsp : findByOperatorAddr (MsgReserveSwapIn.StorageProvider Cases.reservation)
                  (sps Scenario.chain) = Some Scenario.sp1) by (vm_compute; reflexivity).
  assert (Hother : StorageProvider.Id Scenario.sp1
                   <> MsgReserveSwapIn.TargetSpId Cases.reservation) by discriminate.
  assert (Htarget : sps Scenario.chain !! MsgReserveSwapIn.TargetSpId Cases.reservation
                    = Some Scenario.sp2) by (vm_compute; reflexivity).
  assert (Hnow : 0 <= blockTime Scenario.chain < 2 ^ 63)
    by (vm_compute; split; [discriminate | reflexivity]).
  assert (Hperiod : 0 <= Params.SwapInValidityPeriod (params Scenario.chain) < 2 ^ 64)
    by (vm_compute; split; [discriminate | reflexivity]).
  destruct (@ReserveSwapIn_expiration Cases.swapKeepers Cases.reservation Scenario.chain
              Scenario.sp1 Scenario.sp2 Hsp Hother Htarget Hnow Hperiod)
    as (expirationTime & Hfits & _ & Hok & _).
  destruct Hfits as [_ Huint]; [vm_compute; reflexivity |].
  eexists. split.
  - apply Hok. exists Scenario.chain. split; reflexivity.
  - cbn [events set_events]. rewrite Huint. reflexivity.
Defined.

(** X16 on the small chain: provider 1 deletes group 1. *)
Lemma DeleteGlobalVirtualGroup_outcomes_witness :
  exists s',
    @DeleteGlobalVirtualGroup Cases.swapKeepers
       (MsgDeleteGlobalVirtualGroup.mk "operator1" 1) Scenario.chain = (Ok tt, s')
    /\ gvgs s' !! 1 = None
    /\ events s' = [@EventDeleteGlobalVirtualGroup Cases.swapKeepers 1 1].
Proof.
  assert (Hsp : findByOperatorAddr
                  (MsgDeleteGlobalVirtualGroup.StorageProvider
                     (MsgDeleteGlobalVirtualGroup.mk "operator1" 1))
                  (sps Scenario.chain) = Some Scenario.sp1) by (vm_compute; reflexivity).
  destruct (@DeleteGlobalVirtualGroup_outcomes Cases.swapKeepers
              (MsgDeleteGlobalVirtualGroup.mk "operator1" 1) Scenario.chain
              Scenario.sp1 Hsp) as [Hok _].
  eexists. split.
  - apply Hok. eexists. split; reflexivity.
  - split; vm_compute; reflexivity.
Defined.

(** X17 on the small chain, where two secondaries are expected: a request
    that names provider 2 twice is refused as a duplicate. *)
Lemma CreateGlobalVirtualGroup_secondary_ids_validated_witness :
  @CreateGlobalVirtualGroup Scenario.keepers
     (MsgCreateGlobalVirtualGroup.mk "operator1" 0 [2; 2] (Coin.mk "BNB" 100))
     Scenario.chain
  = (Err ErrDuplicateSecondarySP, Scenario.chain).
Proof.
  destruct (@CreateGlobalVirtualGroup_secondary_ids_validated Scenario.keepers
              (MsgCreateGlobalVirtualGroup.mk "operator1" 0 [2; 2] (Coin.mk "BNB" 100))
              Scenario.chain eq_refl) as (_ & Hdup & _).
  apply Hdup; [reflexivity |].
  intros Hnodup. apply NoDup_cons in Hnodup as [Hnotin _]. apply Hnotin. left.
Defined.

(** X18 on the small chain: a request whose second secondary, provider 9,
    is not registered is refused with the provider-not-found error. *)
Lemma CreateGlobalVirtualGroup_participants_witness :
  @CreateGlobalVirtualGroup Scenario.keepers
     (MsgCreateGlobalVirtualGroup.mk "operator1" 0 [2; 9] (Coin.mk "BNB" 100))
     Scenario.chain
  = (Err ErrStorageProviderNotFound, Scenario.chain).
Proof.
  assert (Hvalid :
    upgraded Scenario.chain Pampas = true ->
    Z.of_nat (length [2; 9])
      = @GetExpectSecondarySPNumForECObject Scenario.keepers Scenario.chain
          (blockTime Scenario.chain)
    /\ NoDup [2; 9]).
  { intros _. split; [reflexivity |].
    refine (bool_decide_unpack _ _). vm_compute. exact I. }
  assert (Hfound : findByOperatorAddr "operator1" (sps Scenario.chain) = Some Scenario.sp1)
    by (vm_compute; reflexivity).
  assert (Hgood : Forall2 (fun id ssp => sps Scenario.chain !! id = Some ssp /\ mayServe ssp)
                    [2] [Scenario.sp2]).
  { constructor; [| constructor]. split; [vm_compute; reflexivity | left; reflexivity]. }
  destruct (@CreateGlobalVirtualGroup_participants Scenario.keepers
              (MsgCreateGlobalVirtualGroup.mk "operator1" 0 [2; 9] (Coin.mk "BNB" 100))
              Scenario.chain Hvalid) as (_ & Hparticipants & _).
  destruct (Hparticipants Scenario.sp1 Hfound) as [_ Hsecondaries].
  destruct (Hsecondaries (or_introl eq_refl) [2] 9 [] [Scenario.sp2] eq_refl Hgood)
    as [Hmissing _].
  apply Hmissing. vm_compute. reflexivity.
Defined.

(** X19 on the small chain: the new group of provider 1 is stored under
    id 2 with the secondaries 2 and 3 and a deposit of 100, and the funding
    account of provider 1 is left with 200. *)
Lemma CreateGlobalVirtualGroup_stores_group_witness :
  exists s' gvg,
    @CreateGlobalVirtualGroup Scenario.keepers Cases.newGroup Scenario.chain = (Ok tt, s')
    /\ gvgs s' !! 2 = Some gvg
    /\ GlobalVirtualGroup.SecondarySpIds gvg = [2; 3]
    /\ GlobalVirtualGroup.TotalDeposit gvg = 100
    /\ balanceOf (balances s') (UserAccount "funding1") "BNB" = 200.
Proof.
  pose (s' := (@CreateGlobalVirtualGroup Scenario.keepers Cases.newGroup Scenario.chain).2).
  assert (Hok : @CreateGlobalVirtualGroup Scenario.keepers Cases.newGroup Scenario.chain
                = (Ok tt, s')) by (vm_compute; reflexivity).
  destruct (@CreateGlobalVirtualGroup_stores_group Scenario.keepers _ _ _ Hok)
    as (sp & gvg & Hsp & _ & Hgvgs & _ & _ & _ & _ & Hdeposit & Hsecondaries & _
        & Hmoved & _).
  assert (Hsp1 : sp = Scenario.sp1).
  { assert (Hfound : findByOperatorAddr "operator1" (sps Scenario.chain)
                     = Some Scenario.sp1) by (vm_compute; reflexivity).
    change (findByOperatorAddr "operator1" (sps Scenario.chain) = Some sp) in Hsp.
    congruence. }
  exists s', gvg. split; [exact Hok |].
  split; [rewrite Hgvgs; apply lookup_insert_eq |].
  split; [apply Hsecondaries, chain_registryKeyed |].
  split; [exact Hdeposit |].
  destruct Hmoved as [Hfrom _]. rewrite Hsp1 in Hfrom.
  etransitivity; [exact Hfrom | vm_compute; reflexivity].
Defined.


(** X21 on the small chain, where no provider has counters yet: after the
    creation provider 1 counts one primary group, provider 2 one secondary
    group, and provider 4 still has no counters. *)
Lemma CreateGlobalVirtualGroup_statistics_witness :
  exists s',
    @CreateGlobalVirtualGroup Scenario.keepers Cases.newGroup Scenario.chain = (Ok tt, s')
    /\ stats s' !! 1 = Some (GVGStatisticsWithinSP.mk 1 1 0 0)
    /\ stats s' !! 2 = Some (GVGStatisticsWithinSP.mk 2 0 1 0)
    /\ stats s' !! 4 = None.
Proof.
  pose (s' := (@CreateGlobalVirtualGroup Scenario.keepers Cases.newGroup Scenario.chain).2).
  assert (Hok : @CreateGlobalVirtualGroup Scenario.keepers Cases.newGroup Scenario.chain
                = (Ok tt, s')) by (vm_compute; reflexivity).
  assert (Hnodup : NoDup (MsgCreateGlobalVirtualGroup.SecondarySpIds Cases.newGroup)).
  { refine (bool_decide_unpack _ _). vm_compute. exact I. }
  destruct (@CreateGlobalVirtualGroup_statistics Scenario.keepers _ _ _ Hok
              chain_registryKeyed chain_ledgerKeyed Hnodup)
    as (sp & Hsp & Hcounted & Hothers).
  assert (Hsp1 : sp = Scenario.sp1).
  { assert (Hfound : findByOperatorAddr "operator1" (sps Scenario.chain)
                     = Some Scenario.sp1) by (vm_compute; reflexivity).
    change (findByOperatorAddr "operator1" (sps Scenario.chain) = Some sp) in Hsp.
    congruence. }
  rewrite Hsp1 in Hcounted, Hothers.
  assert (Hprimary : StorageProvider.Id Scenario.sp1
                     ∉ MsgCreateGlobalVirtualGroup.SecondarySpIds Cases.newGroup).
  { refine (bool_decide_unpack _ _). vm_compute. exact I. }
  destruct (Hcounted Hprimary) as [Hone Htwo].
  exists s'. split; [exact Hok |]. split; [exact Hone |]. split.
  - apply (Htwo 2). left.
  - etransitivity; [apply (Hothers 4) | reflexivity].
    + discriminate.
    + refine (bool_decide_unpack _ _). vm_compute. exact I.
Defined.

(** X22 on the small chain: the funding account of provider 1 holds 300,
    so a creation with a deposit of 1000 is refused; the family id it had
    drawn is all that is left of it. *)
Lemma CreateGlobalVirtualGroup_refused_witness :
  exists s',
    @CreateGlobalVirtualGroup Scenario.keepers Cases.costlyGroup Scenario.chain
    = (Err ErrInsufficientFunds, s')
    /\ s' = set_familySequence 2 Scenario.chain.
Proof.
  pose (s' := (@CreateGlobalVirtualGroup Scenario.keepers Cases.costlyGroup
                 Scenario.chain).2).
  assert (Herr : @CreateGlobalVirtualGroup Scenario.keepers Cases.costlyGroup Scenario.chain
                 = (Err ErrInsufficientFunds, s')) by (vm_compute; reflexivity).
  destruct (@CreateGlobalVirtualGroup_refused Scenario.keepers _ _ _ _ Herr)
    as (Hframe & _ & _).
  exists s'. split; [exact Herr |].
  etransitivity; [exact Hframe | vm_compute; reflexivity].
Defined.
